(** * VisDrone to YOLO annotation converter ([scripts/visdrone2yolo.py])

    A shallow embedding of [convert_box] and [visdrone2yolo] and the
    properties their specification states about them.

    - Python [int] is [Z]; [str] is [string] (code points below 256); a row
      of an annotation file is a [list string]; the files of a labels
      directory are a [gmap string string] from name to content.
    - Python [float] is an interface, [PyFloat], with two instances: IEEE
      binary64 on the kernel's primitive floats (what CPython runs), and exact
      rationals (the arithmetic the specification's formulas are written in).
    - A raised exception is the [Raise] case of [result]; the converter's
      [try]/[except] blocks are matches on it.
    - The file system is what the converter observes of it: the annotation
      files [glob] yields with what reading each gives, the image files with
      what opening each gives, the label files it writes, the messages it
      prints. Writing a label file is taken to succeed; the progress bar is
      left out.

    The loop of [visdrone2yolo] computes the image's name with
    [f.name.with_suffix('.jpg')], on a [str]: that is [str_with_suffix], which
    raises. The loop is therefore embedded over the way the name is computed,
    [visdrone2yolo_with], and [visdrone2yolo] is its instance as written. *)

From Stdlib Require Import ZArith QArith Qpower Lqa Lia String Ascii List Bool.
From Stdlib Require Import DecimalString.
From Stdlib Require Import PrimFloat SpecFloat FloatOps FloatAxioms.
From stdpp Require Import base option list strings gmap.

Local Open Scope string_scope.
Local Open Scope list_scope.
Local Open Scope Z_scope.

(** ** Exceptions *)

(** The exception classes the converter can meet; all are subclasses of
    [Exception], which is what its handlers catch. *)
Inductive exn : Set :=
  | AttributeError
  | IndexError
  | OSError
  | OverflowError
  | ValueError
  | ZeroDivisionError.

Inductive result (A : Type) : Type :=
  | Ok (a : A)
  | Raise (e : exn).
Arguments Ok {A} a.
Arguments Raise {A} e.

#[global] Instance result_ret : MRet result := @Ok.
#[global] Instance result_bind : MBind result := λ A B k m,
  match m with
  | Ok a => k a
  | Raise e => Raise e
  end.

(** [mapM] for [result]: the first element that raises decides. *)
Fixpoint map_result {A B} (f : A → result B) (l : list A) : result (list B) :=
  match l with
  | [] => Ok []
  | a :: l' => b ← f a; bs ← map_result f l'; Ok (b :: bs)
  end.

(** ** Python floats *)

(** What [convert_box] and the range check need from [float]. [of_int] is the
    implicit conversion of an [int] operand in mixed arithmetic, which raises
    [OverflowError] for an integer beyond the float range; [fdiv] raises
    [ZeroDivisionError] for a zero divisor; [format6] is the ['.6f'] format. *)
Class PyFloat (F : Type) := {
  of_int : Z → result F;
  f0 : F;
  f1 : F;
  f2 : F;
  fadd : F → F → F;
  fmul : F → F → F;
  fdiv : F → F → result F;
  fle : F → F → bool;
  format6 : F → string;
}.

(** ['.6f'] of the non-negative rational [a / d] ([0 <= a], [0 < d]): the
    nearest multiple of 10^-6, a tie going to the even one, printed with its
    integer part and six fraction digits. *)
Fixpoint digits_fixed (k : nat) (n : Z) : string :=
  match k with
  | O => ""
  | S k' => digits_fixed k' (n / 10) +:+ String (ascii_of_nat (48 + Z.to_nat (n mod 10))) ""
  end.

Definition round_half_even (a d : Z) : Z :=
  let q := a / d in
  let r := a mod d in
  if (d <? 2 * r) || ((d =? 2 * r) && Z.odd q) then q + 1 else q.

Definition str_int (n : Z) : string := NilZero.string_of_int (Z.to_int n).

Definition format6_ratio (neg : bool) (a d : Z) : string :=
  let n := round_half_even (a * 1000000) d in
  (if neg then "-" else "") +:+ str_int (n / 1000000) +:+ "." +:+ digits_fixed 6 (n mod 1000000).

(** *** Exact rationals *)

Definition Q_format6 (q : Q) : string :=
  format6_ratio (Qnum q <? 0) (Z.abs (Qnum q)) (Z.pos (Qden q)).

#[global] Instance Q_float : PyFloat Q := {|
  of_int n := Ok (inject_Z n);
  f0 := 0%Q;
  f1 := 1%Q;
  f2 := 2%Q;
  fadd := Qplus;
  fmul := Qmult;
  fdiv a b := if Qeq_bool b 0 then Raise ZeroDivisionError else Ok (a / b)%Q;
  fle := Qle_bool;
  format6 := Q_format6;
|}.

(** *** IEEE binary64 *)

(** [int] to [float] as CPython converts: round to nearest, ties to even,
    [OverflowError] when the result is not finite. *)
Definition b64_of_int (n : Z) : result float :=
  let f := SF2Prim (binary_normalize prec emax n 0 false) in
  if is_infinity f then Raise OverflowError else Ok f.

Definition b64_format6 (f : float) : string :=
  match Prim2SF f with
  | S754_nan => "nan"
  | S754_infinity s => if s then "-inf" else "inf"
  | S754_zero s => format6_ratio s 0 1
  | S754_finite s m e =>
      if 0 <=? e then format6_ratio s (Z.pos m * 2 ^ e) 1
      else format6_ratio s (Z.pos m) (2 ^ (- e))
  end.

#[global] Instance b64_float : PyFloat float := {|
  of_int := b64_of_int;
  f0 := 0%float;
  f1 := 1%float;
  f2 := 2%float;
  fadd := PrimFloat.add;
  fmul := PrimFloat.mul;
  fdiv a b := if is_zero b then Raise ZeroDivisionError else Ok (a / b)%float;
  fle := PrimFloat.leb;
  format6 := b64_format6;
|}.

(** ** [convert_box] *)

Section Convert.
Context {F : Type} `{PyFloat F}.

(** [convert_box(size, box)]: [size] is [(width, height)], [box] is
    [(x1, y1, w, h)]; every operand that is an [int] is converted where
    Python converts it, in evaluation order. *)
Definition convert_box (size : Z * Z) (box : Z * Z * Z * Z) : result (F * F * F * F) :=
  let '(x1, y1, w, h) := box in
  sw ← of_int size.1; dw ← fdiv f1 sw;
  sh ← of_int size.2; dh ← fdiv f1 sh;
  bw ← of_int w; hw ← fdiv bw f2; bx ← of_int x1;
  let center_x := fmul (fadd bx hw) dw in
  bh ← of_int h; hh ← fdiv bh f2; by_ ← of_int y1;
  let center_y := fmul (fadd by_ hh) dh in
  bw' ← of_int w;
  let width := fmul bw' dw in
  bh' ← of_int h;
  let height := fmul bh' dh in
  Ok (center_x, center_y, width, height).
End Convert.

(** ** Text: the [str] methods and builtins the converter calls *)

(** A [string] is a Python [str] whose code points are below 256. *)
Definition code (c : ascii) : N := N_of_ascii c.

Definition one_of (l : list N) (c : ascii) : bool :=
  existsb (N.eqb (code c)) l.

(** [str.isspace]: what [str.strip] removes. *)
Definition is_space : ascii → bool :=
  one_of [9; 10; 11; 12; 13; 28; 29; 30; 31; 32; 133; 160]%N.

(** The line boundaries of [str.splitlines]. *)
Definition is_linebreak : ascii → bool :=
  one_of [10; 11; 12; 13; 28; 29; 30; 133]%N.

(** The white space [int] accepts around a number. *)
Definition is_int_space : ascii → bool :=
  one_of [9; 10; 11; 12; 13; 32; 133; 160]%N.

Definition is_digit (c : ascii) : bool :=
  (48 <=? code c)%N && (code c <=? 57)%N.

Definition digit_value (c : ascii) : Z := Z.of_N (code c) - 48.

Fixpoint lstrip_by (p : ascii → bool) (s : string) : string :=
  match s with
  | String c s' => if p c then lstrip_by p s' else s
  | EmptyString => EmptyString
  end.

Fixpoint rstrip_by (p : ascii → bool) (s : string) : string :=
  match s with
  | String c s' =>
      match rstrip_by p s' with
      | EmptyString => if p c then EmptyString else String c EmptyString
      | r => String c r
      end
  | EmptyString => EmptyString
  end.

(** [s.strip()] *)
Definition strip (s : string) : string := rstrip_by is_space (lstrip_by is_space s).

(** [s.splitlines()]: [cur] holds the current line, last character first;
    [after_cr] says that the previous character was a carriage return, whose
    line has been closed, so that a line feed now belongs to that break. *)
Fixpoint splitlines_go (after_cr : bool) (cur : string) (s : string) : list string :=
  match s with
  | EmptyString =>
      match cur with
      | EmptyString => []
      | _ => [String.rev cur]
      end
  | String c s' =>
      if after_cr && (code c =? 10)%N then splitlines_go false cur s'
      else if is_linebreak c then String.rev cur :: splitlines_go (code c =? 13)%N EmptyString s'
      else splitlines_go false (String c cur) s'
  end.

Definition splitlines (s : string) : list string := splitlines_go false EmptyString s.

(** [s.split(sep)] for a one-character separator: never empty. *)
Fixpoint split_go (sep : ascii) (cur : string) (s : string) : list string :=
  match s with
  | EmptyString => [String.rev cur]
  | String c s' =>
      if (code c =? code sep)%N then String.rev cur :: split_go sep EmptyString s'
      else split_go sep (String c cur) s'
  end.

Definition split (sep : ascii) (s : string) : list string := split_go sep EmptyString s.

(** The digits of a decimal literal after its sign: a digit, then digits each
    optionally preceded by one underscore. [acc] is the value so far, [n] the
    number of digits read. *)
Fixpoint int_digits (acc : Z) (n : nat) (s : string) : option (Z * nat) :=
  match s with
  | EmptyString => Some (acc, n)
  | String c s' =>
      if is_digit c then int_digits (10 * acc + digit_value c) (S n) s'
      else if (code c =? 95)%N then
        match s' with
        | String d s'' =>
            if is_digit d then int_digits (10 * acc + digit_value d) (S n) s'' else None
        | EmptyString => None
        end
      else None
  end.

(** CPython's default limit on the digits of a decimal string (3.11 on). *)
Definition int_max_str_digits : nat := 4300.

Definition int_unsigned (s : string) : result Z :=
  match s with
  | String c s' =>
      if is_digit c then
        match int_digits (digit_value c) 1 s' with
        | Some (v, n) => if bool_decide (n ≤ int_max_str_digits)%nat then Ok v else Raise ValueError
        | None => Raise ValueError
        end
      else Raise ValueError
  | EmptyString => Raise ValueError
  end.

(** [int(s)] for a [str]: base 10, surrounding white space and a sign
    allowed, [ValueError] otherwise. *)
Definition py_int (s : string) : result Z :=
  match rstrip_by is_int_space (lstrip_by is_int_space s) with
  | String c s' =>
      if (code c =? 45)%N then v ← int_unsigned s'; Ok (- v)
      else if (code c =? 43)%N then int_unsigned s'
      else int_unsigned (String c s')
  | EmptyString => Raise ValueError
  end.

(** [row[i]] *)
Definition index (row : list string) (i : nat) : result string :=
  match row !! i with
  | Some x => Ok x
  | None => Raise IndexError
  end.

(** ** The row loop of [visdrone2yolo] *)

Definition newline : string := String (ascii_of_nat 10) EmptyString.

(** [' '.join(l)] *)
Definition join_space (l : list string) : string := String.concat " " l.

Section Rows.
Context {F : Type} `{PyFloat F}.

(** [0 <= x <= 1] *)
Definition in_unit (x : F) : bool := fle f0 x && fle x f1.

(** [f"{cls} {' '.join(f'{x:.6f}' for x in box)}\n"] *)
Definition yolo_line (cls : Z) (box : F * F * F * F) : string :=
  let '(cx, cy, nw, nh) := box in
  str_int cls +:+ " " +:+ join_space [format6 cx; format6 cy; format6 nw; format6 nh]
    +:+ newline.

(** The body of the loop over rows: [Ok None] is [continue] (or a failed
    range check), [Ok (Some l)] is [lines.append(l)], [Raise e] leaves the
    loop. *)
Definition convert_row (img_size : Z * Z) (row : list string) : result (option string) :=
  if bool_decide (length row < 8)%nat then Ok None else
  category ← index row 5;
  if String.eqb category "0" then Ok None else
  score ← index row 4;
  if String.eqb score "0" then Ok None else
  c ← py_int category;
  let cls := c - 1 in
  if (cls <? 0) || (9 <? cls) then Ok None else
  ints ← map_result py_int (take 4 row);
  match ints with
  | [x1; y1; w; h] =>
      box ← convert_box img_size (x1, y1, w, h);
      let '(cx, cy, nw, nh) := box in
      if in_unit cx && in_unit cy && in_unit nw && in_unit nh
      then Ok (Some (yolo_line cls box))
      else Ok None
  | _ => Raise IndexError
  end.

(** The record a row contributes: its serialisation if it is accepted. *)
Definition accepted (img_size : Z * Z) (row : list string) : option string :=
  match convert_row img_size row with
  | Ok o => o
  | Raise _ => None
  end.

(** [for row in rows: ...] with the list [lines] it appends to. *)
Fixpoint convert_rows (img_size : Z * Z) (rows : list (list string)) (lines : list string)
  : result (list string) :=
  match rows with
  | [] => Ok lines
  | row :: rows' =>
      r ← convert_row img_size row;
      convert_rows img_size rows'
        match r with
        | Some l => lines ++ [l]
        | None => lines
        end
  end.

(** [[x.split(',') for x in text.strip().splitlines()]] *)
Definition rows_of (text : string) : list (list string) :=
  map (split ",") (splitlines (strip text)).

(** The [try] block of one annotation file, from [lines = []] on: [opened]
    is what [open(f, 'r')] and [file.read()] give. *)
Definition annotation_lines (img_size : Z * Z) (opened : result string) : result (list string) :=
  text ← opened;
  convert_rows img_size (rows_of text) [].
End Rows.

(** ** The directory loop *)

(** A sequence of file writes, applied to a directory. *)
Definition apply_writes (l : list (string * string)) (m : gmap string string)
    : gmap string string :=
  foldl (λ m kv, <[kv.1 := kv.2]> m) m l.

(** What the converter prints. *)
Inductive message : Set :=
  | ImageNotFound (img ann : string)
  | ImageOpenError (img : string) (e : exn) (ann : string)
  | AnnotationError (ann : string) (e : exn).

(** One split of the dataset as the converter reads it: the annotation files
    that [glob('*.txt')] yields, in its order, each with what opening and
    reading it gives; and the files of [images/split], each with what
    [Image.open(...).size] gives. *)
Record split_dir : Type := {
  annotation_files : list (string * result string);
  image_files : gmap string (result (Z * Z));
}.

(** What a run changes: the files of [labels/split], and the output. *)
Record world : Type := {
  labels : gmap string string;
  stdout : list message;
}.

Definition print (m : message) (w : world) : world :=
  {| labels := labels w; stdout := stdout w ++ [m] |}.

(** [open(label_path, 'w')] and [fl.writelines(lines)], for a labels
    directory that can be written to. Line 116 is outside every [try]: an
    [open] that fails would leave the loop, a case this model leaves out. *)
Definition write_lines (name : string) (lines : list string) (w : world) : world :=
  {| labels := <[name := String.concat "" lines]> (labels w); stdout := stdout w |}.

(** [f.name.with_suffix('.jpg')] as written: [f.name] is a [str], and [str]
    has no attribute [with_suffix]. *)
Definition str_with_suffix (name suffix : string) : result string :=
  Raise AttributeError.

Section Driver.
Context {F : Type} `{PyFloat F}.

(** How the image's file name is computed from the annotation's. *)
Variable with_suffix : string → string → result string.

(** The body of the loop over files after the image path is known; a
    [continue] returns the world as it is. *)
Definition convert_annotation (d : split_dir) (img : string) (f : string * result string)
    (w : world) : world :=
  match image_files d !! img with
  | None => print (ImageNotFound img f.1) w
  | Some (Raise e) => print (ImageOpenError img e f.1) w
  | Some (Ok img_size) =>
      match annotation_lines img_size f.2 with
      | Raise e => print (AnnotationError f.1 e) w
      | Ok [] => w
      | Ok lines => write_lines f.1 lines w
      end
  end.

(** [for f in pbar: ...]; an exception of the image path's computation is
    not caught. *)
Fixpoint convert_files (d : split_dir) (files : list (string * result string)) (w : world)
  : world * result unit :=
  match files with
  | [] => (w, Ok ())
  | f :: files' =>
      match with_suffix f.1 ".jpg" with
      | Raise e => (w, Raise e)
      | Ok img => convert_files d files' (convert_annotation d img f w)
      end
  end.

(** [visdrone2yolo(annotations_dir)]: [dir] is [labels/split] before the
    run, [None] when it does not exist yet. *)
Definition visdrone2yolo_with (d : split_dir) (dir : option (gmap string string))
    (out : list message) : world * result unit :=
  convert_files d (annotation_files d) {| labels := default ∅ dir; stdout := out |}.

(** What one annotation file makes the loop write, if anything. *)
Definition file_output (d : split_dir) (img : string) (f : string * result string)
    : option string :=
  match image_files d !! img with
  | Some (Ok size) =>
      match annotation_lines size f.2 with
      | Ok (l :: ls) => Some (String.concat "" (l :: ls))
      | _ => None
      end
  | _ => None
  end.

(** What one annotation file makes the loop print. *)
Definition file_messages (d : split_dir) (img : string) (f : string * result string)
    : list message :=
  match image_files d !! img with
  | None => [ImageNotFound img f.1]
  | Some (Raise e) => [ImageOpenError img e f.1]
  | Some (Ok size) =>
      match annotation_lines size f.2 with
      | Raise e => [AnnotationError f.1 e]
      | Ok _ => []
      end
  end.

(** The writes and the messages of a run, and how it ends. *)
Fixpoint run_writes (d : split_dir) (files : list (string * result string)) : list (string * string) :=
  match files with
  | [] => []
  | f :: files' =>
      match with_suffix f.1 ".jpg" with
      | Raise _ => []
      | Ok img => option_list ((f.1 ,.) <$> file_output d img f) ++ run_writes d files'
      end
  end.

Fixpoint run_messages (d : split_dir) (files : list (string * result string)) : list message :=
  match files with
  | [] => []
  | f :: files' =>
      match with_suffix f.1 ".jpg" with
      | Raise _ => []
      | Ok img => file_messages d img f ++ run_messages d files'
      end
  end.

Fixpoint run_outcome (files : list (string * result string)) : result unit :=
  match files with
  | [] => Ok ()
  | f :: files' =>
      match with_suffix f.1 ".jpg" with
      | Raise e => Raise e
      | Ok _ => run_outcome files'
      end
  end.
End Driver.

(** The converter as written, on binary64. *)
Definition visdrone2yolo : split_dir → option (gmap string string) → list message
    → world * result unit :=
  visdrone2yolo_with (F:=float) str_with_suffix.

(** ** The numbers binary64 values stand for *)

(** Where a number lies between two neighbours: exactly on the lower one,
    or below, at, or above the middle. [r / d] is its distance to the lower
    neighbour, in units of the distance between the two. *)
Definition loc (r d : Z) : location :=
  if r =? 0 then loc_Exact else loc_Inexact (2 * r ?= d).

(** The unit roundoff of binary64, [2^-53]. *)
Definition b64_u : Q := 1 # 9007199254740992.

(** [2^e] for an exponent of either sign. *)
Definition pow2 (e : Z) : Q := (2 ^ e)%Q.

(** The number a mantissa and an exponent stand for. *)
Definition fval (m : positive) (e : Z) : Q := (inject_Z (Z.pos m) * pow2 e)%Q.

(** [v] is [q] up to one rounding to nearest: a relative error of at most
    [b64_u]. *)
Definition rounded (q v : Q) : Prop := (q * (1 - b64_u) <= v <= q * (1 + b64_u))%Q.

(** The binary64 mantissa of a positive integer of at most 53 digits. *)
Definition int_mantissa (p : positive) : positive :=
  Z.to_pos (Z.pos p * 2 ^ (53 - Z.pos (digits2_pos p))).

(** The rational number a binary64 value is, if it is finite. *)
Definition SF_value (f : spec_float) : option Q :=
  match f with
  | S754_zero _ => Some 0%Q
  | S754_finite s m e => Some (if s then - fval m e else fval m e)%Q
  | _ => None
  end.

Definition b64_value (f : float) : option Q := SF_value (Prim2SF f).

(** [v] is [q] up to two roundings to nearest. *)
Definition rounded_twice (q v : Q) : Prop :=
  (q * ((1 - b64_u) * (1 - b64_u)) <= v <= q * ((1 + b64_u) * (1 + b64_u)))%Q.

(** [f] is exactly the number [q], which is zero, or at least [2^-1] and
    below [2^53]: what [float(n)] and [n + m / 2.0] are for the integers
    [convert_box] is given. *)
Definition b64_exact (f : float) (q : Q) : Prop :=
  (Prim2SF f = S754_zero false ∧ (q == 0)%Q) ∨
  ∃ (m : positive) (e : Z),
    Prim2SF f = S754_finite false m e ∧ Z.pos (digits2_pos m) = 53 ∧
    -53 ≤ e ≤ 0 ∧ (fval m e == q)%Q.

(** ** The script: the [__main__] block of [visdrone2yolo.py] *)

(** The splits the script goes through, in its order. *)
Definition splits : list string := ["train"; "val"; "test"].

(** What a run of the script changes: the directories [labels/<split>] that
    exist, each with its files, and the output. *)
Record root_world : Type := {
  label_dirs : gmap string (gmap string string);
  root_stdout : list message;
}.

Section Main.
Context {F : Type} `{PyFloat F}.
Variable with_suffix : string → string → result string.

(** [for split in [...]: if annotations_dir.exists(): visdrone2yolo(...)]:
    [root] holds [annotations/<split>] and [images/<split>] for the splits
    whose annotations directory exists; an exception of [visdrone2yolo] is
    not caught. *)
Fixpoint convert_splits (root : gmap string split_dir) (todo : list string) (w : root_world)
  : root_world * result unit :=
  match todo with
  | [] => (w, Ok ())
  | split :: todo' =>
      match root !! split with
      | None => convert_splits root todo' w
      | Some d =>
          let r := visdrone2yolo_with with_suffix d (label_dirs w !! split) (root_stdout w) in
          let w' := {| label_dirs := <[split := labels r.1]> (label_dirs w);
                       root_stdout := stdout r.1 |} in
          match r.2 with
          | Raise e => (w', Raise e)
          | Ok _ => convert_splits root todo' w'
          end
      end
  end.

Definition main_with (root : gmap string split_dir) (w : root_world)
    : root_world * result unit :=
  convert_splits root splits w.
End Main.

(** The script as written, on binary64. *)
Definition main : gmap string split_dir → root_world → root_world * result unit :=
  main_with (F:=float) str_with_suffix.

(** ** [count_classes] of [data_visualization.py], which reads the label files *)

Definition CLASS_NAMES : list string :=
  ["pedestrian"; "people"; "bicycle"; "car"; "van"; "truck"; "tricycle";
   "awning-tricycle"; "bus"; "motor"].

(** [s.split()]: the maximal runs of characters that are not white space. *)
Fixpoint split_ws_go (cur : string) (s : string) : list string :=
  match s with
  | EmptyString =>
      match cur with
      | EmptyString => []
      | _ => [String.rev cur]
      end
  | String c s' =>
      if is_space c then
        match cur with
        | EmptyString => split_ws_go EmptyString s'
        | _ => String.rev cur :: split_ws_go EmptyString s'
        end
      else split_ws_go (String c cur) s'
  end.

Definition split_ws (s : string) : list string := split_ws_go EmptyString s.

(** [f.readlines()] on the text of a file: every line keeps its line feed;
    the text after the last line feed is a line if it is not empty. *)
Fixpoint readlines_go (cur : string) (s : string) : list string :=
  match s with
  | EmptyString =>
      match cur with
      | EmptyString => []
      | _ => [String.rev cur]
      end
  | String c s' =>
      if (code c =? 10)%N then String.rev (String c cur) :: readlines_go EmptyString s'
      else readlines_go (String c cur) s'
  end.

Definition readlines (s : string) : list string := readlines_go EmptyString s.

(** The exceptions of the counting loop: those of the builtins, and the
    [KeyError] of a dictionary. *)
Inductive count_exn : Set :=
  | Builtin (e : exn)
  | KeyError.

(** The two values [count_classes] builds: the dictionary [class_counts] and
    [total_objects]. *)
Record counts : Type := {
  class_counts : gmap Z Z;
  total_objects : Z;
}.

(** [{i: 0 for i in range(len(CLASS_NAMES))}] *)
Definition zero_counts : gmap Z Z :=
  list_to_map ((λ i, (i, 0)) <$> seqZ 0 (Z.of_nat (length CLASS_NAMES))).

(** The body of the loop over the lines of a label file: [inr] is the state
    after the line, [inl] the exception it raises, the state being then as it
    was before the line. *)
Definition count_line (line : string) (st : counts) : count_exn + counts :=
  let line := strip line in
  if String.eqb line "" then inr st else
  match index (split_ws line) 0 with
  | Raise e => inl (Builtin e)
  | Ok field =>
      match py_int field with
      | Raise e => inl (Builtin e)
      | Ok cls =>
          if (0 <=? cls) && (cls <? Z.of_nat (length CLASS_NAMES)) then
            match class_counts st !! cls with
            | None => inl KeyError
            | Some n =>
                inr {| class_counts := <[cls := n + 1]> (class_counts st);
                       total_objects := total_objects st + 1 |}
            end
          else inr st
      end
  end.

(** [for line in lines: ...]: an exception leaves the loop, and what the
    earlier lines have added stays. *)
Fixpoint count_lines (lines : list string) (st : counts) : counts * option count_exn :=
  match lines with
  | [] => (st, None)
  | line :: lines' =>
      match count_line line st with
      | inl e => (st, Some e)
      | inr st' => count_lines lines' st'
      end
  end.

(** What [count_classes] prints: [Error processing <file>: <e>]. *)
Inductive count_message : Set :=
  | CountError (file : string) (e : count_exn).

(** [for label_file in pbar: ...]: [files] are the label files [glob] yields,
    each with what opening and reading it gives. *)
Fixpoint count_files (files : list (string * result string)) (st : counts)
    (out : list count_message) : counts * list count_message :=
  match files with
  | [] => (st, out)
  | f :: files' =>
      match f.2 with
      | Raise e => count_files files' st (out ++ [CountError f.1 (Builtin e)])
      | Ok text =>
          match count_lines (readlines text) st with
          | (st', Some e) => count_files files' st' (out ++ [CountError f.1 e])
          | (st', None) => count_files files' st' out
          end
      end
  end.

(** [count_classes(label_dir)] *)
Definition count_classes (files : list (string * result string))
    : counts * list count_message :=
  count_files files {| class_counts := zero_counts; total_objects := 0 |} [].

(** The sum of the counts of the classes [0 .. len(CLASS_NAMES) - 1]. *)
Definition sum_counts (m : gmap Z Z) : Z :=
  foldr Z.add 0 ((λ i, default 0 (m !! i)) <$> seqZ 0 (Z.of_nat (length CLASS_NAMES))).

(** Whether a character satisfying [p] occurs in [s]. *)
Fixpoint has_char (p : ascii → bool) (s : string) : bool :=
  match s with
  | EmptyString => false
  | String c s' => p c || has_char p s'
  end.

(** The line feed, at which [readlines] cuts. *)
Definition is_lf (c : ascii) : bool := (code c =? 10)%N.

(** Adding one object of class [cls]. *)
Definition bump (cls : Z) (st : counts) : counts :=
  {| class_counts := <[cls := default 0 (class_counts st !! cls) + 1]> (class_counts st);
     total_objects := total_objects st + 1 |}.

(** What the counting loop keeps true of its two values: the dictionary has
    the keys [0 .. len(CLASS_NAMES) - 1] and no other, no count is negative,
    and the total is the sum of the counts. *)
Definition counts_ok (st : counts) : Prop :=
  (∀ i, is_Some (class_counts st !! i) ↔ 0 ≤ i < Z.of_nat (length CLASS_NAMES)) ∧
  (∀ i n, class_counts st !! i = Some n → 0 ≤ n) ∧
  total_objects st = sum_counts (class_counts st).

(** The characters of a printed number: digits, sign, point, and the letters
    of [nan] and [inf]. *)
Definition number_char (c : ascii) : bool :=
  is_digit c || one_of [45; 46; 97; 102; 105; 110]%N c.


(** ** [analyze_box_sizes] of [data_visualization.py] *)

Section BoxSizes.
Context {F : Type}.

(** [float(s)] for a [str], which raises [ValueError] on what is not a
    number: the loop below is the same whatever [float] accepts. *)
Variable py_float : string → result F.

(** The two values [analyze_box_sizes] builds: the list [box_sizes] and the
    dictionary [class_sizes]. *)
Record sizes : Type := {
  box_sizes : list (F * F);
  class_sizes : gmap Z (list (F * F));
}.

(** [{i: [] for i in range(len(CLASS_NAMES))}] *)
Definition no_sizes : gmap Z (list (F * F)) :=
  list_to_map ((λ i, (i, [])) <$> seqZ 0 (Z.of_nat (length CLASS_NAMES))).

(** The body of the loop over the lines of a label file: the state after the
    line and the exception the line raises, if any. The pair is appended to
    [box_sizes] before [class_sizes] is looked up. *)
Definition size_line (line : string) (st : sizes) : sizes * option count_exn :=
  let line := strip line in
  if String.eqb line "" then (st, None) else
  let parts := split_ws line in
  match index parts 0 ≫= py_int with
  | Raise e => (st, Some (Builtin e))
  | Ok cls =>
      if (0 <=? cls) && (cls <? Z.of_nat (length CLASS_NAMES)) then
        match index parts 3 ≫= py_float with
        | Raise e => (st, Some (Builtin e))
        | Ok width =>
            match index parts 4 ≫= py_float with
            | Raise e => (st, Some (Builtin e))
            | Ok height =>
                let boxes := box_sizes st ++ [(width, height)] in
                match class_sizes st !! cls with
                | None => ({| box_sizes := boxes; class_sizes := class_sizes st |},
                           Some KeyError)
                | Some l =>
                    ({| box_sizes := boxes;
                        class_sizes := <[cls := l ++ [(width, height)]]> (class_sizes st) |},
                     None)
                end
            end
        end
      else (st, None)
  end.

Fixpoint size_lines (lines : list string) (st : sizes) : sizes * option count_exn :=
  match lines with
  | [] => (st, None)
  | line :: lines' =>
      match size_line line st with
      | (st', Some e) => (st', Some e)
      | (st', None) => size_lines lines' st'
      end
  end.

Fixpoint size_files (files : list (string * result string)) (st : sizes)
    (out : list count_message) : sizes * list count_message :=
  match files with
  | [] => (st, out)
  | f :: files' =>
      match f.2 with
      | Raise e => size_files files' st (out ++ [CountError f.1 (Builtin e)])
      | Ok text =>
          match size_lines (readlines text) st with
          | (st', Some e) => size_files files' st' (out ++ [CountError f.1 e])
          | (st', None) => size_files files' st' out
          end
      end
  end.

(** [analyze_box_sizes(label_dir)] *)
Definition analyze_box_sizes (files : list (string * result string))
    : sizes * list count_message :=
  size_files files {| box_sizes := []; class_sizes := no_sizes |} [].

(** The number of pairs in the lists of the classes. *)
Definition sum_sizes (m : gmap Z (list (F * F))) : Z :=
  foldr Z.add 0
    ((λ i, Z.of_nat (length (default [] (m !! i)))) <$> seqZ 0 (Z.of_nat (length CLASS_NAMES))).

(** What the loop keeps true: the dictionary has the keys of the classes and
    its lists hold, together, as many pairs as [box_sizes]. *)
Definition sizes_ok (st : sizes) : Prop :=
  (∀ i, is_Some (class_sizes st !! i) ↔ 0 ≤ i < Z.of_nat (length CLASS_NAMES)) ∧
  (∀ i l, class_sizes st !! i = Some l → l `sublist_of` box_sizes st) ∧
  Z.of_nat (length (box_sizes st)) = sum_sizes (class_sizes st).
End BoxSizes.
Arguments sizes F : clear implicits.


(** A number between 0 and 1 printed with six decimals: [n] millionths. The
    sign is that of a negative zero. *)
Definition unit_decimal (s : string) : Prop :=
  ∃ (neg : bool) (n : Z),
    0 ≤ n ≤ 1000000 ∧ (neg = true → n = 0) ∧
    s = (if neg then "-" else "") +:+ str_int (n / 1000000) +:+ "."
        +:+ digits_fixed 6 (n mod 1000000).

(** * Properties *)

(** ** Facts about [result] and the text functions *)

Lemma bind_Ok {A B} (m : result A) (k : A → result B) (b : B) :
  (m ≫= k) = Ok b → ∃ a, m = Ok a ∧ k a = Ok b.
Proof. destruct m as [a|e]; [eauto | discriminate]. Qed.

Lemma index_Ok (row : list string) (i : nat) (x : string) :
  index row i = Ok x ↔ row !! i = Some x.
Proof. unfold index. destruct (row !! i); split; congruence. Qed.

Lemma index_lt (row : list string) (i : nat) :
  (i < length row)%nat → ∃ x, index row i = Ok x ∧ row !! i = Some x.
Proof.
  intros [x Hx]%lookup_lt_is_Some. exists x. by rewrite index_Ok.
Qed.

Lemma eqb_false_ne (s t : string) : String.eqb s t = false ↔ s ≠ t.
Proof. apply String.eqb_neq. Qed.

(** Destructs the first test or bind of a [result] computation in [H]. *)
Ltac step_test H E :=
  match type of H with
  | (if bool_decide ?P then _ else _) = _ =>
      destruct (bool_decide_reflect P) as [E|E]; [try discriminate H|]
  | (if ?b then _ else _) = _ => destruct b eqn:E; [try discriminate H|]
  end.

Ltac step_bind H a E := apply bind_Ok in H as (a & E & H).

(** ** Facts about the row loop *)

Section RowFacts.
Context {F : Type} `{PyFloat F}.
Implicit Types (size : Z * Z) (row : list string) (rows : list (list string)).
Implicit Types (lines : list string).

(** Everything the code has checked when a row is appended. *)
Lemma convert_row_Some size row l :
  convert_row size row = Ok (Some l) →
  ∃ category score c x1 y1 w h cx cy nw nh,
    (8 ≤ length row)%nat ∧
    row !! 5%nat = Some category ∧ category ≠ "0" ∧
    row !! 4%nat = Some score ∧ score ≠ "0" ∧
    py_int category = Ok c ∧ 0 ≤ c - 1 ≤ 9 ∧
    map_result py_int (take 4 row) = Ok [x1; y1; w; h] ∧
    convert_box size (x1, y1, w, h) = Ok (cx, cy, nw, nh) ∧
    in_unit cx = true ∧ in_unit cy = true ∧ in_unit nw = true ∧ in_unit nh = true ∧
    l = yolo_line (c - 1) (cx, cy, nw, nh).
Proof.
  unfold convert_row. intros Hr.
  step_test Hr Hlen.
  step_bind Hr category H5. step_test Hr Hc.
  step_bind Hr score H4. step_test Hr Hs.
  step_bind Hr c Hint. step_test Hr Hcls.
  step_bind Hr ints Hints.
  destruct ints as [|x1 [|y1 [|w [|h [|]]]]]; try discriminate Hr.
  step_bind Hr box Hbox. destruct box as [[[cx cy] nw] nh].
  destruct (in_unit cx) eqn:?, (in_unit cy) eqn:?, (in_unit nw) eqn:?,
    (in_unit nh) eqn:?; try discriminate Hr.
  simpl in Hr. injection Hr as <-.
  apply index_Ok in H5, H4. apply eqb_false_ne in Hc, Hs.
  apply orb_false_elim in Hcls as [?%Z.ltb_ge ?%Z.ltb_ge].
  exists category, score, c, x1, y1, w, h, cx, cy, nw, nh.
  repeat split; auto; lia.
Qed.

(** What the code does with a row that gets as far as the range check. *)
Lemma convert_row_checked size row category score c x1 y1 w h cx cy nw nh :
  (8 ≤ length row)%nat →
  row !! 5%nat = Some category → category ≠ "0" →
  row !! 4%nat = Some score → score ≠ "0" →
  py_int category = Ok c → 0 ≤ c - 1 ≤ 9 →
  map_result py_int (take 4 row) = Ok [x1; y1; w; h] →
  convert_box size (x1, y1, w, h) = Ok (cx, cy, nw, nh) →
  convert_row size row =
    if in_unit cx && in_unit cy && in_unit nw && in_unit nh
    then Ok (Some (yolo_line (c - 1) (cx, cy, nw, nh)))
    else Ok None.
Proof.
  intros Hlen H5%index_Ok Hc H4%index_Ok Hs Hint Hcls Hints Hbox.
  unfold convert_row.
  rewrite bool_decide_false by lia.
  rewrite H5. cbn [mbind result_bind].
  apply eqb_false_ne in Hc, Hs. rewrite Hc, H4. cbn [mbind result_bind].
  rewrite Hs, Hint. cbn [mbind result_bind].
  replace ((c - 1 <? 0) || (9 <? c - 1)) with false
    by (symmetry; apply orb_false_intro; apply Z.ltb_ge; lia).
  rewrite Hints. cbn [mbind result_bind]. rewrite Hbox. reflexivity.
Qed.

(** A row whose category is [0], as text or as a number, or whose score is
    the text [0], is passed over. *)
Lemma convert_row_zero size row :
  (∃ category, row !! 5%nat = Some category ∧ py_int category = Ok 0)
    ∨ row !! 4%nat = Some "0" →
  convert_row size row = Ok None.
Proof.
  intros Hz. unfold convert_row.
  case_bool_decide as Hlen; [done|].
  destruct (index_lt row 5) as (category & -> & H5); [lia|].
  destruct (index_lt row 4) as (score & -> & H4); [lia|].
  cbn [mbind result_bind].
  destruct (String.eqb category "0") eqn:Ec; [done|].
  destruct (String.eqb score "0") eqn:Es; [done|].
  destruct Hz as [(cat' & Hc & Hint) | Hs].
  - assert (cat' = category) as -> by congruence.
    rewrite Hint. reflexivity.
  - apply eqb_false_ne in Es. congruence.
Qed.

(** A row whose remapped class is outside [0..9] is passed over. *)
Lemma convert_row_class_range size row category c :
  row !! 5%nat = Some category → py_int category = Ok c →
  c - 1 < 0 ∨ 9 < c - 1 →
  convert_row size row = Ok None.
Proof.
  intros H5 Hint Hc. unfold convert_row.
  case_bool_decide as Hlen; [done|].
  apply index_Ok in H5. rewrite H5.
  destruct (index_lt row 4) as (score & -> & H4); [lia|].
  cbn [mbind result_bind].
  destruct (String.eqb category "0"); [done|].
  destruct (String.eqb score "0"); [done|].
  rewrite Hint. cbn [mbind result_bind].
  replace ((c - 1 <? 0) || (9 <? c - 1)) with true; [done|].
  symmetry. apply orb_true_iff. rewrite !Z.ltb_lt. done.
Qed.

(** The loop appends, in order, what each row contributes. *)
Lemma convert_rows_Ok size rows lines out :
  convert_rows size rows lines = Ok out →
  out = lines ++ omap (accepted size) rows ∧
  Forall (λ row, ∃ o, convert_row size row = Ok o) rows.
Proof.
  revert lines. induction rows as [|row rows IH]; intros lines Hr; simpl in Hr.
  - injection Hr as <-. by rewrite app_nil_r.
  - apply bind_Ok in Hr as (o & Ho & Hr). apply IH in Hr as [-> Hall].
    split; [|constructor; eauto].
    simpl. unfold accepted at 2. rewrite Ho.
    destruct o; [by rewrite <- app_assoc | done].
Qed.

(** An exception in a row leaves the loop with it. *)
Lemma convert_rows_Raise size rows1 row rows2 lines e :
  Forall (λ row, ∃ o, convert_row size row = Ok o) rows1 →
  convert_row size row = Raise e →
  convert_rows size (rows1 ++ row :: rows2) lines = Raise e.
Proof.
  intros Hall Hrow. revert lines.
  induction Hall as [|r rows1 [o Ho] _ IH]; intros lines; simpl.
  - by rewrite Hrow.
  - rewrite Ho. cbn [mbind result_bind]. apply IH.
Qed.

Lemma convert_rows_Raise_any size rows row lines e :
  row ∈ rows → convert_row size row = Raise e →
  ∃ e', convert_rows size rows lines = Raise e'.
Proof.
  intros Hin Hrow. revert lines.
  induction rows as [|r rows IH]; intros lines; [by apply elem_of_nil in Hin|].
  simpl. destruct (convert_row size r) as [o|e'] eqn:Hr; [|by eauto].
  cbn [mbind result_bind]. apply elem_of_cons in Hin as [->|Hin]; [congruence|].
  by apply IH.
Qed.

(** A row that is passed over changes nothing for the other rows. *)
Lemma convert_rows_skip size rows1 row rows2 lines :
  convert_row size row = Ok None →
  convert_rows size (rows1 ++ row :: rows2) lines =
  convert_rows size (rows1 ++ rows2) lines.
Proof.
  intros Hrow. revert lines.
  induction rows1 as [|r rows1 IH]; intros lines; simpl.
  - by rewrite Hrow.
  - destruct (convert_row size r) as [o|e]; [|done]. cbn [mbind result_bind]. apply IH.
Qed.

Lemma convert_row_short size row :
  (length row < 8)%nat → convert_row size row = Ok None.
Proof. intros Hlen. unfold convert_row. by rewrite bool_decide_true. Qed.
End RowFacts.

(** ** Facts about the directory loop *)

Lemma apply_writes_snoc l k v m :
  apply_writes (l ++ [(k, v)]) m = <[k := v]> (apply_writes l m).
Proof. unfold apply_writes. by rewrite foldl_app. Qed.

Lemma apply_writes_app l1 l2 m :
  apply_writes (l1 ++ l2) m = apply_writes l2 (apply_writes l1 m).
Proof. unfold apply_writes. by rewrite foldl_app. Qed.

(** Writing [k] before a sequence of writes is forgotten once [k] is written
    after it. *)
Lemma insert_apply_writes_insert l k v v' m :
  <[k := v]> (apply_writes l (<[k := v']> m)) = <[k := v]> (apply_writes l m).
Proof.
  revert m. induction l as [|[k' u] l IH]; intros m; simpl.
  - apply insert_insert_eq.
  - destruct (decide (k = k')) as [<-|Hne].
    + by rewrite insert_insert_eq.
    + rewrite (insert_insert_ne m k' k) by done. apply IH.
Qed.

(** Applying the same writes a second time changes nothing. *)
Lemma apply_writes_idemp l m :
  apply_writes l (apply_writes l m) = apply_writes l m.
Proof.
  induction l as [|[k v] l IH] using rev_ind; [done|].
  rewrite !apply_writes_snoc, insert_apply_writes_insert. by rewrite IH.
Qed.

Section DriverFacts.
Context {F : Type} `{PyFloat F}.
Variable with_suffix : string → string → result string.
Implicit Types (d : split_dir) (f : string * result string) (w : world).

Lemma convert_annotation_eq d img f w :
  convert_annotation d img f w =
  {| labels := apply_writes (option_list ((f.1 ,.) <$> file_output d img f)) (labels w);
     stdout := stdout w ++ file_messages d img f |}.
Proof.
  unfold convert_annotation, file_output, file_messages.
  destruct (image_files d !! img) as [[size|e]|]; [|reflexivity..].
  destruct (annotation_lines size f.2) as [[|l ls]|e]; [..|reflexivity].
  all: destruct w; unfold write_lines; simpl; by rewrite app_nil_r.
Qed.

Lemma convert_files_eq d files w :
  convert_files with_suffix d files w =
  ({| labels := apply_writes (run_writes with_suffix d files) (labels w);
      stdout := stdout w ++ run_messages with_suffix d files |},
   run_outcome with_suffix files).
Proof.
  revert w. induction files as [|f files IH]; intros w; simpl.
  - destruct w. simpl. by rewrite app_nil_r.
  - destruct (with_suffix f.1 ".jpg") as [img|e].
    + rewrite IH, convert_annotation_eq. simpl.
      by rewrite apply_writes_app, <- app_assoc.
    + destruct w. simpl. by rewrite app_nil_r.
Qed.

(** A second run over the same input, started on the output of the first,
    ends as the first did. *)
Lemma visdrone2yolo_with_rerun d dir out :
  visdrone2yolo_with with_suffix d (Some (labels (visdrone2yolo_with with_suffix d dir out).1)) out
  = visdrone2yolo_with with_suffix d dir out.
Proof.
  unfold visdrone2yolo_with. rewrite !convert_files_eq. simpl.
  by rewrite apply_writes_idemp.
Qed.

(** A file whose image is missing is passed over with a warning, whenever
    the image's name has been computed. *)
Lemma convert_annotation_missing d img f w :
  image_files d !! img = None →
  convert_annotation d img f w = print (ImageNotFound img f.1) w.
Proof. intros Himg. unfold convert_annotation. by rewrite Himg. Qed.

Lemma convert_annotation_unreadable d img f w e :
  image_files d !! img = Some (Raise e) →
  convert_annotation d img f w = print (ImageOpenError img e f.1) w.
Proof. intros Himg. unfold convert_annotation. by rewrite Himg. Qed.
End DriverFacts.

(** As written, the loop stops at its first file. *)
Lemma visdrone2yolo_raises d f files dir out :
  annotation_files d = f :: files →
  visdrone2yolo d dir out = ({| labels := default ∅ dir; stdout := out |}, Raise AttributeError).
Proof.
  intros Hf. unfold visdrone2yolo, visdrone2yolo_with. by rewrite Hf.
Qed.

(** As written, a run creates and changes no file and prints nothing. *)
Lemma visdrone2yolo_writes_nothing d dir out :
  (visdrone2yolo d dir out).1 = {| labels := default ∅ dir; stdout := out |}.
Proof.
  destruct (annotation_files d) as [|f files] eqn:Hf.
  - unfold visdrone2yolo, visdrone2yolo_with. by rewrite Hf.
  - by rewrite (visdrone2yolo_raises d f files).
Qed.

(** ** Rounding to binary64 *)

(** The primitive operations on [float] are specified by the functions of
    [SpecFloat]. The lemmas of this part say what those functions compute on
    normal numbers: first on mantissas and exponents, then as rational
    numbers. *)

Lemma digits2_pos_bounds (m : positive) :
  2 ^ (Z.pos (digits2_pos m) - 1) ≤ Z.pos m < 2 ^ Z.pos (digits2_pos m).
Proof.
  induction m as [m IH|m IH|]; cbn [digits2_pos]; [| |simpl; lia].
  - rewrite Pos2Z.inj_succ. replace (Z.succ (Z.pos (digits2_pos m)) - 1)
      with (Z.succ (Z.pos (digits2_pos m) - 1)) by lia.
    rewrite !Z.pow_succ_r by lia. lia.
  - rewrite Pos2Z.inj_succ. replace (Z.succ (Z.pos (digits2_pos m)) - 1)
      with (Z.succ (Z.pos (digits2_pos m) - 1)) by lia.
    rewrite !Z.pow_succ_r by lia. lia.
Qed.

Lemma digits2_pos_unique (m : positive) (D : Z) :
  2 ^ (D - 1) ≤ Z.pos m < 2 ^ D → Z.pos (digits2_pos m) = D.
Proof.
  intros [Hlo Hhi]. pose proof (digits2_pos_bounds m) as [Hlo' Hhi'].
  destruct (Z.lt_trichotomy (Z.pos (digits2_pos m)) D) as [Hlt|[Heq|Hgt]]; [|done|].
  - assert (2 ^ Z.pos (digits2_pos m) ≤ 2 ^ (D - 1)) by (apply Z.pow_le_mono_r; lia). lia.
  - destruct (Z.le_gt_cases 0 D) as [HD|HD].
    + assert (2 ^ D ≤ 2 ^ (Z.pos (digits2_pos m) - 1)) by (apply Z.pow_le_mono_r; lia). lia.
    + rewrite Z.pow_neg_r in Hhi by lia. lia.
Qed.

Lemma loc_of_shr_record_of_loc (m : Z) (l : location) :
  loc_of_shr_record (shr_record_of_loc m l) = l.
Proof. by destruct l as [|[]]. Qed.

Lemma shr_m_of_loc (m : Z) (l : location) : shr_m (shr_record_of_loc m l) = m.
Proof. by destruct l as [|[]]. Qed.

(** One step to the right: the bit that leaves becomes the round bit. *)
Lemma shr_1_loc (q b r d : Z) :
  0 ≤ q → 0 ≤ b ≤ 1 → 0 ≤ r < d →
  shr_1 (shr_record_of_loc (2 * q + b) (loc r d))
  = shr_record_of_loc q (loc (b * d + r) (2 * d)).
Proof.
  intros Hq Hb Hr. unfold loc.
  assert (b = 0 ∨ b = 1) as [-> | ->] by lia.
  - rewrite Z.add_0_r, Z.mul_0_l, Z.add_0_l.
    destruct (Z.eqb_spec r 0) as [->|Hr0].
    + destruct q; [reflexivity|reflexivity|lia].
    + replace (2 * r ?= 2 * d) with Lt by (symmetry; apply Z.compare_lt_iff; lia).
      destruct (Z.compare_spec (2 * r) d); destruct q; (reflexivity || lia).
  - rewrite Z.mul_1_l.
    replace (d + r =? 0) with false by (symmetry; apply Z.eqb_neq; lia).
    destruct (Z.eqb_spec r 0) as [->|Hr0].
    + replace (2 * (d + 0) ?= 2 * d) with Eq by (symmetry; apply Z.compare_eq_iff; lia).
      destruct q; [reflexivity|reflexivity|lia].
    + replace (2 * (d + r) ?= 2 * d) with Gt by (symmetry; apply Z.compare_gt_iff; lia).
      destruct (Z.compare_spec (2 * r) d); destruct q; (reflexivity || lia).
Qed.

Lemma iter_pos_nat {A} (f : A → A) (p : positive) (x : A) :
  SpecFloat.iter_pos f p x = Nat.iter (Pos.to_nat p) f x.
Proof.
  revert x. induction p as [p IH|p IH|]; intros x; cbn [SpecFloat.iter_pos].
  - rewrite !IH, Pos2Nat.inj_xI. cbn [Nat.mul].
    rewrite Nat.add_0_r, Nat.iter_succ_r, Nat.iter_add. reflexivity.
  - rewrite !IH, Pos2Nat.inj_xO. cbn [Nat.mul].
    rewrite Nat.add_0_r, Nat.iter_add. reflexivity.
  - reflexivity.
Qed.

Lemma shr_1_iter (k : nat) (q t r d : Z) :
  0 ≤ q → 0 ≤ t < 2 ^ Z.of_nat k → 0 ≤ r < d →
  Nat.iter k shr_1 (shr_record_of_loc (2 ^ Z.of_nat k * q + t) (loc r d))
  = shr_record_of_loc q (loc (t * d + r) (2 ^ Z.of_nat k * d)).
Proof.
  revert q t. induction k as [|k IH]; intros q t Hq Ht Hr.
  - change (2 ^ Z.of_nat 0) with 1 in *. assert (t = 0) as -> by lia.
    cbn [Nat.iter]. replace (1 * q + 0) with q by lia.
    replace (0 * d + r) with r by lia. replace (1 * d) with d by lia. reflexivity.
  - rewrite Nat2Z.inj_succ, Z.pow_succ_r in * by lia.
    set (P := 2 ^ Z.of_nat k) in *. assert (0 < P) by (apply Z.pow_pos_nonneg; lia).
    rewrite Nat.iter_succ.
    replace (2 * P * q + t) with (P * (2 * q + t / P) + t mod P)
      by (pose proof (Z.div_mod t P); lia).
    assert (0 ≤ t mod P < P) by (apply Z.mod_pos_bound; lia).
    assert (0 ≤ t / P ≤ 1).
    { split; [apply Z.div_pos; lia|]. apply Z.lt_succ_r, Z.div_lt_upper_bound; lia. }
    rewrite IH by lia.
    rewrite shr_1_loc by nia.
    replace (t / P * (P * d) + (t mod P * d + r)) with (t * d + r)
      by (pose proof (Z.div_mod t P); nia).
    replace (2 * (P * d)) with (2 * P * d) by lia. reflexivity.
Qed.

(** [shr] by [n] places keeps the quotient by [2^n] and the place of the
    rest among the halves. *)
Lemma shr_loc (m r d e n : Z) :
  0 ≤ m → 0 ≤ r < d → 0 ≤ n →
  shr (shr_record_of_loc m (loc r d)) e n
  = (shr_record_of_loc (m / 2 ^ n) (loc (m mod 2 ^ n * d + r) (2 ^ n * d)), e + n).
Proof.
  intros Hm Hr Hn. destruct n as [|p|p]; [| |lia].
  - cbn [shr]. change (2 ^ 0) with 1. rewrite Z.div_1_r, Z.mod_1_r.
    replace (0 * d + r) with r by lia. replace (1 * d) with d by lia.
    by rewrite Z.add_0_r.
  - cbn [shr]. rewrite iter_pos_nat. f_equal.
    assert (0 < 2 ^ Z.pos p) by (apply Z.pow_pos_nonneg; lia).
    rewrite <- (positive_nat_Z p) in *.
    rewrite (Z.div_mod m (2 ^ Z.of_nat (Pos.to_nat p))) at 1 by lia.
    apply shr_1_iter; [apply Z.div_pos; lia|apply Z.mod_pos_bound; lia|done].
Qed.

Lemma round_nearest_even_loc (m r d : Z) :
  0 ≤ r < d →
  (round_nearest_even m (loc r d) = m ∨ round_nearest_even m (loc r d) = m + 1) ∧
  - d ≤ 2 * (round_nearest_even m (loc r d) * d - (m * d + r)) ≤ d.
Proof.
  intros Hr. unfold loc, round_nearest_even.
  destruct (Z.eqb_spec r 0) as [->|Hr0]; [split; [by left|lia]|].
  destruct (Z.compare_spec (2 * r) d); [destruct (Z.even m)| |]; (split; [tauto|lia]).
Qed.

(** A tie goes to the even neighbour. *)
Lemma round_nearest_even_tie (m r d : Z) :
  0 ≤ r < d → 2 * r ≤ d → Z.even m = true → round_nearest_even m (loc r d) = m.
Proof.
  intros Hr Hle Heven. unfold loc, round_nearest_even.
  destruct (Z.eqb_spec r 0) as [->|Hr0]; [done|].
  destruct (Z.compare_spec (2 * r) d); [by rewrite Heven|done|lia].
Qed.

Lemma fexp_normal (D e : Z) : -1074 ≤ D + e - 53 → fexp prec emax (D + e) = D + e - 53.
Proof. unfold fexp, emin, prec, emax. lia. Qed.

(** [binary_round_aux] on a mantissa of at least 53 digits, in the range of
    the normal numbers and away from overflow: the result is finite, its
    mantissa has 53 digits, and it is the multiple [M * 2^(e+n)] nearest to
    the number [(m + r/d) * 2^e] that is rounded. *)
Lemma binary_round_aux_normal (s : bool) (m : positive) (e r d n : Z) :
  n = Z.pos (digits2_pos m) - 53 →
  0 ≤ n → -1074 ≤ e + n → e + n < 971 → 0 ≤ r < d →
  ∃ (mr : positive) (er M : Z),
    binary_round_aux prec emax s (Z.pos m) e (loc r d) = S754_finite s mr er ∧
    Z.pos (digits2_pos mr) = 53 ∧
    (er = e + n ∧ Z.pos mr = M ∨ er = e + n + 1 ∧ 2 * Z.pos mr = M) ∧
    (M = Z.pos m / 2 ^ n ∨ M = Z.pos m / 2 ^ n + 1) ∧
    - (2 ^ n * d) ≤ 2 * (M * (2 ^ n * d) - (Z.pos m * d + r)) ≤ 2 ^ n * d ∧
    (2 * (Z.pos m * d + r) ≤ (2 * (Z.pos m / 2 ^ n) + 1) * (2 ^ n * d) →
     Z.even (Z.pos m / 2 ^ n) = true → M = Z.pos m / 2 ^ n).
Proof.
  intros Hn Hn0 Hlo Hhi Hr.
  assert (0 < 2 ^ n) as HP by (apply Z.pow_pos_nonneg; lia).
  pose proof (digits2_pos_bounds m) as [Hml Hmh].
  replace (Z.pos (digits2_pos m)) with (n + 53) in Hml, Hmh by lia.
  replace (n + 53 - 1) with (n + 52) in Hml by lia.
  rewrite Z.pow_add_r in Hml, Hmh by lia.
  set (m1 := Z.pos m / 2 ^ n).
  assert (2 ^ 52 ≤ m1 < 2 ^ 53) as Hm1.
  { split; [apply Z.div_le_lower_bound; lia|apply Z.div_lt_upper_bound; lia]. }
  pose proof (Z.div_mod (Z.pos m) (2 ^ n) ltac:(lia)) as Hdm. fold m1 in Hdm.
  pose proof (Z.mod_pos_bound (Z.pos m) (2 ^ n) HP) as Hmod.
  set (r1 := Z.pos m mod 2 ^ n * d + r). set (d1 := 2 ^ n * d).
  assert (0 ≤ r1 < d1) as Hr1 by (unfold r1, d1; nia).
  unfold binary_round_aux, shr_fexp. cbn [Zdigits2].
  rewrite fexp_normal by lia.
  replace (Z.pos (digits2_pos m) + e - 53 - e) with n by lia.
  rewrite shr_loc by lia. fold m1 r1 d1.
  rewrite shr_m_of_loc, loc_of_shr_record_of_loc.
  destruct (round_nearest_even_loc m1 r1 d1 Hr1) as [Hmr Hnear].
  pose proof (round_nearest_even_tie m1 r1 d1 Hr1) as Htie.
  set (M := round_nearest_even m1 (loc r1 d1)) in *.
  assert (M * d1 - (m1 * d1 + r1) = M * (2 ^ n * d) - (Z.pos m * d + r)) as Hval
    by (unfold r1, d1; nia).
  rewrite Hval in Hnear. fold d1.
  assert (2 * (Z.pos m * d + r) ≤ (2 * m1 + 1) * d1 → Z.even m1 = true → M = m1) as Htie'
    by (intros Hle Heven; apply Htie; [unfold r1, d1 in *; nia|done]).
  destruct (Z.eq_dec M (2 ^ 53)) as [HM|HM].
  - exists (Z.to_pos (2 ^ 52)), (e + n + 1), M.
    rewrite HM. change (Zdigits2 (2 ^ 53)) with 54.
    rewrite fexp_normal by lia.
    replace (54 + (e + n) - 53 - (e + n)) with 1 by lia.
    change loc_Exact with (loc 0 1). rewrite shr_loc by lia.
    rewrite shr_m_of_loc. change (2 ^ 53 / 2 ^ 1) with (Z.pos (Z.to_pos (2 ^ 52))).
    replace (e + n + 1 <=? emax - prec) with true
      by (symmetry; apply Z.leb_le; unfold emax, prec; lia).
    split; [reflexivity|]. split; [reflexivity|]. split; [right; split; [lia|reflexivity]|].
    rewrite <- HM. split; [exact Hmr|]. split; [exact Hnear|exact Htie'].
  - assert (2 ^ 52 ≤ M < 2 ^ 53) as HMr by lia.
    clearbody M. destruct M as [|p|p]; [lia| |lia].
    exists p, (e + n), (Z.pos p).
    assert (Z.pos (digits2_pos p) = 53) as HD by (by apply digits2_pos_unique).
    cbn [Zdigits2]. rewrite HD.
    rewrite fexp_normal by lia.
    replace (53 + (e + n) - 53 - (e + n)) with 0 by lia.
    cbn [shr]. rewrite shr_m_of_loc.
    replace (e + n <=? emax - prec) with true
      by (symmetry; apply Z.leb_le; unfold emax, prec; lia).
    split; [reflexivity|]. split; [reflexivity|]. split; [by left|].
    split; [exact Hmr|]. split; [exact Hnear|exact Htie'].
Qed.

Lemma pow2_pos (e : Z) : (0 < pow2 e)%Q.
Proof. apply Qpower_0_lt. reflexivity. Qed.

Lemma pow2_add (a b : Z) : (pow2 (a + b) == pow2 a * pow2 b)%Q.
Proof. apply Qpower_plus. discriminate. Qed.

Lemma pow2_Z (n : Z) : 0 ≤ n → (pow2 n == inject_Z (2 ^ n))%Q.
Proof. intros Hn. unfold pow2. by rewrite Zpower_Qpower. Qed.

Lemma Q_scale_le (x y d p : Q) :
  (0 < d)%Q → (0 < p)%Q → (x <= y)%Q → (x / d * p <= y / d * p)%Q.
Proof.
  intros Hd Hp Hxy. apply Qmult_le_compat_r; [|lra].
  apply Qmult_le_compat_r; [lra|]. apply Qlt_le_weak, Qinv_lt_0_compat. lra.
Qed.

(** The same in rational numbers: the result is within one unit roundoff
    of the number that is rounded, and is that number when it fits. *)
Lemma binary_round_aux_value (s : bool) (m : positive) (e r d n : Z) :
  n = Z.pos (digits2_pos m) - 53 →
  0 ≤ n → -1074 ≤ e + n → e + n < 971 → 0 ≤ r < d →
  ∃ (mr : positive) (er : Z),
    binary_round_aux prec emax s (Z.pos m) e (loc r d) = S754_finite s mr er ∧
    Z.pos (digits2_pos mr) = 53 ∧
    e + n ≤ er ≤ e + n + 1 ∧
    rounded (inject_Z (Z.pos m * d + r) / inject_Z d * pow2 e) (fval mr er) ∧
    (r = 0 → Z.pos m mod 2 ^ n = 0 → er = e + n ∧ Z.pos mr = Z.pos m / 2 ^ n).
Proof.
  intros Hn Hn0 Hlo Hhi Hr.
  destruct (binary_round_aux_normal s m e r d n Hn Hn0 Hlo Hhi Hr)
    as (mr & er & M & Hbra & HD & Her & HM & Hnear & _).
  exists mr, er. split; [exact Hbra|]. split; [exact HD|]. split; [lia|].
  assert (0 < 2 ^ n) as HP by (apply Z.pow_pos_nonneg; lia).
  pose proof (digits2_pos_bounds m) as [Hml Hmh].
  replace (Z.pos (digits2_pos m)) with (n + 53) in Hml, Hmh by lia.
  replace (n + 53 - 1) with (n + 52) in Hml by lia.
  rewrite Z.pow_add_r in Hml, Hmh by lia.
  split.
  - set (A := Z.pos m * d + r) in *. set (T := M * (2 ^ n * d)) in *.
    assert (2 ^ n * d * 2 ^ 52 ≤ A) as HA by (unfold A; nia).
    assert (9007199254740992 * T ≤ A * 9007199254740993) as Hup by lia.
    assert (A * 9007199254740991 ≤ 9007199254740992 * T) as Hdn by lia.
    assert (fval mr er == inject_Z T / inject_Z d * pow2 e)%Q as HV.
    { unfold fval, T. rewrite !inject_Z_mult, <- (pow2_Z n) by lia.
      assert (¬ inject_Z d == 0)%Q by (unfold Qeq, inject_Z; simpl; lia).
      destruct Her as [[-> <-]|[-> <-]].
      - rewrite (Z.add_comm e n), pow2_add. field. done.
      - replace (e + n + 1) with (1 + (n + e)) by lia. rewrite !pow2_add.
        rewrite inject_Z_mult. change (pow2 1) with 2%Q. change (inject_Z 2) with 2%Q.
        field. done. }
    assert (0 < inject_Z d)%Q as Hd by (unfold Qlt, inject_Z; simpl; lia).
    pose proof (pow2_pos e) as He.
    rewrite Zle_Qle, !inject_Z_mult in Hup, Hdn.
    change (inject_Z 9007199254740992) with (9007199254740992 # 1)%Q in Hup, Hdn.
    change (inject_Z 9007199254740993) with (9007199254740993 # 1)%Q in Hup.
    change (inject_Z 9007199254740991) with (9007199254740991 # 1)%Q in Hdn.
    unfold rounded. rewrite HV. split.
    + setoid_replace (inject_Z A / inject_Z d * pow2 e * (1 - b64_u))%Q
        with (inject_Z A * (1 - b64_u) / inject_Z d * pow2 e)%Q using relation Qeq
        by (field; lra).
      apply Q_scale_le; [done..|]. unfold b64_u. lra.
    + setoid_replace (inject_Z A / inject_Z d * pow2 e * (1 + b64_u))%Q
        with (inject_Z A * (1 + b64_u) / inject_Z d * pow2 e)%Q using relation Qeq
        by (field; lra).
      apply Q_scale_le; [done..|]. unfold b64_u. lra.
  - intros -> Hmod.
    pose proof (Z.div_mod (Z.pos m) (2 ^ n) ltac:(lia)) as Hdm.
    rewrite Hmod, Z.add_0_r in Hdm.
    set (m1 := Z.pos m / 2 ^ n) in *.
    assert (M = m1) as -> by nia.
    pose proof (digits2_pos_bounds mr) as [Hrl _]. rewrite HD in Hrl.
    change (2 ^ (53 - 1)) with (2 ^ 52) in Hrl.
    assert (m1 < 2 ^ 53) by nia.
    destruct Her as [[-> <-]|[-> <-]]; [done|lia].
Qed.

Lemma new_location_loc (nb k : Z) : 0 ≤ k < nb → new_location nb k = loc k nb.
Proof.
  intros Hk. unfold new_location, new_location_even, new_location_odd, loc.
  destruct (Z.even nb) eqn:Heven; [done|].
  destruct (Z.eqb_spec k 0); [done|]. f_equal.
  assert (Z.odd nb = true) as [j Hj]%Z.odd_spec by (by rewrite <- Z.negb_even, Heven).
  destruct (Z.compare_spec (2 * k + 1) nb), (Z.compare_spec (2 * k) nb); (done || lia).
Qed.

Lemma pos_iter_xO (m d : positive) : Z.pos (Pos.iter xO m d) = Z.pos m * 2 ^ Z.pos d.
Proof.
  induction d as [|d IH] using Pos.peano_ind.
  - cbn [Pos.iter]. lia.
  - rewrite Pos.iter_succ, Pos2Z.inj_succ, Z.pow_succ_r by lia.
    rewrite Pos2Z.inj_xO, IH. lia.
Qed.

Lemma shl_align_le (m : positive) (e e' : Z) :
  e' ≤ e → shl_align m e e' = (Z.to_pos (Z.pos m * 2 ^ (e - e')), e').
Proof.
  intros He. unfold shl_align. destruct (e' - e) as [|d|d] eqn:Hd; [|lia|].
  - replace (e - e') with 0 by lia. replace e' with e by lia.
    by rewrite Z.mul_1_r.
  - replace (e - e') with (Z.pos d) by lia. by rewrite <- pos_iter_xO.
Qed.

Lemma shl_align_ge (m : positive) (e e' : Z) : e ≤ e' → shl_align m e e' = (m, e).
Proof. intros He. unfold shl_align. destruct (e' - e) eqn:Hd; (done || lia). Qed.

(** A mantissa of 53 digits is left as it is. *)
Lemma binary_round_aux_53 (s : bool) (m : positive) (e : Z) :
  Z.pos (digits2_pos m) = 53 → -1074 ≤ e < 971 →
  binary_round_aux prec emax s (Z.pos m) e loc_Exact = S754_finite s m e.
Proof.
  intros HD He.
  destruct (binary_round_aux_value s m e 0 1 0) as (mr & er & Hbra & _ & _ & _ & Hex);
    [lia..|].
  change (loc 0 1) with loc_Exact in Hbra. rewrite Hbra.
  destruct Hex as [-> Hmr]; [done|apply Z.mod_1_r|].
  rewrite Z.div_1_r in Hmr. f_equal; [congruence|lia].
Qed.

(** [int] to binary64, for an integer that has at most 53 digits. *)
Lemma binary_normalize_int (p : positive) :
  Z.pos (digits2_pos p) ≤ 53 →
  binary_normalize prec emax (Z.pos p) 0 false
  = S754_finite false (Z.to_pos (Z.pos p * 2 ^ (53 - Z.pos (digits2_pos p))))
      (Z.pos (digits2_pos p) - 53).
Proof.
  intros HD. set (D := Z.pos (digits2_pos p)) in *.
  assert (0 < D) by done.
  unfold binary_normalize, binary_round. fold D.
  replace (fexp prec emax (D + 0)) with (D - 53)
    by (unfold fexp, emin, prec, emax; lia).
  rewrite shl_align_le by lia. replace (0 - (D - 53)) with (53 - D) by lia.
  assert (0 < 2 ^ (53 - D)) by (apply Z.pow_pos_nonneg; lia).
  set (mz := Z.to_pos (Z.pos p * 2 ^ (53 - D))).
  assert (Z.pos mz = Z.pos p * 2 ^ (53 - D)) as Hmz by (apply Z2Pos.id; lia).
  apply binary_round_aux_53; [|lia].
  apply digits2_pos_unique. rewrite Hmz.
  pose proof (digits2_pos_bounds p) as [Hl Hh]. fold D in Hl, Hh.
  assert (2 ^ (53 - 1) = 2 ^ (D - 1) * 2 ^ (53 - D)) as ->
    by (rewrite <- Z.pow_add_r by lia; f_equal; lia).
  assert (2 ^ 53 = 2 ^ D * 2 ^ (53 - D)) as ->
    by (rewrite <- Z.pow_add_r by lia; f_equal; lia).
  nia.
Qed.

Lemma digits2_pos_lt (p : positive) (k : Z) :
  Z.pos p < 2 ^ k → Z.pos (digits2_pos p) ≤ k.
Proof.
  intros Hp. pose proof (digits2_pos_bounds p) as [Hl _].
  destruct (Z.le_gt_cases (Z.pos (digits2_pos p)) k) as [|Hgt]; [done|].
  assert (2 ^ k ≤ 2 ^ (Z.pos (digits2_pos p) - 1)).
  { destruct (Z.le_gt_cases 0 k); [apply Z.pow_le_mono_r; lia|].
    rewrite (Z.pow_neg_r 2 k) by lia. apply Z.pow_nonneg. lia. }
  lia.
Qed.

Lemma digits2_pos_ge (p : positive) (k : Z) :
  2 ^ k ≤ Z.pos p → k < Z.pos (digits2_pos p).
Proof.
  intros Hp. pose proof (digits2_pos_bounds p) as [_ Hh].
  destruct (Z.le_gt_cases (Z.pos (digits2_pos p)) k) as [Hle|]; [|done].
  assert (2 ^ Z.pos (digits2_pos p) ≤ 2 ^ k) by (apply Z.pow_le_mono_r; lia). lia.
Qed.

(** The quotient of two normal numbers. *)
Lemma SFdiv_round (mx my : positive) (ex ey : Z) :
  Z.pos (digits2_pos mx) = 53 → Z.pos (digits2_pos my) = 53 →
  -1074 ≤ ex - ey - 53 →
  SFdiv prec emax (S754_finite false mx ex) (S754_finite false my ey)
  = binary_round_aux prec emax false (Z.pos mx * 2 ^ 53 / Z.pos my) (ex - ey - 53)
      (loc ((Z.pos mx * 2 ^ 53) mod Z.pos my) (Z.pos my)).
Proof.
  intros Hx Hy Hlo. unfold SFdiv, SFdiv_core_binary. cbn [Zdigits2 xorb].
  rewrite Hx, Hy.
  replace (fexp prec emax (53 + ex - (53 + ey))) with (ex - ey - 53)
    by (unfold fexp, emin, prec, emax; lia).
  replace (Z.min (ex - ey - 53) (ex - ey)) with (ex - ey - 53) by lia.
  replace (ex - ey - (ex - ey - 53)) with 53 by lia.
  cbv iota. rewrite Z.shiftl_mul_pow2 by lia.
  unfold Z.div, Z.modulo.
  pose proof (Z.mod_pos_bound (Z.pos mx * 2 ^ 53) (Z.pos my) ltac:(done)) as Hr.
  unfold Z.modulo in Hr.
  destruct (Z.div_eucl (Z.pos mx * 2 ^ 53) (Z.pos my)) as [q r].
  by rewrite new_location_loc.
Qed.

Lemma SFdiv_value (mx my : positive) (ex ey : Z) :
  Z.pos (digits2_pos mx) = 53 → Z.pos (digits2_pos my) = 53 →
  -1074 ≤ ex - ey - 53 → ex - ey - 52 < 971 →
  ∃ (mr : positive) (er : Z),
    SFdiv prec emax (S754_finite false mx ex) (S754_finite false my ey)
    = S754_finite false mr er ∧
    Z.pos (digits2_pos mr) = 53 ∧
    ex - ey - 53 ≤ er ≤ ex - ey - 51 ∧
    rounded (fval mx ex / fval my ey) (fval mr er) ∧
    (Z.pos my = 2 ^ 52 → mr = mx ∧ er = ex - ey - 52).
Proof.
  intros Hx Hy Hlo Hhi. rewrite SFdiv_round by done.
  pose proof (digits2_pos_bounds mx) as [Hxl Hxh]. rewrite Hx in Hxl, Hxh.
  pose proof (digits2_pos_bounds my) as [Hyl Hyh]. rewrite Hy in Hyl, Hyh.
  change (2 ^ (53 - 1)) with (2 ^ 52) in *.
  set (a := Z.pos mx * 2 ^ 53).
  pose proof (Z.div_mod a (Z.pos my) ltac:(done)) as Hdm.
  pose proof (Z.mod_pos_bound a (Z.pos my) ltac:(done)) as Hr.
  assert (2 ^ 52 ≤ a / Z.pos my) as Hql by (apply Z.div_le_lower_bound; unfold a; nia).
  assert (a / Z.pos my < 2 ^ 54) as Hqh by (apply Z.div_lt_upper_bound; unfold a; nia).
  destruct (a / Z.pos my) as [|q|q] eqn:Hq; [lia| |lia].
  assert (52 < Z.pos (digits2_pos q)) by (by apply digits2_pos_ge).
  assert (Z.pos (digits2_pos q) ≤ 54) by (by apply digits2_pos_lt).
  set (n := Z.pos (digits2_pos q) - 53).
  destruct (binary_round_aux_value false q (ex - ey - 53) (a mod Z.pos my) (Z.pos my) n)
    as (mr & er & Hbra & HD & Her & Hval & Hex); [done|lia..|].
  exists mr, er. split; [exact Hbra|]. split; [exact HD|]. split; [lia|]. split.
  - replace (Z.pos q * Z.pos my + a mod Z.pos my) with a in Hval by lia.
    assert (inject_Z a / inject_Z (Z.pos my) * pow2 (ex - ey - 53)
            == fval mx ex / fval my ey)%Q as Heq;
      [|unfold rounded in *; by rewrite <- Heq].
    unfold fval, a. rewrite inject_Z_mult, <- (pow2_Z 53) by lia.
    replace ex with (53 + (ex - ey - 53) + ey) at 2 by lia. rewrite !pow2_add.
    pose proof (pow2_pos ey). pose proof (pow2_pos 53).
    assert (0 < inject_Z (Z.pos my))%Q by (unfold Qlt, inject_Z; simpl; lia).
    field. split; lra.
  - intros Hmy. rewrite Hmy in *.
    assert (a = 2 ^ 52 * (2 * Z.pos mx)) as Ha by (unfold a; lia).
    assert (a mod 2 ^ 52 = 0) as Hr0 by (rewrite Ha, Z.mul_comm; apply Z.mod_mul; lia).
    assert (Z.pos q = 2 * Z.pos mx) as Hq2.
    { rewrite <- Hq, Ha, Z.mul_comm. apply Z.div_mul. lia. }
    assert (n = 1) as Hn1.
    { unfold n. enough (Z.pos (digits2_pos q) = 54) by lia.
      apply digits2_pos_unique. rewrite Hq2. change (2 ^ (54 - 1)) with (2 * 2 ^ 52).
      change (2 ^ 54) with (2 * 2 ^ 53). lia. }
    destruct Hex as [-> Hmr]; [done|by rewrite Hn1, Hq2, Z.mul_comm, Z.mod_mul|].
    rewrite Hn1, Hq2, Z.mul_comm, Z.div_mul in Hmr by lia.
    split; [congruence|lia].
Qed.

(** The product of two normal numbers. *)
Lemma SFmul_value (mx my : positive) (ex ey : Z) :
  Z.pos (digits2_pos mx) = 53 → Z.pos (digits2_pos my) = 53 →
  -1074 ≤ ex + ey + 52 → ex + ey + 53 < 971 →
  ∃ (mr : positive) (er : Z),
    SFmul prec emax (S754_finite false mx ex) (S754_finite false my ey)
    = S754_finite false mr er ∧
    Z.pos (digits2_pos mr) = 53 ∧
    ex + ey + 52 ≤ er ≤ ex + ey + 54 ∧
    rounded (fval mx ex * fval my ey) (fval mr er).
Proof.
  intros Hx Hy Hlo Hhi. cbn [SFmul xorb].
  pose proof (digits2_pos_bounds mx) as [Hxl Hxh]. rewrite Hx in Hxl, Hxh.
  pose proof (digits2_pos_bounds my) as [Hyl Hyh]. rewrite Hy in Hyl, Hyh.
  change (2 ^ (53 - 1)) with (2 ^ 52) in *.
  assert (104 < Z.pos (digits2_pos (mx * my))).
  { apply digits2_pos_ge. rewrite Pos2Z.inj_mul. change (2 ^ 104) with (2 ^ 52 * 2 ^ 52). nia. }
  assert (Z.pos (digits2_pos (mx * my)) ≤ 106).
  { apply digits2_pos_lt. rewrite Pos2Z.inj_mul. change (2 ^ 106) with (2 ^ 53 * 2 ^ 53). nia. }
  set (n := Z.pos (digits2_pos (mx * my)) - 53).
  destruct (binary_round_aux_value false (mx * my) (ex + ey) 0 1 n)
    as (mr & er & Hbra & HD & Her & Hval & _); [done|lia..|].
  change (loc 0 1) with loc_Exact in Hbra.
  exists mr, er. split; [exact Hbra|]. split; [exact HD|]. split; [lia|].
  assert (inject_Z (Z.pos (mx * my) * 1 + 0) / inject_Z 1 * pow2 (ex + ey)
          == fval mx ex * fval my ey)%Q as Heq;
    [|unfold rounded in *; by rewrite <- Heq].
  unfold fval. rewrite Z.mul_1_r, Z.add_0_r, Pos2Z.inj_mul, inject_Z_mult, pow2_add.
  change (inject_Z 1) with 1%Q. field.
Qed.

(** The sum of two normal numbers, when it is a binary64 number. *)
Lemma SFadd_exact (mx my mz : positive) (ex ey k : Z) :
  Z.pos (digits2_pos mz) = 53 → 0 ≤ k →
  -1074 ≤ Z.min ex ey → Z.min ex ey + k < 971 →
  Z.pos mx * 2 ^ (ex - Z.min ex ey) + Z.pos my * 2 ^ (ey - Z.min ex ey) = Z.pos mz * 2 ^ k →
  SFadd prec emax (S754_finite false mx ex) (S754_finite false my ey)
  = S754_finite false mz (Z.min ex ey + k).
Proof.
  intros Hz Hk Hlo Hhi Hsum. cbn [SFadd cond_Zopp]. set (ez := Z.min ex ey) in *.
  rewrite !shl_align_le by lia. cbn [fst].
  assert (0 < 2 ^ (ex - ez)) by (apply Z.pow_pos_nonneg; lia).
  assert (0 < 2 ^ (ey - ez)) by (apply Z.pow_pos_nonneg; lia).
  assert (0 < 2 ^ k) as HP by (apply Z.pow_pos_nonneg; lia).
  rewrite !Z2Pos.id by lia. rewrite Hsum.
  set (S := Z.to_pos (Z.pos mz * 2 ^ k)).
  assert (Z.pos S = Z.pos mz * 2 ^ k) as HS by (apply Z2Pos.id; lia).
  rewrite <- HS. cbn [binary_normalize]. unfold binary_round.
  pose proof (digits2_pos_bounds mz) as [Hl Hh]. rewrite Hz in Hl, Hh.
  change (2 ^ (53 - 1)) with (2 ^ 52) in Hl.
  assert (Z.pos (digits2_pos S) = 53 + k) as HDS.
  { apply digits2_pos_unique. rewrite HS.
    replace (53 + k - 1) with (52 + k) by lia. rewrite !Z.pow_add_r by lia. nia. }
  rewrite HDS. rewrite shl_align_ge by (unfold fexp, emin, prec, emax; lia).
  destruct (binary_round_aux_value false S ez 0 1 k)
    as (mr & er & Hbra & _ & _ & _ & Hex); [lia..|].
  change (loc 0 1) with loc_Exact in Hbra. rewrite Hbra.
  destruct Hex as [-> Hmr]; [done|by rewrite HS, Z.mod_mul by lia|].
  rewrite HS, Z.div_mul in Hmr by lia. f_equal. congruence.
Qed.

(** ** [convert_box] on binary64 *)

Lemma int_mantissa_spec (p : positive) :
  Z.pos (digits2_pos p) ≤ 53 →
  Z.pos (int_mantissa p) = Z.pos p * 2 ^ (53 - Z.pos (digits2_pos p)) ∧
  Z.pos (digits2_pos (int_mantissa p)) = 53.
Proof.
  intros HD. set (D := Z.pos (digits2_pos p)) in *.
  assert (0 < 2 ^ (53 - D)) by (apply Z.pow_pos_nonneg; lia).
  assert (Z.pos (int_mantissa p) = Z.pos p * 2 ^ (53 - D)) as Hm
    by (unfold int_mantissa; fold D; apply Z2Pos.id; lia).
  split; [exact Hm|]. apply digits2_pos_unique. rewrite Hm.
  pose proof (digits2_pos_bounds p) as [Hl Hh]. fold D in Hl, Hh.
  assert (0 < D) by done.
  assert (2 ^ (53 - 1) = 2 ^ (D - 1) * 2 ^ (53 - D)) as ->
    by (rewrite <- Z.pow_add_r by lia; f_equal; lia).
  assert (2 ^ 53 = 2 ^ D * 2 ^ (53 - D)) as ->
    by (rewrite <- Z.pow_add_r by lia; f_equal; lia).
  nia.
Qed.

Lemma int_mantissa_value (p : positive) :
  Z.pos (digits2_pos p) ≤ 53 →
  (fval (int_mantissa p) (Z.pos (digits2_pos p) - 53) == inject_Z (Z.pos p))%Q.
Proof.
  intros HD. destruct (int_mantissa_spec p HD) as [Hm _].
  unfold fval. rewrite Hm, inject_Z_mult, <- pow2_Z by lia.
  rewrite <- Qmult_assoc, <- pow2_add.
  replace (53 - Z.pos (digits2_pos p) + (Z.pos (digits2_pos p) - 53)) with 0 by lia.
  change (pow2 0) with 1%Q. ring.
Qed.

Lemma valid_binary_53 (s : bool) (m : positive) (e : Z) :
  Z.pos (digits2_pos m) = 53 → -1074 ≤ e ≤ 971 →
  valid_binary (S754_finite s m e) = true.
Proof.
  intros HD He. unfold SpecFloat.valid_binary, bounded, canonical_mantissa.
  rewrite HD. apply andb_true_iff. split.
  - apply Z.eqb_eq. unfold fexp, emin, prec, emax. lia.
  - apply Z.leb_le. unfold prec, emax. lia.
Qed.

Lemma is_infinity_finite (f : float) (s : bool) (m : positive) (e : Z) :
  Prim2SF f = S754_finite s m e → is_infinity f = false.
Proof.
  intros Hf. unfold is_infinity. by rewrite FloatAxioms.eqb_spec, abs_spec, Hf.
Qed.

Lemma is_zero_finite (f : float) (s : bool) (m : positive) (e : Z) :
  Prim2SF f = S754_finite s m e → is_zero f = false.
Proof.
  intros Hf. unfold is_zero. rewrite FloatAxioms.eqb_spec, Hf. by destruct s.
Qed.

(** [float(n)] for a positive [int] of at most 53 digits. *)
Lemma b64_of_int_pos (p : positive) :
  Z.pos (digits2_pos p) ≤ 53 →
  ∃ f : float,
    b64_of_int (Z.pos p) = Ok f ∧
    Prim2SF f = S754_finite false (int_mantissa p) (Z.pos (digits2_pos p) - 53).
Proof.
  intros HD. destruct (int_mantissa_spec p HD) as [_ H53].
  unfold b64_of_int. rewrite binary_normalize_int by done. fold (int_mantissa p).
  set (x := S754_finite false (int_mantissa p) (Z.pos (digits2_pos p) - 53)).
  assert (Prim2SF (SF2Prim x) = x) as Hx
    by (apply Prim2SF_SF2Prim, valid_binary_53; [done|lia]).
  exists (SF2Prim x). split; [|exact Hx].
  cbv zeta. by rewrite (is_infinity_finite _ _ _ _ Hx).
Qed.

Lemma b64_of_int_exact (n : Z) :
  0 ≤ n < 2 ^ 53 → ∃ f : float, b64_of_int n = Ok f ∧ b64_exact f (inject_Z n).
Proof.
  intros Hn. destruct n as [|p|p]; [| |lia].
  - exists 0%float. split; [reflexivity|]. by left.
  - assert (Z.pos (digits2_pos p) ≤ 53) as HD by (apply digits2_pos_lt; lia).
    destruct (b64_of_int_pos p HD) as (f & Hf & Hsf).
    destruct (int_mantissa_spec p HD) as [_ H53].
    exists f. split; [exact Hf|]. right.
    exists (int_mantissa p), (Z.pos (digits2_pos p) - 53).
    split; [exact Hsf|]. split; [exact H53|]. split; [lia|].
    by apply int_mantissa_value.
Qed.

(** [1.0 / W] *)
Lemma b64_reciprocal (W : Z) :
  0 < W < 2 ^ 53 →
  ∃ (sw : float) (md : positive) (ed : Z),
    b64_of_int W = Ok sw ∧ is_zero sw = false ∧
    Prim2SF (1 / sw)%float = S754_finite false md ed ∧
    Z.pos (digits2_pos md) = 53 ∧ -105 ≤ ed ≤ -51 ∧
    rounded (1 / inject_Z W) (fval md ed).
Proof.
  intros HW. destruct W as [|p|p]; [lia| |lia].
  assert (Z.pos (digits2_pos p) ≤ 53) as HD by (apply digits2_pos_lt; lia).
  destruct (b64_of_int_pos p HD) as (sw & Hsw & Hsf).
  destruct (int_mantissa_spec p HD) as [_ H53].
  assert (0 < Z.pos (digits2_pos p)) by done.
  destruct (SFdiv_value 4503599627370496 (int_mantissa p) (-52) (Z.pos (digits2_pos p) - 53))
    as (md & ed & Hdiv & HDd & Hed & Hval & _); [reflexivity|done|lia..|].
  exists sw, md, ed. split; [exact Hsw|].
  split; [by eapply is_zero_finite|].
  split; [by rewrite div_spec, Hsf|]. split; [exact HDd|]. split; [lia|].
  unfold rounded in *. rewrite int_mantissa_value in Hval by done.
  assert (fval 4503599627370496 (-52) == 1)%Q as Hone by reflexivity.
  by rewrite Hone in Hval.
Qed.

(** [w / 2.0] *)
Lemma b64_half (bw : float) (m : positive) (e : Z) :
  Prim2SF bw = S754_finite false m e → Z.pos (digits2_pos m) = 53 → -53 ≤ e ≤ 0 →
  Prim2SF (bw / 2)%float = S754_finite false m (e - 1).
Proof.
  intros Hf HD He. rewrite div_spec, Hf.
  destruct (SFdiv_value m 4503599627370496 e (-51))
    as (mr & er & Hdiv & _ & _ & _ & Hex); [done|reflexivity|lia..|].
  destruct Hex as [-> ->]; [reflexivity|].
  change (Prim2SF 2) with (S754_finite false 4503599627370496 (-51)).
  unfold SF64div. rewrite Hdiv. f_equal. lia.
Qed.

Lemma fval_half (m : positive) (e : Z) : (fval m (e - 1) == fval m e / 2)%Q.
Proof.
  unfold fval. replace e with (e - 1 + 1) at 2 by lia. rewrite pow2_add.
  change (pow2 1) with 2%Q. field.
Qed.

Lemma pow2_mul3 (a x y z : Z) : 0 ≤ x → 0 ≤ y → x + y = z → a * 2 ^ x * 2 ^ y = a * 2 ^ z.
Proof. intros Hx Hy <-. rewrite Z.pow_add_r by lia. ring. Qed.

(** [x1 + w / 2.0], and [float(w)] *)
Lemma b64_half_sum (x1 w : Z) :
  0 ≤ x1 → 0 ≤ w → 2 * x1 + w < 2 ^ 53 →
  ∃ bx bw : float,
    b64_of_int x1 = Ok bx ∧ b64_of_int w = Ok bw ∧
    b64_exact bw (inject_Z w) ∧
    b64_exact (bx + bw / 2)%float (inject_Z x1 + inject_Z w / 2).
Proof.
  intros Hx Hw HK.
  destruct w as [|pw|pw]; [| |lia].
  - (* w = 0 *)
    destruct (b64_of_int_exact x1) as (bx & Hbx & Hex); [lia|].
    exists bx, 0%float. split; [done|]. split; [reflexivity|]. split; [by left|].
    assert (inject_Z x1 + inject_Z 0 / 2 == inject_Z x1)%Q as Hq
      by (change (inject_Z 0) with 0%Q; field).
    destruct Hex as [[Hz Hq0]|(m & e & Hf & HD & He & Hv)].
    + left. split; [by rewrite add_spec, Hz|]. by rewrite Hq.
    + right. exists m, e. split; [by rewrite add_spec, Hf|]. split; [done|].
      split; [done|]. by rewrite Hq.
  - (* w > 0 *)
    assert (Z.pos (digits2_pos pw) ≤ 53) as HDw by (apply digits2_pos_lt; lia).
    destruct (b64_of_int_pos pw HDw) as (bw & Hbw & Hsw).
    destruct (int_mantissa_spec pw HDw) as [Hmw H53w].
    pose proof (int_mantissa_value pw HDw) as Hvw.
    assert (0 < Z.pos (digits2_pos pw)) as HDw0 by done.
    set (Dw := Z.pos (digits2_pos pw)) in *.
    assert (Prim2SF (bw / 2)%float = S754_finite false (int_mantissa pw) (Dw - 53 - 1)) as Hhw
      by (apply b64_half; [done..|lia]).
    assert (b64_exact bw (inject_Z (Z.pos pw))) as Hew.
    { right. exists (int_mantissa pw), (Dw - 53). repeat split; (done || lia). }
    destruct x1 as [|px|px]; [| |lia].
    + exists 0%float, bw. split; [reflexivity|]. split; [done|]. split; [done|].
      right. exists (int_mantissa pw), (Dw - 53 - 1).
      split; [by rewrite add_spec, Hhw|]. split; [done|]. split; [lia|].
      rewrite fval_half, Hvw. change (inject_Z 0) with 0%Q. field.
    + assert (Z.pos (digits2_pos px) ≤ 53) as HDx by (apply digits2_pos_lt; lia).
      destruct (b64_of_int_pos px HDx) as (bx & Hbx & Hsx).
      destruct (int_mantissa_spec px HDx) as [Hmx H53x].
      assert (0 < Z.pos (digits2_pos px)) as HDx0 by done.
      set (Dx := Z.pos (digits2_pos px)) in *.
      exists bx, bw. split; [done|]. split; [done|]. split; [done|].
      set (pK := (px~0 + pw)%positive).
      assert (Z.pos pK = 2 * Z.pos px + Z.pos pw) as HpK by (unfold pK; lia).
      assert (Z.pos (digits2_pos pK) ≤ 53) as HDK by (apply digits2_pos_lt; lia).
      destruct (int_mantissa_spec pK HDK) as [HmK H53K].
      pose proof (int_mantissa_value pK HDK) as HvK.
      set (DK := Z.pos (digits2_pos pK)) in *.
      pose proof (digits2_pos_bounds px) as [Hxl _]. fold Dx in Hxl.
      pose proof (digits2_pos_bounds pw) as [Hwl _]. fold Dw in Hwl.
      assert (Dx < DK) as HxK.
      { apply digits2_pos_ge. replace Dx with (Dx - 1 + 1) by lia.
        rewrite Z.pow_add_r by lia. lia. }
      assert (Dw - 1 < DK) as HwK by (apply digits2_pos_ge; lia).
      set (ez := Z.min (Dx - 53) (Dw - 53 - 1)).
      right. exists (int_mantissa pK), (DK - 54).
      split; [|split; [done|split; [lia|]]].
      * rewrite add_spec, Hsx, Hhw. unfold SF64add. fold Dx.
        replace (DK - 54) with (ez + (DK - 54 - ez)) by lia.
        apply SFadd_exact; [done|lia|lia|lia|]. fold ez.
        rewrite Hmx, Hmw, HmK. fold Dx Dw DK.
        rewrite (pow2_mul3 _ _ _ (- ez)), (pow2_mul3 _ _ _ (- ez - 1)),
          (pow2_mul3 _ _ _ (- ez - 1)) by lia.
        rewrite HpK.
        assert (2 ^ (- ez) = 2 * 2 ^ (- ez - 1)) as ->
          by (rewrite <- Z.pow_succ_r by lia; f_equal; lia).
        ring.
      * replace (DK - 54) with (DK - 53 - 1) by lia.
        rewrite fval_half, HvK, HpK, inject_Z_plus, inject_Z_mult.
        change (inject_Z 2) with 2%Q. field.
Qed.

(** [a * dw] for an exact [a] *)
Lemma b64_mul_exact (a d : float) (q : Q) (md : positive) (ed : Z) :
  b64_exact a q →
  Prim2SF d = S754_finite false md ed → Z.pos (digits2_pos md) = 53 → -105 ≤ ed ≤ -51 →
  ∃ v : Q, b64_value (a * d)%float = Some v ∧ rounded (q * fval md ed) v.
Proof.
  intros [[Hz Hq]|(m & e & Hf & HD & He & Hq)] Hd HDd Hed.
  - exists 0%Q. split; [unfold b64_value; by rewrite mul_spec, Hz, Hd|].
    unfold rounded. rewrite Hq. unfold b64_u. lra.
  - destruct (SFmul_value m md e ed) as (mr & er & Hmul & _ & _ & Hval); [done|done|lia..|].
    exists (fval mr er). split.
    + unfold b64_value. rewrite mul_spec, Hf, Hd. unfold SF64mul. by rewrite Hmul.
    + unfold rounded in *. by rewrite <- Hq.
Qed.

Lemma rounded_compose (q r d v : Q) :
  (0 <= q)%Q → rounded r d → rounded (q * d) v → rounded_twice (q * r) v.
Proof.
  unfold rounded, rounded_twice, b64_u. intros Hq [Hd1 Hd2] [Hv1 Hv2].
  assert (q * (r * (1 - (1 # 9007199254740992))) <= q * d)%Q as H1
    by (rewrite !(Qmult_comm q); by apply Qmult_le_compat_r).
  assert (q * d <= q * (r * (1 + (1 # 9007199254740992))))%Q as H2
    by (rewrite !(Qmult_comm q); by apply Qmult_le_compat_r).
  split.
  - apply Qle_trans with (q * d * (1 - (1 # 9007199254740992)))%Q; [|done].
    setoid_replace (q * r * ((1 - (1 # 9007199254740992)) * (1 - (1 # 9007199254740992))))%Q
      with (q * (r * (1 - (1 # 9007199254740992))) * (1 - (1 # 9007199254740992)))%Q
      using relation Qeq by ring.
    apply Qmult_le_compat_r; [done|lra].
  - apply Qle_trans with (q * d * (1 + (1 # 9007199254740992)))%Q; [done|].
    setoid_replace (q * r * ((1 + (1 # 9007199254740992)) * (1 + (1 # 9007199254740992))))%Q
      with (q * (r * (1 + (1 # 9007199254740992))) * (1 + (1 # 9007199254740992)))%Q
      using relation Qeq by ring.
    apply Qmult_le_compat_r; [done|lra].
Qed.

Lemma inject_Z_nonneg (n : Z) : 0 ≤ n → (0 <= inject_Z n)%Q.
Proof. intros Hn. by rewrite Zle_Qle in Hn. Qed.

Lemma Q_half_sum_nonneg (a b : Z) : 0 ≤ a → 0 ≤ b → (0 <= inject_Z a + inject_Z b / 2)%Q.
Proof.
  intros Ha%inject_Z_nonneg Hb%inject_Z_nonneg.
  setoid_replace (inject_Z b / 2)%Q with (inject_Z b * (1 # 2))%Q using relation Qeq by field.
  lra.
Qed.

Lemma rounded_twice_quotient (q v : Q) (W : Z) (md : positive) (ed : Z) :
  (0 <= q)%Q → 0 < W →
  rounded (1 / inject_Z W) (fval md ed) → rounded (q * fval md ed) v →
  rounded_twice (q / inject_Z W) v.
Proof.
  intros Hq HW Hd Hv. pose proof (rounded_compose q _ _ v Hq Hd Hv) as Hr.
  assert (q * (1 / inject_Z W) == q / inject_Z W)%Q as Heq.
  { field. unfold Qeq, inject_Z. simpl. lia. }
  unfold rounded_twice in *. by rewrite <- Heq.
Qed.

(** The four values [convert_box] returns on binary64: the products of an
    exact number and a rounded reciprocal. *)
Lemma convert_box_b64_parts (W H x1 y1 w h : Z) :
  0 < W < 2 ^ 53 → 0 < H < 2 ^ 53 →
  0 ≤ x1 → 0 ≤ y1 → 0 ≤ w → 0 ≤ h →
  2 * x1 + w < 2 ^ 53 → 2 * y1 + h < 2 ^ 53 →
  ∃ (ax ay bw bh dw dh : float) (mdw mdh : positive) (edw edh : Z),
    convert_box (F:=float) (W, H) (x1, y1, w, h)
    = Ok ((ax * dw)%float, (ay * dh)%float, (bw * dw)%float, (bh * dh)%float) ∧
    (b64_exact ax (inject_Z x1 + inject_Z w / 2) ∧
     b64_exact ay (inject_Z y1 + inject_Z h / 2) ∧
     b64_exact bw (inject_Z w) ∧ b64_exact bh (inject_Z h)) ∧
    (Prim2SF dw = S754_finite false mdw edw ∧ Z.pos (digits2_pos mdw) = 53 ∧
     -105 ≤ edw ≤ -51 ∧ rounded (1 / inject_Z W) (fval mdw edw)) ∧
    (Prim2SF dh = S754_finite false mdh edh ∧ Z.pos (digits2_pos mdh) = 53 ∧
     -105 ≤ edh ≤ -51 ∧ rounded (1 / inject_Z H) (fval mdh edh)).
Proof.
  intros HW HH Hx1 Hy1 Hw Hh HKx HKy.
  destruct (b64_reciprocal W HW) as (sw & mdw & edw & Hsw & Hzw & Hdw & HDw & Hew & Hrw).
  destruct (b64_reciprocal H HH) as (sh & mdh & edh & Hsh & Hzh & Hdh & HDh & Heh & Hrh).
  destruct (b64_half_sum x1 w Hx1 Hw HKx) as (bx & bw & Hbx & Hbw & Hexw & Hexx).
  destruct (b64_half_sum y1 h Hy1 Hh HKy) as (by_ & bh & Hby & Hbh & Hexh & Hexy).
  exists (bx + bw / 2)%float, (by_ + bh / 2)%float, bw, bh, (1 / sw)%float, (1 / sh)%float,
    mdw, mdh, edw, edh.
  split; [|done].
  unfold convert_box. cbn [of_int fdiv fadd fmul f1 f2 b64_float fst snd].
  rewrite Hsw. cbn [mbind result_bind]. rewrite Hzw, Hsh. cbn [mbind result_bind].
  rewrite Hzh, Hbw. cbn [mbind result_bind]. change (is_zero 2) with false.
  rewrite Hbx, Hbh. cbn [mbind result_bind]. rewrite Hby. reflexivity.
Qed.

(** * The claims *)

Lemma Qeq_bool_pos (W : Z) : 0 < W → Qeq_bool (inject_Z W) 0 = false.
Proof.
  intros HW. apply not_true_is_false. intros E%Qeq_bool_iff.
  unfold Qeq, inject_Z in E. simpl in E. lia.
Qed.

(** In exact arithmetic [convert_box] returns the quotients themselves, so
    that the bounds of C1 below measure the rounding of binary64 and nothing
    else. *)
Lemma convert_box_exact (W H x1 y1 w h : Z) :
  0 < W → 0 < H →
  ∃ cx cy nw nh : Q,
    convert_box (F:=Q) (W, H) (x1, y1, w, h) = Ok (cx, cy, nw, nh) ∧
    (cx == (inject_Z x1 + inject_Z w / 2) / inject_Z W)%Q ∧
    (cy == (inject_Z y1 + inject_Z h / 2) / inject_Z H)%Q ∧
    (nw == inject_Z w / inject_Z W)%Q ∧
    (nh == inject_Z h / inject_Z H)%Q.
Proof.
  intros HW HH. unfold convert_box.
  cbn [of_int fdiv fadd fmul f1 f2 Q_float mbind result_bind fst snd].
  rewrite (Qeq_bool_pos W HW), (Qeq_bool_pos H HH).
  change (Qeq_bool 2 0) with false. cbv beta iota.
  do 4 eexists. split; [reflexivity|].
  assert (¬ (inject_Z W == 0)%Q) by (unfold Qeq, inject_Z; simpl; lia).
  assert (¬ (inject_Z H == 0)%Q) by (unfold Qeq, inject_Z; simpl; lia).
  repeat split; field; assumption.
Qed.

(** C1, as stated, fails: on binary64 the values are not exactly the
    quotients, and they are not returned for every positive size. A box as
    wide as its 49-pixel image gets the width [1 - 2^-53], not [49/49]; an
    image width of [10^400] is beyond the range of [float], and the
    conversion of [1. / size[0]] raises [OverflowError]. *)
Lemma convert_box_not_exact :
  (∃ (cx cy nw nh : float) (v : Q),
     convert_box (F:=float) (49, 49) (0, 0, 49, 49) = Ok (cx, cy, nw, nh) ∧
     b64_value nw = Some v ∧ (v == 1 - b64_u)%Q ∧
     ¬ (v == inject_Z 49 / inject_Z 49)%Q) ∧
  convert_box (F:=float) (10 ^ 400, 1) (0, 0, 0, 0) = Raise OverflowError.
Proof.
  split; [|vm_compute; reflexivity].
  do 5 eexists. split; [vm_compute; reflexivity|].
  split; [vm_compute; reflexivity|]. split; [reflexivity|].
  intros Heq. vm_compute in Heq. discriminate Heq.
Qed.

(** C1, amended. For an image size [(W, H)] with [0 < W, H < 2^53] and a box
    [(x1, y1, w, h)] of non-negative integers with [2*x1 + w < 2^53] and
    [2*y1 + h < 2^53], [convert_box] returns four finite binary64 numbers
    which are the quotients [(x1 + w/2)/W], [(y1 + h/2)/H], [w/W] and [h/H]
    up to two roundings: each lies between [q * (1 - 2^-53)^2] and
    [q * (1 + 2^-53)^2] for its quotient [q]. The integers and the sum
    [x1 + w/2] are exact in binary64; the two roundings are those of
    [1. / W] and of the product. [convert_box] is a function of its two
    arguments only. *)
Theorem convert_box_b64_rounded (W H x1 y1 w h : Z) :
  0 < W < 2 ^ 53 → 0 < H < 2 ^ 53 →
  0 ≤ x1 → 0 ≤ y1 → 0 ≤ w → 0 ≤ h →
  2 * x1 + w < 2 ^ 53 → 2 * y1 + h < 2 ^ 53 →
  ∃ (cx cy nw nh : float) (vx vy vw vh : Q),
    convert_box (F:=float) (W, H) (x1, y1, w, h) = Ok (cx, cy, nw, nh) ∧
    (b64_value cx = Some vx ∧ b64_value cy = Some vy ∧
     b64_value nw = Some vw ∧ b64_value nh = Some vh) ∧
    rounded_twice ((inject_Z x1 + inject_Z w / 2) / inject_Z W) vx ∧
    rounded_twice ((inject_Z y1 + inject_Z h / 2) / inject_Z H) vy ∧
    rounded_twice (inject_Z w / inject_Z W) vw ∧
    rounded_twice (inject_Z h / inject_Z H) vh.
Proof.
  intros HW HH Hx1 Hy1 Hw Hh HKx HKy.
  destruct (convert_box_b64_parts W H x1 y1 w h) as
    (ax & ay & bw & bh & dw & dh & mdw & mdh & edw & edh & Hbox
     & (Hax & Hay & Hbw & Hbh) & (Hdw & HDw & Hew & Hrw) & (Hdh & HDh & Heh & Hrh));
    [done..|].
  destruct (b64_mul_exact _ _ _ mdw edw Hax Hdw HDw Hew) as (vx & Hvx & Hrx).
  destruct (b64_mul_exact _ _ _ mdh edh Hay Hdh HDh Heh) as (vy & Hvy & Hry).
  destruct (b64_mul_exact _ _ _ mdw edw Hbw Hdw HDw Hew) as (vw & Hvw & Hrvw).
  destruct (b64_mul_exact _ _ _ mdh edh Hbh Hdh HDh Heh) as (vh & Hvh & Hrvh).
  exists (ax * dw)%float, (ay * dh)%float, (bw * dw)%float, (bh * dh)%float, vx, vy, vw, vh.
  split; [exact Hbox|]. split; [done|].
  split; [eapply rounded_twice_quotient; [by apply Q_half_sum_nonneg|lia|done..]|].
  split; [eapply rounded_twice_quotient; [by apply Q_half_sum_nonneg|lia|done..]|].
  split; (eapply rounded_twice_quotient; [by apply inject_Z_nonneg|lia|done..]).
Qed.

Lemma convert_box_b64_rounded_witness :
  (0 < 1000 < 2 ^ 53 ∧ 0 < 1000 < 2 ^ 53 ∧ 0 ≤ 100 ∧ 0 ≤ 100 ∧ 0 ≤ 50 ∧ 0 ≤ 50 ∧
   2 * 100 + 50 < 2 ^ 53 ∧ 2 * 100 + 50 < 2 ^ 53) ∧
  ∃ (cx cy nw nh : float) (vx vy vw vh : Q),
    convert_box (F:=float) (1000, 1000) (100, 100, 50, 50) = Ok (cx, cy, nw, nh) ∧
    (b64_value cx = Some vx ∧ b64_value cy = Some vy ∧
     b64_value nw = Some vw ∧ b64_value nh = Some vh) ∧
    rounded_twice ((inject_Z 100 + inject_Z 50 / 2) / inject_Z 1000) vx ∧
    rounded_twice ((inject_Z 100 + inject_Z 50 / 2) / inject_Z 1000) vy ∧
    rounded_twice (inject_Z 50 / inject_Z 1000) vw ∧
    rounded_twice (inject_Z 50 / inject_Z 1000) vh.
Proof.
  split; [lia|].
  apply (convert_box_b64_rounded 1000 1000 100 100 50 50); lia.
Defined.

(** C2 fails on the code. The record line [100,100,50,50,1,3,0,0] of an
    image of size [(1000, 1000)] should give exactly the output line
    [2 0.125000 0.125000 0.050000 0.050000]. The row loop does produce that
    line, on binary64, and the directory loop writes it whenever it has the
    image's name; but as written the loop raises [AttributeError] on the
    annotation file before reading it, and nothing is emitted. *)
Theorem scenario_line_not_emitted :
  let size := (1000, 1000) in
  let text := "100,100,50,50,1,3,0,0" in
  let line := "2 0.125000 0.125000 0.050000 0.050000" +:+ newline in
  let d := {| annotation_files := [("0001.txt", Ok text)];
              image_files := {[ "0001.jpg" := Ok size ]} |} in
  visdrone2yolo d None [] = ({| labels := ∅; stdout := [] |}, Raise AttributeError) ∧
  rows_of text = [["100"; "100"; "50"; "50"; "1"; "3"; "0"; "0"]] ∧
  annotation_lines (F:=float) size (Ok text) = Ok [line] ∧
  ∀ with_suffix : string → string → result string,
    with_suffix "0001.txt" ".jpg" = Ok "0001.jpg" →
    visdrone2yolo_with (F:=float) with_suffix d None []
    = ({| labels := {[ "0001.txt" := line ]}; stdout := [] |}, Ok ()).
Proof.
  intros size text line d.
  assert (Hlines : annotation_lines (F:=float) size (Ok text) = Ok [line])
    by (vm_compute; reflexivity).
  split; [reflexivity|]. split; [reflexivity|]. split; [exact Hlines|].
  intros with_suffix Hs.
  unfold visdrone2yolo_with. cbn [annotation_files d convert_files fst].
  rewrite Hs. unfold convert_annotation. cbn [image_files d snd fst].
  rewrite lookup_singleton_eq, Hlines. reflexivity.
Qed.

(** C3, as stated, fails: with a good line followed by a line whose category
    is not an integer, the good line alone would be accepted, yet the loop
    ends with [ValueError] and the file's output is not the surviving
    record: nothing is written, an error is printed. *)
Lemma parse_error_drops_whole_file :
  let size := (1000, 1000) in
  let good := ["100"; "100"; "50"; "50"; "1"; "3"; "0"; "0"] in
  let bad := ["100"; "100"; "50"; "50"; "1"; "x"; "0"; "0"] in
  let text := "100,100,50,50,1,3,0,0" +:+ newline +:+ "100,100,50,50,1,x,0,0" in
  let f := ("0001.txt", Ok text) in
  let d := {| annotation_files := [f]; image_files := {[ "0001.jpg" := Ok size ]} |} in
  let w := {| labels := ∅; stdout := [] |} in
  rows_of text = [good; bad] ∧
  accepted (F:=float) size good = Some ("2 0.125000 0.125000 0.050000 0.050000" +:+ newline) ∧
  convert_row (F:=float) size bad = Raise ValueError ∧
  annotation_lines (F:=float) size (Ok text) ≠ Ok (omap (accepted size) (rows_of text)) ∧
  convert_annotation (F:=float) d "0001.jpg" f w = print (AnnotationError "0001.txt" ValueError) w.
Proof. vm_compute. repeat split; congruence. Qed.

(** C3, amended. A line with fewer than 8 fields is passed over alone. A line
    on which the conversion raises (a category or coordinate field that is
    not an integer, on a line that gets that far) ends the whole annotation
    file: an error is printed, nothing is written for the file, and the loop
    goes on with the next file once it has the image's name. *)
Theorem parse_error_skips_file {F : Type} `{PyFloat F}
    (d : split_dir) (img : string) (f : string * result string) (w : world)
    (size : Z * Z) (text : string) :
  image_files d !! img = Some (Ok size) →
  f.2 = Ok text →
  (∀ rows1 row rows2,
      rows_of text = rows1 ++ row :: rows2 → (length row < 8)%nat →
      annotation_lines size f.2 = convert_rows size (rows1 ++ rows2) []) ∧
  (∀ row e,
      row ∈ rows_of text → convert_row size row = Raise e →
      ∃ e', convert_annotation d img f w = print (AnnotationError f.1 e') w) ∧
  (∀ with_suffix files,
      with_suffix f.1 ".jpg" = Ok img →
      convert_files with_suffix d (f :: files) w =
      convert_files with_suffix d files (convert_annotation d img f w)).
Proof.
  intros Himg Htext. repeat split.
  - intros rows1 row rows2 Hrows Hlen.
    unfold annotation_lines. rewrite Htext. cbn [mbind result_bind].
    rewrite Hrows. apply convert_rows_skip. by apply convert_row_short.
  - intros row e Hin Hrow.
    destruct (convert_rows_Raise_any size (rows_of text) row [] e Hin Hrow) as [e' He'].
    exists e'. unfold convert_annotation, annotation_lines.
    rewrite Himg, Htext. cbn [mbind result_bind]. by rewrite He'.
  - intros with_suffix files Hs. simpl. by rewrite Hs.
Qed.

Lemma parse_error_skips_file_witness :
  let size := (1000, 1000) in
  let text := "100,100,50,50,1,3,0,0" +:+ newline +:+ "100,100,50,50,1,x,0,0" in
  let f := ("0001.txt", Ok text) in
  let d := {| annotation_files := [f]; image_files := {[ "0001.jpg" := Ok size ]} |} in
  let w := {| labels := ∅; stdout := [] |} in
  (image_files d !! "0001.jpg" = Some (Ok size) ∧ f.2 = Ok text) ∧
  (∀ rows1 row rows2,
      rows_of text = rows1 ++ row :: rows2 → (length row < 8)%nat →
      annotation_lines (F:=float) size f.2 = convert_rows size (rows1 ++ rows2) []) ∧
  (∀ row e,
      row ∈ rows_of text → convert_row (F:=float) size row = Raise e →
      ∃ e', convert_annotation (F:=float) d "0001.jpg" f w
            = print (AnnotationError f.1 e') w) ∧
  (∀ with_suffix files,
      with_suffix f.1 ".jpg" = Ok "0001.jpg" →
      convert_files (F:=float) with_suffix d (f :: files) w =
      convert_files with_suffix d files (convert_annotation d "0001.jpg" f w)).
Proof.
  intros size text f d w. split; [split; reflexivity|].
  apply (parse_error_skips_file (F:=float) d "0001.jpg" f w size text);
    reflexivity.
Defined.

(** C4 fails on the code: [f.name.with_suffix('.jpg')] is evaluated on a
    [str], so the loop raises [AttributeError] at its first annotation file,
    before it looks for the image. Here the first file's image is missing and
    the second file is convertible: no warning is printed, the second file is
    not processed, and the exception leaves [visdrone2yolo]. With the image's
    name computed, the same loop prints the warning, passes over the first
    file only, converts the second and ends normally. *)
Theorem missing_image_aborts_split :
  let text := "100,100,50,50,1,3,0,0" in
  let line := "2 0.125000 0.125000 0.050000 0.050000" +:+ newline in
  let d := {| annotation_files := [("0001.txt", Ok text); ("0002.txt", Ok text)];
              image_files := {[ "0002.jpg" := Ok (1000, 1000) ]} |} in
  visdrone2yolo d None [] = ({| labels := ∅; stdout := [] |}, Raise AttributeError) ∧
  ∀ with_suffix : string → string → result string,
    with_suffix "0001.txt" ".jpg" = Ok "0001.jpg" →
    with_suffix "0002.txt" ".jpg" = Ok "0002.jpg" →
    visdrone2yolo_with (F:=float) with_suffix d None []
    = ({| labels := {[ "0002.txt" := line ]};
          stdout := [ImageNotFound "0001.jpg" "0001.txt"] |}, Ok ()).
Proof.
  intros text line d.
  assert (Hlines : annotation_lines (F:=float) (1000, 1000) (Ok text) = Ok [line])
    by (vm_compute; reflexivity).
  split; [apply (visdrone2yolo_raises d ("0001.txt", Ok text) [("0002.txt", Ok text)]);
          reflexivity|].
  intros with_suffix Hs1 Hs2.
  unfold visdrone2yolo_with. cbn [annotation_files d convert_files fst].
  rewrite Hs1, Hs2.
  rewrite (convert_annotation_missing d "0001.jpg") by reflexivity.
  unfold convert_annotation at 1. cbn [image_files d snd fst].
  rewrite lookup_singleton_eq, Hlines. reflexivity.
Qed.


(** What the two tests on zero do drop: a row whose category field has
    integer value 0, or whose score field is the text [0], is passed over
    whatever its other fields are, and the lines of the other rows are what
    they are without it. *)
Lemma zero_category_or_score_dropped {F : Type} `{PyFloat F}
    (size : Z * Z) (row : list string) :
  (∃ category, row !! 5%nat = Some category ∧ py_int category = Ok 0)
    ∨ row !! 4%nat = Some "0" →
  convert_row size row = Ok None ∧
  ∀ rows1 rows2 lines,
    convert_rows size (rows1 ++ row :: rows2) lines = convert_rows size (rows1 ++ rows2) lines.
Proof.
  intros Hz. pose proof (convert_row_zero size row Hz) as Hrow.
  split; [done|]. intros. by apply convert_rows_skip.
Qed.

(** C6. The class id an emitted line starts with is the category minus 1 and
    lies in [0..9]; a row whose category minus 1 is below 0 or above 9 is
    passed over, category 11 in particular. *)
Theorem class_id_remapped {F : Type} `{PyFloat F} (size : Z * Z) (row : list string) :
  (∀ l, convert_row size row = Ok (Some l) →
     ∃ category c rest,
       row !! 5%nat = Some category ∧ py_int category = Ok c ∧ 0 ≤ c - 1 ≤ 9 ∧
       l = str_int (c - 1) +:+ " " +:+ rest) ∧
  (∀ category c,
     row !! 5%nat = Some category → py_int category = Ok c →
     c - 1 < 0 ∨ 9 < c - 1 →
     convert_row size row = Ok None) ∧
  (∀ category,
     row !! 5%nat = Some category → py_int category = Ok 11 →
     convert_row size row = Ok None).
Proof.
  repeat split.
  - intros l Hl.
    apply convert_row_Some in Hl
      as (category & score & c & x1 & y1 & w & h & cx & cy & nw & nh & Hl).
    destruct Hl as (_ & H5 & _ & _ & _ & Hint & Hc & _ & _ & _ & _ & _ & _ & ->).
    exists category, c,
      (join_space [format6 cx; format6 cy; format6 nw; format6 nh] +:+ newline).
    repeat split; (done || lia).
  - intros category c H5 Hint Hc. by eapply convert_row_class_range.
  - intros category H5 Hint. eapply convert_row_class_range; [done..|]. lia.
Qed.

Lemma class_id_remapped_witness :
  let row := ["100"; "100"; "50"; "50"; "1"; "11"; "0"; "0"] in
  row !! 5%nat = Some "11" ∧ py_int "11" = Ok 11 ∧
  convert_row (F:=float) (1000, 1000) row = Ok None.
Proof.
  intros row.
  assert (H5 : row !! 5%nat = Some "11") by reflexivity.
  assert (Hint : py_int "11" = Ok 11) by reflexivity.
  split; [exact H5|]. split; [exact Hint|].
  exact (proj2 (proj2 (class_id_remapped (F:=float) (1000, 1000) row)) "11" H5 Hint).
Defined.

(** C7. A row is emitted only if the four values [convert_box] returns for
    it all lie in [0, 1], and its line then carries those four values as they
    are; a row for which one of them lies outside is passed over. *)
Theorem emitted_only_in_unit_range {F : Type} `{PyFloat F} (size : Z * Z) (row : list string) :
  (∀ l, convert_row size row = Ok (Some l) →
     ∃ cls x1 y1 w h cx cy nw nh,
       map_result py_int (take 4 row) = Ok [x1; y1; w; h] ∧
       convert_box size (x1, y1, w, h) = Ok (cx, cy, nw, nh) ∧
       in_unit cx = true ∧ in_unit cy = true ∧ in_unit nw = true ∧ in_unit nh = true ∧
       l = yolo_line cls (cx, cy, nw, nh)) ∧
  (∀ category c x1 y1 w h cx cy nw nh,
     row !! 5%nat = Some category → py_int category = Ok c →
     map_result py_int (take 4 row) = Ok [x1; y1; w; h] →
     convert_box size (x1, y1, w, h) = Ok (cx, cy, nw, nh) →
     in_unit cx = false ∨ in_unit cy = false ∨ in_unit nw = false ∨ in_unit nh = false →
     convert_row size row = Ok None).
Proof.
  split.
  - intros l Hl.
    apply convert_row_Some in Hl
      as (category & score & c & x1 & y1 & w & h & cx & cy & nw & nh & Hl).
    destruct Hl as (_ & _ & _ & _ & _ & _ & _ & Hints & Hbox & ? & ? & ? & ? & ->).
    by exists (c - 1), x1, y1, w, h, cx, cy, nw, nh.
  - intros category c x1 y1 w h cx cy nw nh H5 Hint Hints Hbox Hout.
    destruct (decide (length row < 8)%nat) as [Hlen|Hlen];
      [by apply convert_row_short|].
    destruct (decide (category = "0")) as [->|Hc];
      [apply convert_row_zero; left; eauto|].
    destruct (index_lt row 4) as (score & _ & H4); [lia|].
    destruct (decide (score = "0")) as [->|Hs];
      [apply convert_row_zero; by right|].
    destruct (decide (0 ≤ c - 1 ≤ 9)) as [Hcls|Hcls];
      [|eapply convert_row_class_range; [done..|lia]].
    rewrite (convert_row_checked size row category score c x1 y1 w h cx cy nw nh)
      by (done || lia).
    destruct Hout as [-> | [-> | [-> | ->]]]; by rewrite ?andb_false_r.
Qed.

Lemma emitted_only_in_unit_range_witness :
  let row := ["1000"; "128"; "64"; "64"; "1"; "3"; "0"; "0"] in
  (row !! 5%nat = Some "3" ∧ py_int "3" = Ok 3 ∧
   map_result py_int (take 4 row) = Ok [1000; 128; 64; 64] ∧
   convert_box (F:=float) (1024, 1024) (1000, 128, 64, 64)
     = Ok (1.0078125%float, 0.15625%float, 0.0625%float, 0.0625%float) ∧
   in_unit 1.0078125%float = false) ∧
  convert_row (F:=float) (1024, 1024) row = Ok None.
Proof.
  intros row.
  assert (H5 : row !! 5%nat = Some "3") by reflexivity.
  assert (Hint : py_int "3" = Ok 3) by reflexivity.
  assert (Hints : map_result py_int (take 4 row) = Ok [1000; 128; 64; 64]) by reflexivity.
  assert (Hbox : convert_box (F:=float) (1024, 1024) (1000, 128, 64, 64)
     = Ok (1.0078125%float, 0.15625%float, 0.0625%float, 0.0625%float))
    by (vm_compute; reflexivity).
  assert (Hout : in_unit 1.0078125%float = false) by reflexivity.
  split; [auto|].
  exact (proj2 (emitted_only_in_unit_range (F:=float) (1024, 1024) row)
           "3" 3 1000 128 64 64 _ _ _ _ H5 Hint Hints Hbox (or_introl Hout)).
Defined.

(** C8. When no record of an annotation file survives, the files of the
    labels directory are what they were: no file is created for it, not even
    an empty one. *)
Theorem no_survivor_no_file {F : Type} `{PyFloat F}
    (d : split_dir) (img : string) (f : string * result string) (w : world)
    (size : Z * Z) (text : string) :
  image_files d !! img = Some (Ok size) →
  f.2 = Ok text →
  omap (accepted size) (rows_of text) = [] →
  labels (convert_annotation d img f w) = labels w ∧
  (labels w !! f.1 = None → labels (convert_annotation d img f w) !! f.1 = None).
Proof.
  intros Himg Htext Hnone.
  assert (labels (convert_annotation d img f w) = labels w) as Hsame.
  { unfold convert_annotation, annotation_lines.
    rewrite Himg, Htext. cbn [mbind result_bind].
    destruct (convert_rows size (rows_of text) []) as [out|e] eqn:Hrows; [|done].
    apply convert_rows_Ok in Hrows as [-> _]. by rewrite Hnone. }
  split; [done|]. by rewrite Hsame.
Qed.

Lemma no_survivor_no_file_witness :
  let size := (1000, 1000) in
  let text := "100,100,50,50,1,0,0,0" +:+ newline +:+ "100,100,50,50,0,3,0,0"
              +:+ newline +:+ "100,100,50,50,1,11,0,0" +:+ newline +:+ "1,2,3" in
  let f := ("0001.txt", Ok text) in
  let d := {| annotation_files := [f]; image_files := {[ "0001.jpg" := Ok size ]} |} in
  let w := {| labels := ∅; stdout := [] |} in
  (image_files d !! "0001.jpg" = Some (Ok size) ∧ f.2 = Ok text ∧
   omap (accepted (F:=float) size) (rows_of text) = []) ∧
  labels (convert_annotation (F:=float) d "0001.jpg" f w) = labels w ∧
  (labels w !! f.1 = None →
   labels (convert_annotation (F:=float) d "0001.jpg" f w) !! f.1 = None).
Proof.
  intros size text f d w.
  assert (Hnone : omap (accepted (F:=float) size) (rows_of text) = [])
    by (vm_compute; reflexivity).
  split; [repeat split; (reflexivity || exact Hnone)|].
  exact (no_survivor_no_file (F:=float) d "0001.jpg" f w size text
           eq_refl eq_refl Hnone).
Defined.

(** C9. A second run over the same input, started on the labels directory
    the first run left, leaves the same files with the same contents, prints
    the same and ends the same way: for the converter as written, and however
    the image's name is computed from the annotation's. *)
Theorem rerun_same_files :
  (∀ d dir out,
     visdrone2yolo d (Some (labels (visdrone2yolo d dir out).1)) out
     = visdrone2yolo d dir out) ∧
  (∀ (F : Type) (HF : PyFloat F) (with_suffix : string → string → result string) d dir out,
     visdrone2yolo_with with_suffix d
       (Some (labels (visdrone2yolo_with with_suffix d dir out).1)) out
     = visdrone2yolo_with with_suffix d dir out).
Proof.
  split.
  - intros d dir out. apply visdrone2yolo_with_rerun.
  - intros F HF with_suffix d dir out. apply visdrone2yolo_with_rerun.
Qed.

(** C10. When an annotation file produces an output file, the file written
    under its name holds the serialisations of the accepted records of the
    input, one per accepted source line, in the order of the source lines,
    and nothing else. *)
Theorem output_in_source_order {F : Type} `{PyFloat F}
    (d : split_dir) (img : string) (f : string * result string) (w : world)
    (size : Z * Z) (text : string) (lines : list string) :
  image_files d !! img = Some (Ok size) →
  f.2 = Ok text →
  annotation_lines size f.2 = Ok lines →
  lines ≠ [] →
  lines = omap (accepted size) (rows_of text) ∧
  labels (convert_annotation d img f w) !! f.1
    = Some (String.concat "" (omap (accepted size) (rows_of text))).
Proof.
  intros Himg Htext Hlines Hne.
  assert (lines = omap (accepted size) (rows_of text)) as Heq.
  { unfold annotation_lines in Hlines. rewrite Htext in Hlines.
    cbn [mbind result_bind] in Hlines. by apply convert_rows_Ok in Hlines as [-> _]. }
  split; [done|].
  unfold convert_annotation. rewrite Himg, Hlines, <- Heq.
  destruct lines as [|l ls]; [done|].
  unfold write_lines. cbn [labels]. by rewrite lookup_insert_eq.
Qed.

Lemma output_in_source_order_witness :
  let size := (1000, 1000) in
  let text := "100,100,50,50,1,3,0,0" +:+ newline +:+ "100,100,50,50,1,0,0,0"
              +:+ newline +:+ "200,200,100,100,1,1,0,0" in
  let lines := ["2 0.125000 0.125000 0.050000 0.050000" +:+ newline;
                "0 0.250000 0.250000 0.100000 0.100000" +:+ newline] in
  let f := ("0001.txt", Ok text) in
  let d := {| annotation_files := [f]; image_files := {[ "0001.jpg" := Ok size ]} |} in
  let w := {| labels := ∅; stdout := [] |} in
  (image_files d !! "0001.jpg" = Some (Ok size) ∧ f.2 = Ok text ∧
   annotation_lines (F:=float) size f.2 = Ok lines ∧ lines ≠ []) ∧
  lines = omap (accepted (F:=float) size) (rows_of text) ∧
  labels (convert_annotation (F:=float) d "0001.jpg" f w) !! f.1
    = Some (String.concat "" (omap (accepted (F:=float) size) (rows_of text))).
Proof.
  intros size text lines f d w.
  assert (Hlines : annotation_lines (F:=float) size f.2 = Ok lines)
    by (vm_compute; reflexivity).
  assert (Hne : lines ≠ []) by discriminate.
  split; [repeat split; (reflexivity || assumption)|].
  exact (output_in_source_order (F:=float) d "0001.jpg" f w size text lines
           eq_refl eq_refl Hlines Hne).
Defined.

(** * Further properties of the code *)

(** ** The row loop on edge inputs *)

Lemma lstrip_by_all (p : ascii → bool) (s : string) :
  has_char (λ c, negb (p c)) s = false → lstrip_by p s = EmptyString.
Proof.
  induction s as [|c s IH]; simpl; [done|].
  intros [Hc Hs]%orb_false_elim. apply negb_false_iff in Hc. rewrite Hc. auto.
Qed.

(** X1. An annotation file that is empty or holds white space only gives no
    row: nothing is written for it and nothing is printed, whatever the
    image's size. *)
Theorem blank_file_no_output {F : Type} `{PyFloat F}
    (d : split_dir) (img : string) (f : string * result string) (w : world)
    (size : Z * Z) (text : string) :
  image_files d !! img = Some (Ok size) →
  f.2 = Ok text →
  has_char (λ c, negb (is_space c)) text = false →
  rows_of text = [] ∧ convert_annotation d img f w = w.
Proof.
  intros Himg Htext Hblank.
  assert (rows_of text = []) as Hrows.
  { unfold rows_of, strip. by rewrite lstrip_by_all. }
  split; [done|].
  unfold convert_annotation, annotation_lines.
  rewrite Himg, Htext. cbn [mbind result_bind]. by rewrite Hrows.
Qed.

Lemma blank_file_no_output_witness :
  let text := " " +:+ newline +:+ newline in
  let f := ("0001.txt", Ok text) in
  let d := {| annotation_files := [f]; image_files := {[ "0001.jpg" := Ok (0, 0) ]} |} in
  let w := {| labels := ∅; stdout := [] |} in
  (image_files d !! "0001.jpg" = Some (Ok (0, 0)) ∧ f.2 = Ok text ∧
   has_char (λ c, negb (is_space c)) text = false) ∧
  rows_of text = [] ∧ convert_annotation (F:=float) d "0001.jpg" f w = w.
Proof.
  intros text f d w. split; [auto|].
  exact (blank_file_no_output (F:=float) d "0001.jpg" f w (0, 0) text
           eq_refl eq_refl eq_refl).
Defined.

(** X2. Of a row with at least 8 fields only the first six are read: two
    such rows that agree on them are treated alike, whatever their
    truncation, occlusion and further fields hold. *)
Theorem fields_after_sixth_ignored {F : Type} `{PyFloat F}
    (size : Z * Z) (row row' : list string) :
  (8 ≤ length row)%nat → (8 ≤ length row')%nat →
  take 6 row = take 6 row' →
  convert_row size row = convert_row size row'.
Proof.
  intros Hlen Hlen' Htake.
  assert (∀ i, (i < 6)%nat → row !! i = row' !! i) as Hlook.
  { intros i Hi. rewrite <- (lookup_take_lt row 6 i), <- (lookup_take_lt row' 6 i) by done.
    by rewrite Htake. }
  assert (take 4 row = take 4 row') as Htake4.
  { change (take 4 row) with (take (4 `min` 6) row).
    change (take 4 row') with (take (4 `min` 6) row').
    by rewrite <- !take_take, Htake. }
  unfold convert_row, index.
  rewrite !bool_decide_false by lia.
  rewrite (Hlook 5%nat), (Hlook 4%nat), Htake4 by lia. reflexivity.
Qed.

Lemma fields_after_sixth_ignored_witness :
  let row := ["100"; "100"; "50"; "50"; "1"; "3"; "0"; "0"] in
  let row' := ["100"; "100"; "50"; "50"; "1"; "3"; "x"; ""; "y"] in
  ((8 ≤ length row)%nat ∧ (8 ≤ length row')%nat ∧ take 6 row = take 6 row') ∧
  convert_row (F:=float) (1000, 1000) row = convert_row (1000, 1000) row'.
Proof.
  intros row row'.
  assert (H8 : (8 ≤ length row)%nat) by (simpl; lia).
  assert (H8' : (8 ≤ length row')%nat) by (simpl; lia).
  split; [auto|].
  exact (fields_after_sixth_ignored (F:=float) (1000, 1000) row row' H8 H8' eq_refl).
Defined.

(** ** [convert_box] and the range check *)


(** A number that is at most [1 + 2^-53] is rounded to at most 1. *)
Lemma binary_round_aux_le_one (s : bool) (m : positive) (e r d n : Z) :
  n = Z.pos (digits2_pos m) - 53 →
  0 ≤ n → -1074 ≤ e + n → e + n ≤ -52 → 0 ≤ r < d →
  (e + n = -52 → 2 * (Z.pos m * d + r) ≤ (2 ^ 53 + 1) * (2 ^ n * d)) →
  ∃ (mr : positive) (er : Z),
    binary_round_aux prec emax s (Z.pos m) e (loc r d) = S754_finite s mr er ∧
    Z.pos (digits2_pos mr) = 53 ∧
    (er < -52 ∨ er = -52 ∧ Z.pos mr = 2 ^ 52).
Proof.
  intros Hn Hn0 Hlo Hhi Hr Hone.
  destruct (binary_round_aux_normal s m e r d n Hn Hn0 Hlo ltac:(lia) Hr)
    as (mr & er & M & Hbra & HD & Her & HM & Hnear & Htie).
  exists mr, er. split; [exact Hbra|]. split; [exact HD|].
  assert (0 < 2 ^ n) as HP by (apply Z.pow_pos_nonneg; lia).
  pose proof (digits2_pos_bounds m) as [Hml Hmh].
  replace (Z.pos (digits2_pos m)) with (n + 53) in Hml, Hmh by lia.
  replace (n + 53 - 1) with (n + 52) in Hml by lia.
  rewrite Z.pow_add_r in Hml, Hmh by lia.
  set (m1 := Z.pos m / 2 ^ n) in *.
  assert (2 ^ 52 ≤ m1 < 2 ^ 53) as Hm1.
  { split; [apply Z.div_le_lower_bound; lia|apply Z.div_lt_upper_bound; lia]. }
  pose proof (digits2_pos_bounds mr) as [Hrl Hrh]. rewrite HD in Hrl, Hrh.
  change (2 ^ (53 - 1)) with (2 ^ 52) in Hrl.
  destruct (Z.eq_dec (e + n) (-52)) as [He1|He1].
  - specialize (Hone He1).
    pose proof (Z.div_mod (Z.pos m) (2 ^ n) ltac:(lia)) as Hdm. fold m1 in Hdm.
    pose proof (Z.mod_pos_bound (Z.pos m) (2 ^ n) HP) as Hmod.
    assert (m1 = 2 ^ 52) as Hm1eq by nia.
    assert (M = m1) as HMeq.
    { apply Htie; [nia|by rewrite Hm1eq]. }
    right. lia.
  - destruct Her as [[-> <-]|[-> HM2]]; [left; lia|].
    destruct (Z.eq_dec (e + n + 1) (-52)); [right; lia|left; lia].
Qed.

Lemma pow2_le_one (e : Z) : e ≤ 0 → (pow2 e <= 1)%Q.
Proof. intros He. change 1%Q with (pow2 0). apply Qpower_le_compat_l; [done|lra]. Qed.

Lemma pow2_lt_inv (a b : Z) : (pow2 a < pow2 b)%Q → a < b.
Proof. intros Hlt. eapply Qpower_lt_compat_l_inv; [exact Hlt|lra]. Qed.

(** A product that is at most [1 + 2^-53] is at most 1 once rounded. *)
Lemma SFmul_le_one (mx my : positive) (ex ey : Z) :
  Z.pos (digits2_pos mx) = 53 → Z.pos (digits2_pos my) = 53 →
  -1074 ≤ ex + ey + 52 →
  (fval mx ex * fval my ey <= 1 + b64_u)%Q →
  ∃ (mr : positive) (er : Z),
    SFmul prec emax (S754_finite false mx ex) (S754_finite false my ey)
    = S754_finite false mr er ∧
    Z.pos (digits2_pos mr) = 53 ∧
    (er < -52 ∨ er = -52 ∧ Z.pos mr = 2 ^ 52).
Proof.
  intros Hx Hy Hlo Hle. cbn [SFmul xorb].
  pose proof (digits2_pos_bounds mx) as [Hxl Hxh]. rewrite Hx in Hxl, Hxh.
  pose proof (digits2_pos_bounds my) as [Hyl Hyh]. rewrite Hy in Hyl, Hyh.
  change (2 ^ (53 - 1)) with (2 ^ 52) in *.
  assert (104 < Z.pos (digits2_pos (mx * my))).
  { apply digits2_pos_ge. rewrite Pos2Z.inj_mul. change (2 ^ 104) with (2 ^ 52 * 2 ^ 52). nia. }
  set (n := Z.pos (digits2_pos (mx * my)) - 53).
  assert (0 < 2 ^ n) as HP by (apply Z.pow_pos_nonneg; lia).
  pose proof (digits2_pos_bounds (mx * my)) as [Hml _].
  replace (Z.pos (digits2_pos (mx * my)) - 1) with (n + 52) in Hml by lia.
  assert (fval mx ex * fval my ey == inject_Z (Z.pos (mx * my)) * pow2 (ex + ey))%Q as Hprod.
  { unfold fval. rewrite Pos2Z.inj_mul, inject_Z_mult, pow2_add. ring. }
  rewrite Hprod in Hle.
  pose proof (pow2_pos (ex + ey)) as Hpe.
  assert (ex + ey + n ≤ -52) as Hhi.
  { enough (n + 52 + (ex + ey) < 1) by lia. apply pow2_lt_inv.
    rewrite pow2_add, pow2_Z by lia.
    apply Qle_lt_trans with (inject_Z (Z.pos (mx * my)) * pow2 (ex + ey))%Q.
    - apply Qmult_le_compat_r; [by rewrite <- Zle_Qle|lra].
    - change (pow2 1) with 2%Q. unfold b64_u in Hle. lra. }
  change (loc_Exact) with (loc 0 1).
  apply (binary_round_aux_le_one false (mx * my) (ex + ey) 0 1 n); [done|lia..|].
  intros He1.
  assert (inject_Z (Z.pos (mx * my)) * pow2 (ex + ey) * pow2 (53 + n)
          <= (1 + b64_u) * pow2 (53 + n))%Q as Hle'
    by (apply Qmult_le_compat_r; [done|apply Qlt_le_weak, pow2_pos]).
  rewrite <- Qmult_assoc, <- pow2_add in Hle'.
  replace (ex + ey + (53 + n)) with 1 in Hle' by lia.
  rewrite pow2_add, (pow2_Z n) in Hle' by lia.
  change (pow2 1) with (inject_Z 2) in Hle'.
  assert ((1 + b64_u) * (pow2 53 * inject_Z (2 ^ n)) == inject_Z ((2 ^ 53 + 1) * 2 ^ n))%Q as Hr.
  { assert (inject_Z (2 ^ 53 + 1) == (1 + b64_u) * pow2 53)%Q as Hc by reflexivity.
    rewrite inject_Z_mult, Hc. ring. }
  rewrite Hr, <- inject_Z_mult, <- Zle_Qle in Hle'. lia.
Qed.

Lemma in_unit_zero (f : float) : Prim2SF f = S754_zero false → in_unit (F:=float) f = true.
Proof.
  intros Hf. unfold in_unit. cbn [fle f0 f1 b64_float]. by rewrite !leb_spec, Hf.
Qed.

Lemma pos_compare_cont_le (m c : positive) :
  Z.pos c ≤ Z.pos m →
  match PosDef.Pos.compare_cont Eq m c with Gt => false | _ => true end = true
  ↔ Z.pos m = Z.pos c.
Proof.
  intros Hle. pose proof (Pos.compare_spec m c) as Hc. unfold Pos.compare in Hc.
  destruct Hc as [Hc|Hc|Hc].
  - split; [intros _; by rewrite Hc|done].
  - lia.
  - split; [done|lia].
Qed.

(** What [0 <= x <= 1] tests on a positive normal number. *)
Lemma in_unit_finite (f : float) (m : positive) (e : Z) :
  Prim2SF f = S754_finite false m e → Z.pos (digits2_pos m) = 53 →
  in_unit (F:=float) f = true ↔ e < -52 ∨ e = -52 ∧ Z.pos m = 2 ^ 52.
Proof.
  intros Hf HD. unfold in_unit. cbn [fle f0 f1 b64_float]. rewrite !leb_spec, Hf.
  replace (Prim2SF 0) with (S754_zero false) by (vm_compute; reflexivity).
  replace (Prim2SF 1) with (S754_finite false 4503599627370496 (-52))
    by (vm_compute; reflexivity).
  assert (SFleb (S754_zero false) (S754_finite false m e) = true) as -> by reflexivity.
  rewrite andb_true_l. unfold SFleb, SFcompare.
  pose proof (digits2_pos_bounds m) as [Hl _]. rewrite HD in Hl.
  assert (2 ^ (53 - 1) = 4503599627370496) as H52 by (vm_compute; reflexivity).
  rewrite H52 in Hl. replace (53 - 1) with 52 in H52 by lia. rewrite H52. clear H52.
  destruct (Z.compare_spec e (-52)) as [He|He|He].
  - rewrite (pos_compare_cont_le m 4503599627370496 Hl). split; [by right|].
    intros [Hlt|[_ Heq]]; [lia|done].
  - split; [by left|done].
  - split; [done|]. intros [Hlt|[Heq _]]; lia.
Qed.

Lemma fval_le_one (m : positive) (e : Z) :
  Z.pos (digits2_pos m) = 53 → e < -52 ∨ e = -52 ∧ Z.pos m = 2 ^ 52 → (fval m e <= 1)%Q.
Proof.
  intros HD [He|[-> Hm]]; unfold fval.
  - pose proof (digits2_pos_bounds m) as [_ Hh]. rewrite HD in Hh.
    apply Qle_trans with (inject_Z (2 ^ 53) * pow2 e)%Q.
    + apply Qmult_le_compat_r; [rewrite <- Zle_Qle; lia|apply Qlt_le_weak, pow2_pos].
    + rewrite <- pow2_Z, <- pow2_add by lia. apply pow2_le_one. lia.
  - replace (Z.pos m) with 4503599627370496 by (rewrite Hm; vm_compute; reflexivity).
    apply Qle_lteq. right. reflexivity.
Qed.

Lemma b64_exact_proper (f : float) (q q' : Q) : (q == q')%Q → b64_exact f q → b64_exact f q'.
Proof.
  intros Hq [[Hz H0]|(m & e & Hf & HD & He & Hv)].
  - left. split; [done|]. by rewrite <- Hq.
  - right. exists m, e. repeat split; (done || lia || by rewrite <- Hq).
Qed.

(** Rounding does not change the outcome of the comparison with 1: the
    product [a * (1. / W)] is at most 1 exactly when the half-integer [a] is
    at most [W]. *)
Lemma b64_scaled_in_unit (a d : float) (K W : Z) (md : positive) (ed : Z) :
  b64_exact a (inject_Z K / 2) → 0 ≤ K → 0 < W ≤ 2 ^ 50 →
  Prim2SF d = S754_finite false md ed → Z.pos (digits2_pos md) = 53 → -105 ≤ ed ≤ -51 →
  rounded (1 / inject_Z W) (fval md ed) →
  in_unit (F:=float) (a * d)%float = true ↔ K ≤ 2 * W.
Proof.
  intros Ha HK HW Hd HDd Hed [Hd1 Hd2].
  assert (0 < inject_Z W)%Q as HWq by (unfold Qlt, inject_Z; simpl; lia).
  destruct Ha as [[Hz Hq]|(m & e & Hf & HD & He & Hq)].
  - assert (K = 0) as ->.
    { assert (inject_Z K == 0)%Q as HK0
        by (setoid_replace (inject_Z K) with (inject_Z K / 2 * 2)%Q using relation Qeq
              by field; rewrite Hq; ring).
      unfold Qeq, inject_Z in HK0. simpl in HK0. lia. }
    split; [lia|]. intros _. apply in_unit_zero. by rewrite mul_spec, Hz, Hd.
  - assert (0 <= inject_Z K / 2)%Q as Hq0
      by (apply Qle_shift_div_l; [lra|]; rewrite Qmult_0_l; by apply inject_Z_nonneg).
    pose proof (Qlt_le_weak _ _ (pow2_pos ed)) as Hpd.
    assert (0 <= fval md ed)%Q as Hfd
      by (unfold fval; apply Qmult_le_0_compat; [by apply inject_Z_nonneg|done]).
    assert (inject_Z K / 2 * (1 / inject_Z W) == inject_Z K / inject_Z (2 * W))%Q as Hquot.
    { rewrite inject_Z_mult. change (inject_Z 2) with 2%Q. field. lra. }
    assert (0 < inject_Z (2 * W))%Q as H2W by (unfold Qlt, inject_Z; simpl; lia).
    split.
    + intros Hin. destruct (Z.le_gt_cases K (2 * W)) as [|Hgt]; [done|exfalso].
      destruct (SFmul_value m md e ed) as (mr & er & Hmul & HDr & _ & [Hv1 _]);
        [done|done|lia..|].
      assert (Prim2SF (a * d)%float = S754_finite false mr er) as Hp
        by (rewrite mul_spec, Hf, Hd; exact Hmul).
      apply (in_unit_finite _ _ _ Hp HDr), (fval_le_one _ _ HDr) in Hin.
      rewrite Hq in Hv1.
      assert ((1 + (1 # 2251799813685248)) <= inject_Z K / 2 * (1 / inject_Z W))%Q as Hbig.
      { rewrite Hquot. apply Qle_shift_div_l; [done|].
        assert (inject_Z (2 * W) + 1 <= inject_Z K)%Q
          by (change 1%Q with (inject_Z 1); rewrite <- inject_Z_plus, <- Zle_Qle; lia).
        assert (inject_Z (2 * W) <= 2251799813685248 # 1)%Q
          by (change (2251799813685248 # 1)%Q with (inject_Z 2251799813685248);
              rewrite <- Zle_Qle; lia).
        lra. }
      assert (inject_Z K / 2 * (1 / inject_Z W) * (1 - b64_u) <= inject_Z K / 2 * fval md ed)%Q
        as Hstep.
      { rewrite <- Qmult_assoc, !(Qmult_comm (inject_Z K / 2)).
        by apply Qmult_le_compat_r. }
      assert ((1 + (1 # 2251799813685248)) * (1 - b64_u) * (1 - b64_u)
              <= inject_Z K / 2 * fval md ed * (1 - b64_u))%Q as Hlow.
      { apply Qmult_le_compat_r; [|unfold b64_u; lra].
        eapply Qle_trans; [|exact Hstep].
        apply Qmult_le_compat_r; [done|unfold b64_u; lra]. }
      unfold b64_u in *. lra.
    + intros HKW.
      destruct (SFmul_le_one m md e ed) as (mr & er & Hmul & HDr & Hcond); [done|done|lia|..].
      * rewrite Hq.
        apply Qle_trans with (inject_Z K / 2 * (1 / inject_Z W * (1 + b64_u)))%Q.
        { rewrite !(Qmult_comm (inject_Z K / 2)). by apply Qmult_le_compat_r. }
        rewrite Qmult_assoc, Hquot.
        setoid_replace (1 + b64_u)%Q with (1 * (1 + b64_u))%Q using relation Qeq at 2 by ring.
        apply Qmult_le_compat_r; [|unfold b64_u; lra].
        apply Qle_shift_div_r; [done|]. rewrite Qmult_1_l, <- Zle_Qle. lia.
      * assert (Prim2SF (a * d)%float = S754_finite false mr er) as Hp
          by (rewrite mul_spec, Hf, Hd; exact Hmul).
        by apply (in_unit_finite _ _ _ Hp HDr).
Qed.

(** X3. On binary64, for an image of at most 2^50 pixels a side and a box of
    non-negative integers, the range check on the four values of
    [convert_box] passes exactly when the exact quotients are at most 1: the
    centre of the box lies in the image and the box is not larger than the
    image. Rounding never changes the outcome. The box itself may reach
    beyond the edge of the image. *)
Theorem range_check_b64 (W H x1 y1 w h : Z) :
  0 < W ≤ 2 ^ 50 → 0 < H ≤ 2 ^ 50 →
  0 ≤ x1 → 0 ≤ y1 → 0 ≤ w → 0 ≤ h →
  2 * x1 + w < 2 ^ 53 → 2 * y1 + h < 2 ^ 53 →
  ∃ cx cy nw nh : float,
    convert_box (F:=float) (W, H) (x1, y1, w, h) = Ok (cx, cy, nw, nh) ∧
    (in_unit cx && in_unit cy && in_unit nw && in_unit nh = true ↔
     2 * x1 + w ≤ 2 * W ∧ 2 * y1 + h ≤ 2 * H ∧ w ≤ W ∧ h ≤ H).
Proof.
  intros HW HH Hx1 Hy1 Hw Hh HKx HKy.
  destruct (convert_box_b64_parts W H x1 y1 w h) as
    (ax & ay & bw & bh & dw & dh & mdw & mdh & edw & edh & Hbox
     & (Hax & Hay & Hbw & Hbh) & (Hdw & HDw & Hew & Hrw) & (Hdh & HDh & Heh & Hrh));
    [lia|lia|done..|].
  exists (ax * dw)%float, (ay * dh)%float, (bw * dw)%float, (bh * dh)%float.
  split; [exact Hbox|].
  assert (∀ a b : Z, (inject_Z a + inject_Z b / 2 == inject_Z (2 * a + b) / 2)%Q) as Hhalf.
  { intros a b. rewrite inject_Z_plus, inject_Z_mult. change (inject_Z 2) with 2%Q. field. }
  assert (∀ a : Z, (inject_Z a == inject_Z (2 * a) / 2)%Q) as Hdbl.
  { intros a. rewrite inject_Z_mult. change (inject_Z 2) with 2%Q. field. }
  apply (b64_exact_proper _ _ _ (Hhalf x1 w)) in Hax.
  apply (b64_exact_proper _ _ _ (Hhalf y1 h)) in Hay.
  apply (b64_exact_proper _ _ _ (Hdbl w)) in Hbw.
  apply (b64_exact_proper _ _ _ (Hdbl h)) in Hbh.
  rewrite !andb_true_iff.
  rewrite (b64_scaled_in_unit _ _ _ W mdw edw Hax) by (done || lia).
  rewrite (b64_scaled_in_unit _ _ _ H mdh edh Hay) by (done || lia).
  rewrite (b64_scaled_in_unit _ _ _ W mdw edw Hbw) by (done || lia).
  rewrite (b64_scaled_in_unit _ _ _ H mdh edh Hbh) by (done || lia).
  lia.
Qed.

Lemma range_check_b64_witness :
  (0 < 1000 ≤ 2 ^ 50 ∧ 0 < 1000 ≤ 2 ^ 50 ∧ 0 ≤ 900 ∧ 0 ≤ 100 ∧ 0 ≤ 150 ∧ 0 ≤ 50 ∧
   2 * 900 + 150 < 2 ^ 53 ∧ 2 * 100 + 50 < 2 ^ 53) ∧
  ∃ cx cy nw nh : float,
    convert_box (F:=float) (1000, 1000) (900, 100, 150, 50) = Ok (cx, cy, nw, nh) ∧
    (in_unit cx && in_unit cy && in_unit nw && in_unit nh = true ↔
     2 * 900 + 150 ≤ 2 * 1000 ∧ 2 * 100 + 50 ≤ 2 * 1000 ∧ 150 ≤ 1000 ∧ 50 ≤ 1000).
Proof.
  split; [lia|].
  apply (range_check_b64 1000 1000 900 100 150 50); lia.
Defined.


Section ZeroWidth.
Context {F : Type} `{PyFloat F}.
Hypothesis zero_width : ∀ (h : Z) (box : Z * Z * Z * Z),
  convert_box (0, h) box = Raise ZeroDivisionError.

Lemma convert_row_zero_width size row l h :
  convert_row size row = Ok (Some l) →
  convert_row (0, h) row = Raise ZeroDivisionError.
Proof.
  intros Hl.
  apply convert_row_Some in Hl
    as (category & score & c & x1 & y1 & w & h' & cx & cy & nw & nh & Hl).
  destruct Hl as (Hlen & H5%index_Ok & Hc%eqb_false_ne & H4%index_Ok & Hs%eqb_false_ne
                  & Hint & Hcls & Hints & _).
  unfold convert_row.
  rewrite bool_decide_false by lia.
  rewrite H5. cbn [mbind result_bind]. rewrite Hc, H4. cbn [mbind result_bind].
  rewrite Hs, Hint. cbn [mbind result_bind].
  replace ((c - 1 <? 0) || (9 <? c - 1)) with false
    by (symmetry; apply orb_false_intro; apply Z.ltb_ge; lia).
  rewrite Hints. cbn [mbind result_bind]. by rewrite zero_width.
Qed.
End ZeroWidth.

Lemma convert_box_b64_zero_width (h : Z) (box : Z * Z * Z * Z) :
  convert_box (F:=float) (0, h) box = Raise ZeroDivisionError.
Proof. by destruct box as [[[x1 y1] w] h']. Qed.

Lemma convert_box_Q_zero_width (h : Z) (box : Z * Z * Z * Z) :
  convert_box (F:=Q) (0, h) box = Raise ZeroDivisionError.
Proof. by destruct box as [[[x1 y1] w] h']. Qed.

(** X4. For an image of width 0, [convert_box] raises [ZeroDivisionError]
    before it looks at the box, on binary64 and in exact arithmetic; a row
    that would be emitted for some image is then an error: its annotation
    file is abandoned with an error message and nothing is written for it. *)
Theorem zero_width_image_abandons_file :
  (∀ h box, convert_box (F:=float) (0, h) box = Raise ZeroDivisionError) ∧
  (∀ h box, convert_box (F:=Q) (0, h) box = Raise ZeroDivisionError) ∧
  (∀ (d : split_dir) (img : string) (f : string * result string) (w : world)
     (h : Z) (text : string) (row : list string) (size : Z * Z) (l : string),
     image_files d !! img = Some (Ok (0, h)) →
     f.2 = Ok text →
     row ∈ rows_of text →
     convert_row (F:=float) size row = Ok (Some l) →
     convert_row (F:=float) (0, h) row = Raise ZeroDivisionError ∧
     ∃ e, convert_annotation (F:=float) d img f w = print (AnnotationError f.1 e) w).
Proof.
  split; [apply convert_box_b64_zero_width|].
  split; [apply convert_box_Q_zero_width|].
  intros d img f w h text row size l Himg Htext Hin Hl.
  pose proof (convert_row_zero_width (F:=float) convert_box_b64_zero_width size row l h Hl)
    as Hrow.
  split; [done|].
  destruct (convert_rows_Raise_any (0, h) (rows_of text) row [] _ Hin Hrow) as [e He].
  exists e. unfold convert_annotation, annotation_lines.
  rewrite Himg, Htext. cbn [mbind result_bind]. by rewrite He.
Qed.

Lemma zero_width_image_abandons_file_witness :
  let text := "100,100,50,50,1,3,0,0" in
  let row := ["100"; "100"; "50"; "50"; "1"; "3"; "0"; "0"] in
  let l := "2 0.125000 0.125000 0.050000 0.050000" +:+ newline in
  let f := ("0001.txt", Ok text) in
  let d := {| annotation_files := [f]; image_files := {[ "0001.jpg" := Ok (0, 480) ]} |} in
  let w := {| labels := ∅; stdout := [] |} in
  (image_files d !! "0001.jpg" = Some (Ok (0, 480)) ∧ f.2 = Ok text ∧
   row ∈ rows_of text ∧ convert_row (F:=float) (1000, 1000) row = Ok (Some l)) ∧
  convert_row (F:=float) (0, 480) row = Raise ZeroDivisionError ∧
  ∃ e, convert_annotation (F:=float) d "0001.jpg" f w = print (AnnotationError f.1 e) w.
Proof.
  intros text row l f d w.
  assert (Hin : row ∈ rows_of text) by (change (row ∈ [row]); constructor).
  assert (Hl : convert_row (F:=float) (1000, 1000) row = Ok (Some l))
    by (vm_compute; reflexivity).
  split; [auto|].
  exact (proj2 (proj2 zero_width_image_abandons_file) d "0001.jpg" f w 480 text row
           (1000, 1000) l eq_refl eq_refl Hin Hl).
Defined.

(** ** The directory loop over a whole split *)

Lemma lookup_apply_writes_notin l k (m : gmap string string) :
  k ∉ l.*1 → apply_writes l m !! k = m !! k.
Proof.
  revert m. induction l as [|[k' v] l IH]; intros m Hk; simpl; [done|].
  simpl in Hk. apply not_elem_of_cons in Hk as [Hne Hk].
  rewrite IH by done. by rewrite lookup_insert_ne.
Qed.

Lemma apply_writes_is_Some l k (m : gmap string string) :
  is_Some (m !! k) → is_Some (apply_writes l m !! k).
Proof.
  revert m. induction l as [|[k' v] l IH]; intros m Hk; simpl; [done|].
  apply IH. destruct (decide (k' = k)) as [->|Hne].
  - rewrite lookup_insert_eq. eauto.
  - by rewrite lookup_insert_ne.
Qed.

Section SplitFacts.
Context {F : Type} `{PyFloat F}.
Variable with_suffix : string → string → result string.
Implicit Types (d : split_dir) (f : string * result string).
Implicit Types (files : list (string * result string)).

(** The files a run writes are named after annotation files, in their order. *)
Lemma run_writes_names d files :
  (run_writes with_suffix d files).*1 `sublist_of` files.*1.
Proof.
  induction files as [|f files IH]; simpl; [done|].
  destruct (with_suffix f.1 ".jpg") as [img|e]; [|apply sublist_nil_l].
  destruct (file_output d img f) as [c|]; simpl.
  - by apply sublist_skip.
  - by apply sublist_cons.
Qed.

Lemma visdrone2yolo_with_eq d dir out :
  visdrone2yolo_with with_suffix d dir out =
  ({| labels := apply_writes (run_writes with_suffix d (annotation_files d)) (default ∅ dir);
      stdout := out ++ run_messages with_suffix d (annotation_files d) |},
   run_outcome with_suffix (annotation_files d)).
Proof. unfold visdrone2yolo_with. by rewrite convert_files_eq. Qed.
End SplitFacts.

(** X5. A run over a split only ever writes files named after its annotation
    files: every other file of the labels directory is after the run what it
    was before, and no file that was there is removed, not even the label
    file of an annotation file that no longer yields a record. However the
    image's name is computed. *)
Theorem run_keeps_other_files {F : Type} `{PyFloat F}
    (with_suffix : string → string → result string)
    (d : split_dir) (dir : option (gmap string string)) (out : list message) (name : string) :
  let after := labels (visdrone2yolo_with with_suffix d dir out).1 in
  (name ∉ (annotation_files d).*1 → after !! name = default ∅ dir !! name) ∧
  (is_Some (default ∅ dir !! name) → is_Some (after !! name)) ∧
  ((∀ f img, f ∈ annotation_files d → f.1 = name →
             with_suffix f.1 ".jpg" = Ok img → file_output d img f = None) →
   after !! name = default ∅ dir !! name).
Proof.
  intros after. unfold after. rewrite visdrone2yolo_with_eq. simpl.
  split; [|split].
  - intros Hname. apply lookup_apply_writes_notin.
    intros Hin. apply Hname.
    eapply elem_of_sublist; [done|apply (run_writes_names with_suffix)].
  - apply apply_writes_is_Some.
  - intros Hnone. apply lookup_apply_writes_notin.
    generalize (annotation_files d) Hnone. clear Hnone.
    intros files. induction files as [|f files IH]; intros Hnone; simpl.
    + apply not_elem_of_nil.
    + destruct (with_suffix f.1 ".jpg") as [img|e] eqn:Hs; [|apply not_elem_of_nil].
      rewrite fmap_app. apply not_elem_of_app. split.
      * destruct (file_output d img f) as [c|] eqn:Hout; [|apply not_elem_of_nil].
        simpl. apply not_elem_of_cons. split; [|apply not_elem_of_nil].
        intros ->. rewrite (Hnone f img) in Hout; [done| |done|done].
        apply elem_of_cons. by left.
      * apply IH. intros f' img' Hf'. apply Hnone, elem_of_cons. by right.
Qed.

Lemma run_keeps_other_files_witness :
  let f := ("0001.txt", Ok "100,100,50,50,1,0,0,0") in
  let d := {| annotation_files := [f]; image_files := {[ "0001.jpg" := Ok (1000, 1000) ]} |} in
  let dir := Some {[ "0001.txt" := "2 0.5 0.5 0.1 0.1" ]} in
  let with_suffix := λ _ _ : string, Ok "0001.jpg" in
  labels (visdrone2yolo_with (F:=float) with_suffix d dir []).1 !! "0001.txt"
  = Some "2 0.5 0.5 0.1 0.1".
Proof.
  intros f d dir with_suffix.
  refine (eq_trans (proj2 (proj2 (run_keeps_other_files (F:=float) with_suffix d dir []
                                    "0001.txt")) _) _); [|reflexivity].
  intros f' img Hf' _ [= <-].
  apply list_elem_of_singleton in Hf' as ->. reflexivity.
Defined.

(** ** The script *)

Section MainFacts.
Context {F : Type} `{PyFloat F}.
Variable with_suffix : string → string → result string.
Implicit Types (root : gmap string split_dir) (todo : list string) (w : root_world).

(** A split that is not gone through, or has no annotations directory, keeps
    its labels directory as it is, absent if it was. *)
Lemma convert_splits_untouched root todo w s :
  s ∉ todo ∨ root !! s = None →
  label_dirs (convert_splits with_suffix root todo w).1 !! s = label_dirs w !! s.
Proof.
  revert w. induction todo as [|s' todo IH]; intros w Hs; simpl; [done|].
  assert (s ∉ todo ∨ root !! s = None) as Hs'.
  { destruct Hs as [Hs|Hs]; [left|by right]. by apply not_elem_of_cons in Hs as [_ ?]. }
  destruct (root !! s') as [d|] eqn:Hd; [|by apply IH].
  assert (s' ≠ s) as Hne.
  { intros ->. destruct Hs as [Hs|Hs]; [|congruence].
    apply Hs, elem_of_cons. by left. }
  destruct (visdrone2yolo_with with_suffix d (label_dirs w !! s') (root_stdout w)).2.
  - rewrite IH by done. simpl. by rewrite lookup_insert_ne.
  - simpl. by rewrite lookup_insert_ne.
Qed.

(** Started on the labels directories a run has left, a second run leaves
    them as they are, prints the same and ends the same way. *)
Lemma convert_splits_rerun root todo w (dirs : gmap string (gmap string string)) :
  NoDup todo →
  (∀ s, s ∈ todo →
        dirs !! s = label_dirs (convert_splits with_suffix root todo w).1 !! s) →
  convert_splits with_suffix root todo {| label_dirs := dirs; root_stdout := root_stdout w |}
  = ({| label_dirs := dirs;
        root_stdout := root_stdout (convert_splits with_suffix root todo w).1 |},
     (convert_splits with_suffix root todo w).2).
Proof.
  revert w. induction todo as [|s todo IH]; intros w Hnd Hdirs; simpl in *; [done|].
  apply NoDup_cons in Hnd as [Hs Hnd].
  destruct (root !! s) as [d|] eqn:Hd.
  2:{ apply IH; [done|]. intros s' Hs'. apply Hdirs, elem_of_cons. by right. }
  set (r := visdrone2yolo_with with_suffix d (label_dirs w !! s) (root_stdout w)) in *.
  assert (dirs !! s = Some (labels r.1)) as Hdir.
  { rewrite Hdirs by (apply elem_of_cons; by left).
    destruct r.2.
    - rewrite convert_splits_untouched by (by left). simpl. by rewrite lookup_insert_eq.
    - simpl. by rewrite lookup_insert_eq. }
  assert (visdrone2yolo_with with_suffix d (Some (labels r.1)) (root_stdout w) = r) as Hre
    by apply visdrone2yolo_with_rerun.
  rewrite Hdir, Hre, (insert_id dirs s) by done.
  destruct r.2 eqn:Hr; [|done].
  apply (IH {| label_dirs := <[s:=labels r.1]> (label_dirs w); root_stdout := stdout r.1 |});
    [done|].
  intros s' Hs'. apply Hdirs, elem_of_cons. by right.
Qed.
End MainFacts.

Lemma NoDup_splits : NoDup splits.
Proof.
  unfold splits. repeat (apply NoDup_cons; split); try apply NoDup_nil_2.
  - intros Hin. repeat (apply elem_of_cons in Hin as [Hin|Hin]; [discriminate Hin|]).
    by apply elem_of_nil in Hin.
  - intros Hin. repeat (apply elem_of_cons in Hin as [Hin|Hin]; [discriminate Hin|]).
    by apply elem_of_nil in Hin.
  - intros Hin. by apply elem_of_nil in Hin.
Qed.

(** X7. The script creates and changes labels directories only for the splits
    [train], [val] and [test] whose annotations directory exists: for any
    other name, and for a split without annotations directory, what is under
    [labels] stays as it is, absent if it was. However the image's name is
    computed. *)
Theorem main_leaves_absent_splits {F : Type} `{PyFloat F}
    (with_suffix : string → string → result string)
    (root : gmap string split_dir) (w : root_world) (s : string) :
  s ∉ splits ∨ root !! s = None →
  label_dirs (main_with with_suffix root w).1 !! s = label_dirs w !! s.
Proof. apply convert_splits_untouched. Qed.

Lemma main_leaves_absent_splits_witness :
  let d := {| annotation_files := [("0001.txt", Ok "100,100,50,50,1,3,0,0")];
              image_files := {[ "0001.jpg" := Ok (1000, 1000) ]} |} in
  let root : gmap string split_dir := {[ "train" := d ]} in
  let w := {| label_dirs := ∅; root_stdout := [] |} in
  let with_suffix := λ _ _ : string, Ok "0001.jpg" in
  ("val" ∉ splits ∨ root !! "val" = None) ∧
  label_dirs (main_with (F:=float) with_suffix root w).1 !! "val" = None.
Proof.
  intros d root w with_suffix.
  assert (Hval : "val" ∉ splits ∨ root !! "val" = None) by (right; reflexivity).
  split; [exact Hval|].
  exact (main_leaves_absent_splits (F:=float) with_suffix root w "val" Hval).
Defined.

(** X8. Running the script a second time on the same dataset, started on the
    labels directories the first run left, leaves every labels directory as
    it is, prints the same and ends the same way. However the image's name
    is computed. *)
Theorem main_rerun_same_files {F : Type} `{PyFloat F}
    (with_suffix : string → string → result string)
    (root : gmap string split_dir) (w : root_world) :
  let r := main_with with_suffix root w in
  main_with with_suffix root {| label_dirs := label_dirs r.1; root_stdout := root_stdout w |}
  = r.
Proof.
  intros r. unfold main_with.
  rewrite (convert_splits_rerun with_suffix root splits w (label_dirs r.1) NoDup_splits)
    by done.
  unfold r, main_with. by destruct (convert_splits with_suffix root splits w) as [[] ?].
Qed.

(** As written, a split's run ends with [AttributeError] exactly when the
    split has an annotation file. *)
Lemma visdrone2yolo_outcome d dir out :
  (visdrone2yolo d dir out).2
  = match annotation_files d with [] => Ok () | _ => Raise AttributeError end.
Proof.
  unfold visdrone2yolo, visdrone2yolo_with. by destruct (annotation_files d).
Qed.

Lemma main_as_written_todo (root : gmap string split_dir) (todo : list string) (w : root_world) :
  let r := convert_splits (F:=float) str_with_suffix root todo w in
  root_stdout r.1 = root_stdout w ∧
  (∀ s, label_dirs r.1 !! s = label_dirs w !! s ∨
        (label_dirs w !! s = None ∧ label_dirs r.1 !! s = Some ∅ ∧
         s ∈ todo ∧ is_Some (root !! s))) ∧
  (r.2 = Raise AttributeError ↔
   ∃ s d, s ∈ todo ∧ root !! s = Some d ∧ annotation_files d ≠ []) ∧
  (r.2 = Ok () ∨ r.2 = Raise AttributeError) ∧
  (r.2 = Ok () →
   ∀ s, s ∈ todo → is_Some (root !! s) → is_Some (label_dirs r.1 !! s)).
Proof.
  revert w. induction todo as [|s0 todo IH]; intros w; simpl.
  { split; [done|]. split; [by left|]. split; [|split; [by left|]].
    - split; [done|]. intros (s & d & Hs & _). by apply elem_of_nil in Hs.
    - intros _ s Hs. by apply elem_of_nil in Hs. }
  destruct (root !! s0) as [d|] eqn:Hd.
  2:{ destruct (IH w) as (Hout & Hdirs & Hraise & Hcases & Hok).
      split; [done|]. split; [|split; [|split; [done|]]].
      - intros s. destruct (Hdirs s) as [?|(?&?&?&?)]; [by left|right].
        split; [done|]. split; [done|]. split; [apply elem_of_cons; by right|done].
      - rewrite Hraise. split.
        + intros (s & d & Hs & Hsd & Hne). exists s, d. split; [|done].
          apply elem_of_cons. by right.
        + intros (s & d & [->|Hs]%elem_of_cons & Hsd & Hne); [congruence|eauto].
      - intros Hr s [->|Hs]%elem_of_cons [d' Hd']; [congruence|]. apply Hok; eauto. }
  fold (visdrone2yolo d (label_dirs w !! s0) (root_stdout w)).
  rewrite visdrone2yolo_outcome, visdrone2yolo_writes_nothing. simpl.
  set (w' := {| label_dirs := <[s0:=default ∅ (label_dirs w !! s0)]> (label_dirs w);
                root_stdout := root_stdout w |}).
  assert (∀ s, label_dirs w' !! s = label_dirs w !! s ∨
               (label_dirs w !! s = None ∧ label_dirs w' !! s = Some ∅ ∧ s = s0)) as Hw'.
  { intros s. unfold w'. simpl. destruct (decide (s0 = s)) as [<-|Hne].
    - rewrite lookup_insert_eq. destruct (label_dirs w !! s0) eqn:Hl; [by left|by right].
    - rewrite lookup_insert_ne by done. by left. }
  destruct (annotation_files d) as [|f files] eqn:Hfiles.
  - destruct (IH w') as (Hout & Hdirs & Hraise & Hcases & Hok).
    split; [done|]. split; [|split; [|split; [done|]]].
    + intros s. destruct (Hdirs s) as [Heq|(Hn & Hs & Hin & Hroot)].
      * rewrite Heq. destruct (Hw' s) as [?|(?&?&->)]; [by left|right].
        split; [done|]. split; [done|]. split; [apply elem_of_cons; by left|eauto].
      * destruct (Hw' s) as [Heq'|(?&Hsome&_)]; [|congruence].
        right. rewrite <- Heq'. split; [done|]. split; [done|].
        split; [apply elem_of_cons; by right|done].
    + rewrite Hraise. split.
      * intros (s & d' & Hs & Hsd & Hne). exists s, d'. split; [|done].
        apply elem_of_cons. by right.
      * intros (s & d' & [->|Hs]%elem_of_cons & Hsd & Hne); [congruence|eauto].
    + intros Hr s [->|Hs]%elem_of_cons Hroot.
      * destruct (Hdirs s0) as [Heq|(_ & -> & _)]; [|eauto].
        rewrite Heq. unfold w'. simpl. rewrite lookup_insert_eq. eauto.
      * by apply Hok.
  - simpl. split; [done|]. split; [|split; [|split; [by right|]]].
    + intros s. destruct (Hw' s) as [?|(?&?&->)]; [by left|right].
      split; [done|]. split; [done|]. split; [apply elem_of_cons; by left|eauto].
    + split; [|done]. intros _. exists s0, d.
      split; [apply elem_of_cons; by left|]. split; [done|]. by rewrite Hfiles.
    + discriminate.
Qed.

(** X9. The script as written prints nothing and changes no labels directory
    that exists; at most it creates empty ones, for splits whose annotations
    directory exists. It ends with [AttributeError] when one of the three
    splits has an annotation file and normally otherwise, and when it ends
    normally every split with an annotations directory has its labels
    directory. *)
Theorem main_as_written (root : gmap string split_dir) (w : root_world) :
  let r := main root w in
  root_stdout r.1 = root_stdout w ∧
  (∀ s, label_dirs r.1 !! s = label_dirs w !! s ∨
        (label_dirs w !! s = None ∧ label_dirs r.1 !! s = Some ∅ ∧
         s ∈ splits ∧ is_Some (root !! s))) ∧
  ((∃ s d, s ∈ splits ∧ root !! s = Some d ∧ annotation_files d ≠ []) →
   r.2 = Raise AttributeError) ∧
  ((∀ s d, s ∈ splits → root !! s = Some d → annotation_files d = []) →
   r.2 = Ok () ∧
   ∀ s, s ∈ splits → is_Some (root !! s) → is_Some (label_dirs r.1 !! s)).
Proof.
  intros r.
  destruct (main_as_written_todo root splits w) as (Hout & Hdirs & Hraise & Hcases & Hok).
  fold (main root w) in Hout, Hdirs, Hraise, Hcases, Hok. fold r in Hout, Hdirs, Hraise, Hcases, Hok.
  split; [done|]. split; [done|]. split; [by apply Hraise|].
  intros Hempty.
  assert (r.2 = Ok ()) as Hr.
  { destruct Hcases as [?|Hr]; [done|].
    apply Hraise in Hr as (s & d & Hs & Hd & Hne). by rewrite (Hempty s d) in Hne. }
  split; [done|]. by apply Hok.
Qed.

Lemma main_as_written_witness :
  let d := {| annotation_files := [("0001.txt", Ok "100,100,50,50,1,3,0,0")];
              image_files := {[ "0001.jpg" := Ok (1000, 1000) ]} |} in
  let root : gmap string split_dir := {[ "val" := d ]} in
  let w := {| label_dirs := ∅; root_stdout := [] |} in
  (∃ s d, s ∈ splits ∧ root !! s = Some d ∧ annotation_files d ≠ []) ∧
  (main root w).2 = Raise AttributeError.
Proof.
  intros d root w.
  assert (Hex : ∃ s d, s ∈ splits ∧ root !! s = Some d ∧ annotation_files d ≠ []).
  { exists "val", d. split; [|split; [reflexivity|discriminate]].
    unfold splits. apply elem_of_cons. right. apply elem_of_cons. by left. }
  split; [exact Hex|].
  exact (proj1 (proj2 (proj2 (main_as_written root w))) Hex).
Defined.

(** ** [count_classes] *)

Lemma sum_lookup_insert (m : gmap Z Z) (k v : Z) (ks : list Z) :
  NoDup ks →
  foldr Z.add 0 ((λ i, default 0 (<[k:=v]> m !! i)) <$> ks)
  = foldr Z.add 0 ((λ i, default 0 (m !! i)) <$> ks)
    + (if decide (k ∈ ks) then v - default 0 (m !! k) else 0).
Proof.
  induction 1 as [|i ks Hi Hnd IH]; csimpl; [done|].
  rewrite IH. destruct (decide (k = i)) as [->|Hne].
  - rewrite lookup_insert_eq. simpl.
    destruct (decide (i ∈ ks)) as [?|_]; [done|].
    destruct (decide (i ∈ i :: ks)) as [_|Hn]; [lia|].
    exfalso. apply Hn, elem_of_cons. by left.
  - rewrite lookup_insert_ne by done.
    destruct (decide (k ∈ ks)) as [Hin|Hin].
    + destruct (decide (k ∈ i :: ks)) as [_|Hn]; [lia|].
      exfalso. apply Hn, elem_of_cons. by right.
    + destruct (decide (k ∈ i :: ks)) as [[?|?]%elem_of_cons|_]; [done..|lia].
Qed.

Lemma sum_counts_bump (m : gmap Z Z) (cls n : Z) :
  0 ≤ cls < Z.of_nat (length CLASS_NAMES) → m !! cls = Some n →
  sum_counts (<[cls := n + 1]> m) = sum_counts m + 1.
Proof.
  intros Hcls Hn. unfold sum_counts.
  rewrite sum_lookup_insert by apply NoDup_seqZ.
  destruct (decide (cls ∈ seqZ 0 (Z.of_nat (length CLASS_NAMES)))) as [_|Hn'].
  - rewrite Hn. simpl. lia.
  - exfalso. apply Hn', elem_of_seqZ. lia.
Qed.

Lemma counts_ok_zero : counts_ok {| class_counts := zero_counts; total_objects := 0 |}.
Proof.
  split; [|split].
  - intros i. simpl. unfold zero_counts.
    rewrite <- elem_of_dom, dom_list_to_map_L, elem_of_list_to_set.
    rewrite <- list_fmap_compose, list_elem_of_fmap. simpl. split.
    + intros (j & -> & Hj%elem_of_seqZ). lia.
    + intros Hi. exists i. split; [done|]. apply elem_of_seqZ. lia.
  - intros i n Hn. simpl in Hn. unfold zero_counts in Hn.
    apply elem_of_list_to_map_2, list_elem_of_fmap in Hn as (j & [= -> ->] & _). done.
  - reflexivity.
Qed.

(** What a line does to the counts: nothing, one more object of its class,
    or an exception of a builtin. *)
Lemma count_line_cases (line : string) (st : counts) :
  counts_ok st →
  count_line line st = inr st
  ∨ (∃ cls, 0 ≤ cls < Z.of_nat (length CLASS_NAMES) ∧ count_line line st = inr (bump cls st))
  ∨ (∃ e, count_line line st = inl (Builtin e)).
Proof.
  intros (Hdom & _ & _). unfold count_line.
  destruct (String.eqb (strip line) ""); [by left|].
  destruct (index (split_ws (strip line)) 0) as [field|e]; [|right; right; eauto].
  destruct (py_int field) as [cls|e]; [|right; right; eauto].
  destruct ((0 <=? cls) && (cls <? Z.of_nat (length CLASS_NAMES))) eqn:Hcls; [|by left].
  apply andb_true_iff in Hcls as [?%Z.leb_le ?%Z.ltb_lt].
  destruct (proj2 (Hdom cls)) as [n Hn]; [lia|].
  right; left. exists cls. split; [lia|]. rewrite Hn. unfold bump. by rewrite Hn.
Qed.

Lemma counts_ok_bump (cls : Z) (st : counts) :
  0 ≤ cls < Z.of_nat (length CLASS_NAMES) → counts_ok st → counts_ok (bump cls st).
Proof.
  intros Hcls (Hdom & Hpos & Htot).
  destruct (proj2 (Hdom cls)) as [n Hn]; [lia|].
  unfold bump. rewrite Hn. split; [|split]; cbn [class_counts total_objects default].
  - intros i. destruct (decide (cls = i)) as [<-|Hne].
    + rewrite lookup_insert_eq. split; [intros _; exact Hcls|eauto].
    + rewrite lookup_insert_ne by done. apply Hdom.
  - intros i k. destruct (decide (cls = i)) as [<-|Hne].
    + rewrite lookup_insert_eq. intros [= <-]. specialize (Hpos cls n Hn). lia.
    + rewrite lookup_insert_ne by done. apply Hpos.
  - rewrite sum_counts_bump by done. lia.
Qed.

Lemma count_lines_ok (lines : list string) (st : counts) :
  counts_ok st →
  counts_ok (count_lines lines st).1 ∧
  total_objects st ≤ total_objects (count_lines lines st).1 ∧
  ∀ e, (count_lines lines st).2 = Some e → ∃ e', e = Builtin e'.
Proof.
  revert st. induction lines as [|line lines IH]; intros st Hst; simpl.
  { split; [done|]. split; [lia|]. discriminate. }
  destruct (count_line_cases line st Hst) as [->|[(cls & Hcls & ->)|(e & ->)]].
  - by apply IH.
  - destruct (IH (bump cls st)) as (? & Hle & ?); [by apply counts_ok_bump|].
    split; [done|]. split; [|done]. simpl in Hle. lia.
  - simpl. split; [done|]. split; [lia|]. intros ? [= <-]. eauto.
Qed.

Lemma count_files_ok (files : list (string * result string)) (st : counts)
    (out : list count_message) :
  counts_ok st →
  Forall (λ m, ∃ file e, m = CountError file (Builtin e)) out →
  counts_ok (count_files files st out).1 ∧
  total_objects st ≤ total_objects (count_files files st out).1 ∧
  Forall (λ m, ∃ file e, m = CountError file (Builtin e)) (count_files files st out).2.
Proof.
  revert st out. induction files as [|f files IH]; intros st out Hst Hout; simpl.
  { split; [done|]. split; [lia|done]. }
  destruct f.2 as [text|e].
  - destruct (count_lines_ok (readlines text) st Hst) as (Hst' & Hle & He).
    destruct (count_lines (readlines text) st) as [st' [e|]]; simpl in *.
    + destruct (He e eq_refl) as [e' ->].
      destruct (IH st' (out ++ [CountError f.1 (Builtin e')])) as (? & ? & ?); [done| |].
      { apply Forall_app. split; [done|]. constructor; [eauto|constructor]. }
      split; [done|]. split; [lia|done].
    + destruct (IH st' out) as (? & ? & ?); [done..|].
      split; [done|]. split; [lia|done].
  - apply IH; [done|]. apply Forall_app. split; [done|]. constructor; [eauto|constructor].
Qed.

(** X10. Whatever the label files hold, [count_classes] returns a dictionary
    with exactly the keys 0 to 9 and no negative count, and a total that is the
    sum of the ten counts; it never fails on its dictionary: every error it
    prints is one of a builtin (reading the file, or [int] on a line's first
    field). *)
Theorem count_classes_total_is_sum (files : list (string * result string)) :
  let r := count_classes files in
  (∀ i, is_Some (class_counts r.1 !! i) ↔ 0 ≤ i < 10) ∧
  (∀ i n, class_counts r.1 !! i = Some n → 0 ≤ n) ∧
  total_objects r.1 = sum_counts (class_counts r.1) ∧
  Forall (λ m, ∃ file e, m = CountError file (Builtin e)) r.2.
Proof.
  intros r.
  destruct (count_files_ok files {| class_counts := zero_counts; total_objects := 0 |} [])
    as ((Hdom & Hpos & Htot) & _ & Hout); [apply counts_ok_zero|constructor|].
  done.
Qed.

(** X11. An exception on a line of a label file ends the counting of that
    file only, and what the file's earlier lines have added stays counted:
    the lines after it are not counted, the error is printed, and the loop
    goes on with the next file from those counts. *)
Theorem count_keeps_lines_before_error
    (lines1 : list string) (bad : string) (lines2 : list string)
    (st st1 : counts) (e : count_exn) :
  count_lines lines1 st = (st1, None) →
  count_line bad st1 = inl e →
  count_lines (lines1 ++ bad :: lines2) st = (st1, Some e) ∧
  ∀ name text files out,
    readlines text = lines1 ++ bad :: lines2 →
    count_files ((name, Ok text) :: files) st out
    = count_files files st1 (out ++ [CountError name e]).
Proof.
  intros H1 Hbad.
  assert (count_lines (lines1 ++ bad :: lines2) st = (st1, Some e)) as Hall.
  { revert st H1. induction lines1 as [|l lines1 IH]; intros st H1; simpl in *.
    - injection H1 as ->. by rewrite Hbad.
    - destruct (count_line l st) as [e'|st']; [discriminate|]. by apply IH. }
  split; [done|].
  intros name text files out Hlines. simpl. by rewrite Hlines, Hall.
Qed.

Lemma count_keeps_lines_before_error_witness :
  let st := {| class_counts := zero_counts; total_objects := 0 |} in
  let st1 := bump 2 st in
  let lines1 := ["2 0.5 0.5 0.1 0.1" +:+ newline] in
  let bad := "car 0.5 0.5 0.1 0.1" +:+ newline in
  let lines2 := ["3 0.5 0.5 0.1 0.1" +:+ newline] in
  (count_lines lines1 st = (st1, None) ∧ count_line bad st1 = inl (Builtin ValueError)) ∧
  count_lines (lines1 ++ bad :: lines2) st = (st1, Some (Builtin ValueError)).
Proof.
  intros st st1 lines1 bad lines2.
  assert (H1 : count_lines lines1 st = (st1, None)) by reflexivity.
  assert (Hbad : count_line bad st1 = inl (Builtin ValueError)) by reflexivity.
  split; [auto|].
  exact (proj1 (count_keeps_lines_before_error lines1 bad lines2 st st1 _ H1 Hbad)).
Defined.

(** ** The label files the converter writes, read by [count_classes] *)

Lemma string_app_cons (c : ascii) (s t : string) :
  String c s +:+ t = String c (s +:+ t).
Proof. reflexivity. Qed.

Lemma has_char_app (p : ascii → bool) (s t : string) :
  has_char p (s +:+ t) = has_char p s || has_char p t.
Proof.
  induction s as [|c s IH]; [done|].
  rewrite string_app_cons. simpl. by rewrite IH, orb_assoc.
Qed.

Lemma string_app_assoc (s t u : string) : (s +:+ t) +:+ u = s +:+ (t +:+ u).
Proof. induction s as [|c s IH]; [done|]. rewrite !string_app_cons. by rewrite IH. Qed.

Lemma string_app_nil_r (s : string) : s +:+ "" = s.
Proof. induction s as [|c s IH]; [done|]. rewrite string_app_cons. by rewrite IH. Qed.

Lemma rev_app_rev_app (s t u : string) :
  String.rev_app (String.rev_app s t) u = String.rev_app t (s +:+ u).
Proof.
  revert t u. induction s as [|c s IH]; intros t u; [done|].
  simpl. rewrite IH. by rewrite string_app_cons.
Qed.

Lemma concat_nil_cons (l : string) (ls : list string) :
  String.concat "" (l :: ls) = l +:+ String.concat "" ls.
Proof. destruct ls; simpl; [by rewrite string_app_nil_r|done]. Qed.

(** [readlines] cuts a text after its first line feed. *)
Lemma readlines_go_line (body rest cur : string) :
  has_char is_lf body = false →
  readlines_go cur (body +:+ newline +:+ rest)
  = String.rev_app cur (body +:+ newline) :: readlines_go "" rest.
Proof.
  revert cur. induction body as [|c body IH]; intros cur.
  - intros _. reflexivity.
  - simpl. intros [Hc Hbody]%orb_false_elim. unfold is_lf in Hc.
    rewrite !string_app_cons. simpl. rewrite Hc.
    rewrite <- string_app_cons, IH by done. reflexivity.
Qed.

(** Lines that each end in their only line feed are read back as they were
    written. *)
Lemma readlines_concat (lines : list string) :
  Forall (λ l, ∃ body, l = body +:+ newline ∧ has_char is_lf body = false) lines →
  readlines (String.concat "" lines) = lines.
Proof.
  induction 1 as [|l lines (body & -> & Hbody) _ IH]; [done|].
  rewrite concat_nil_cons, string_app_assoc. unfold readlines.
  rewrite readlines_go_line by done. simpl. f_equal. apply IH.
Qed.

Lemma string_of_uint_chars (p : ascii → bool) (u : Decimal.uint) :
  (∀ c, number_char c = true → p c = false) →
  has_char p (NilEmpty.string_of_uint u) = false.
Proof.
  intros Hp. induction u; simpl; rewrite ?IHu, ?orb_false_r; try done; by apply Hp.
Qed.

Lemma str_int_chars (p : ascii → bool) (n : Z) :
  (∀ c, number_char c = true → p c = false) →
  has_char p (str_int n) = false.
Proof.
  intros Hp. unfold str_int, NilZero.string_of_int.
  destruct (Z.to_int n) as [u|u]; simpl.
  - unfold NilZero.string_of_uint.
    destruct u; try apply (string_of_uint_chars p _ Hp).
    simpl. rewrite orb_false_r. by apply Hp.
  - rewrite (Hp "-"%char) by done. unfold NilZero.string_of_uint.
    destruct u; try apply (string_of_uint_chars p _ Hp).
    simpl. rewrite orb_false_r. by apply Hp.
Qed.

Lemma digits_fixed_chars (p : ascii → bool) (k : nat) (n : Z) :
  (∀ c, number_char c = true → p c = false) →
  has_char p (digits_fixed k n) = false.
Proof.
  intros Hp. revert n. induction k as [|k IH]; intros n; simpl; [done|].
  rewrite has_char_app, IH. simpl. rewrite orb_false_r. apply Hp.
  assert (Z.to_nat (n mod 10) < 10)%nat as Hlt
    by (pose proof (Z.mod_pos_bound n 10); lia).
  destruct (Z.to_nat (n mod 10)) as [|[|[|[|[|[|[|[|[|[|m]]]]]]]]]]; try reflexivity; lia.
Qed.

Lemma format6_ratio_chars (p : ascii → bool) (neg : bool) (a d : Z) :
  (∀ c, number_char c = true → p c = false) →
  has_char p (format6_ratio neg a d) = false.
Proof.
  intros Hp. unfold format6_ratio.
  rewrite !has_char_app, str_int_chars, digits_fixed_chars by done.
  simpl. rewrite (Hp "."%char) by done. destruct neg; simpl; [|done].
  by rewrite (Hp "-"%char).
Qed.

Lemma b64_format6_chars (p : ascii → bool) (x : float) :
  (∀ c, number_char c = true → p c = false) →
  has_char p (b64_format6 x) = false.
Proof.
  intros Hp. unfold b64_format6.
  destruct (Prim2SF x) as [s|s| |s m e].
  - by apply format6_ratio_chars.
  - destruct s; simpl; rewrite ?orb_false_r, ?orb_false_iff;
      repeat split; by apply Hp.
  - simpl. rewrite ?orb_false_r, ?orb_false_iff. repeat split; by apply Hp.
  - destruct (0 <=? e); by apply format6_ratio_chars.
Qed.

Lemma number_char_not_lf (c : ascii) : number_char c = true → is_lf c = false.
Proof.
  destruct c as [[|] [|] [|] [|] [|] [|] [|] [|]]; try reflexivity; discriminate.
Qed.

Lemma rstrip_by_cons (p : ascii → bool) (c : ascii) (s : string) :
  rstrip_by p (String c s) = EmptyString ∨ ∃ r, rstrip_by p (String c s) = String c r.
Proof. simpl. destruct (rstrip_by p s); [destruct (p c)|]; eauto. Qed.

(** A line that starts with one digit and a space counts for the class the
    digit names. *)
Lemma count_line_digit (d : ascii) (cls n : Z) (tail : string) (st : counts) :
  is_space d = false → py_int (String d "") = Ok cls →
  0 ≤ cls < Z.of_nat (length CLASS_NAMES) → class_counts st !! cls = Some n →
  count_line (String d (String " " tail)) st = inr (bump cls st).
Proof.
  intros Hd Hint Hcls Hn.
  assert (index (split_ws (strip (String d (String " " tail)))) 0 = Ok (String d "")
          ∧ String.eqb (strip (String d (String " " tail))) "" = false) as [Hfield Hne].
  { unfold strip. cbn [lstrip_by]. rewrite Hd.
    change (rstrip_by is_space (String d (String " " tail)))
      with (match rstrip_by is_space (String " " tail) with
            | EmptyString => if is_space d then EmptyString else String d EmptyString
            | r => String d r
            end).
    destruct (rstrip_by_cons is_space " "%char tail) as [->|[r ->]].
    - rewrite Hd. unfold split_ws. cbn [split_ws_go]. rewrite Hd. done.
    - unfold split_ws. cbn [split_ws_go]. rewrite Hd.
      change (is_space " ") with true. done. }
  unfold count_line. rewrite Hne, Hfield, Hint.
  replace ((0 <=? cls) && (cls <? Z.of_nat (length CLASS_NAMES))) with true
    by (symmetry; apply andb_true_iff; split; [apply Z.leb_le|apply Z.ltb_lt]; lia).
  rewrite Hn. unfold bump. by rewrite Hn.
Qed.

Section CountEmitted.
Context {F : Type} `{PyFloat F}.

(** The counting loop takes an emitted line for one object of its class. *)
Lemma count_line_yolo_line (cls : Z) (box : F * F * F * F) (st : counts) :
  0 ≤ cls ≤ 9 → counts_ok st →
  count_line (yolo_line cls box) st = inr (bump cls st).
Proof.
  intros Hcls (Hdom & _ & _). destruct box as [[[cx cy] nw] nh].
  destruct (proj2 (Hdom cls)) as [n Hn]; [simpl; lia|].
  assert (cls = 0 ∨ cls = 1 ∨ cls = 2 ∨ cls = 3 ∨ cls = 4 ∨ cls = 5 ∨ cls = 6 ∨ cls = 7
          ∨ cls = 8 ∨ cls = 9) as Hcases by lia.
  set (tail := join_space [format6 cx; format6 cy; format6 nw; format6 nh] +:+ newline).
  destruct Hcases as [->|[->|[->|[->|[->|[->|[->|[->|[->| ->]]]]]]]]].
  - exact (count_line_digit "0" 0 n tail st eq_refl eq_refl ltac:(simpl; lia) Hn).
  - exact (count_line_digit "1" 1 n tail st eq_refl eq_refl ltac:(simpl; lia) Hn).
  - exact (count_line_digit "2" 2 n tail st eq_refl eq_refl ltac:(simpl; lia) Hn).
  - exact (count_line_digit "3" 3 n tail st eq_refl eq_refl ltac:(simpl; lia) Hn).
  - exact (count_line_digit "4" 4 n tail st eq_refl eq_refl ltac:(simpl; lia) Hn).
  - exact (count_line_digit "5" 5 n tail st eq_refl eq_refl ltac:(simpl; lia) Hn).
  - exact (count_line_digit "6" 6 n tail st eq_refl eq_refl ltac:(simpl; lia) Hn).
  - exact (count_line_digit "7" 7 n tail st eq_refl eq_refl ltac:(simpl; lia) Hn).
  - exact (count_line_digit "8" 8 n tail st eq_refl eq_refl ltac:(simpl; lia) Hn).
  - exact (count_line_digit "9" 9 n tail st eq_refl eq_refl ltac:(simpl; lia) Hn).
Qed.
End CountEmitted.

Section CountOutput.
Context {F : Type} `{PyFloat F}.
Hypothesis format6_one_line : ∀ x : F, has_char is_lf (format6 x) = false.

Lemma yolo_line_one_line (cls : Z) (box : F * F * F * F) :
  ∃ body, yolo_line cls box = body +:+ newline ∧ has_char is_lf body = false.
Proof.
  destruct box as [[[cx cy] nw] nh].
  exists (str_int cls +:+ " " +:+ join_space [format6 cx; format6 cy; format6 nw; format6 nh]).
  split.
  - unfold yolo_line. by rewrite !string_app_assoc.
  - unfold join_space. cbn [String.concat].
    rewrite !has_char_app, !format6_one_line.
    rewrite str_int_chars by apply number_char_not_lf. reflexivity.
Qed.

(** The lines of an annotation file's output are emitted lines of classes 0
    to 9, in order. *)
Lemma annotation_lines_classes (size : Z * Z) (opened : result string) (lines : list string) :
  annotation_lines size opened = Ok lines →
  ∃ classes : list Z,
    Forall (λ c, 0 ≤ c ≤ 9) classes ∧
    Forall2 (λ c l, ∃ box : F * F * F * F, l = yolo_line c box) classes lines.
Proof.
  unfold annotation_lines. intros Hl.
  apply bind_Ok in Hl as (text & _ & Hl). apply convert_rows_Ok in Hl as [-> _].
  simpl. induction (rows_of text) as [|row rows (classes & Hc & Hl)]; simpl.
  { exists []. split; constructor. }
  destruct (accepted size row) as [l|] eqn:Hrow; [|by exists classes].
  unfold accepted in Hrow.
  destruct (convert_row size row) as [o|e] eqn:Hconv; [subst o|done].
  apply convert_row_Some in Hconv
    as (category & score & c & x1 & y1 & w & h & cx & cy & nw & nh & Hconv).
  destruct Hconv as (_ & _ & _ & _ & _ & _ & Hcls & _ & _ & _ & _ & _ & _ & ->).
  exists ((c - 1) :: classes). split; constructor; eauto.
Qed.

Lemma count_lines_emitted (classes : list Z) (lines : list string) (st : counts) :
  Forall (λ c, 0 ≤ c ≤ 9) classes →
  Forall2 (λ c l, ∃ box : F * F * F * F, l = yolo_line c box) classes lines →
  counts_ok st →
  readlines (String.concat "" lines) = lines ∧
  count_lines lines st = (foldl (λ st c, bump c st) st classes, None) ∧
  total_objects (foldl (λ st c, bump c st) st classes)
  = total_objects st + Z.of_nat (length lines).
Proof.
  intros Hc Hl Hst. split; [|revert st Hst Hc].
  - apply readlines_concat.
    clear Hc. induction Hl as [|c l classes lines [box ->] _ IH]; [by constructor|].
    constructor; [apply yolo_line_one_line|done].
  - induction Hl as [|c l classes lines [box ->] _ IH]; intros st Hst Hc; [split; simpl; [done|lia]|].
    apply Forall_cons in Hc as [Hc0 Hc]. cbn [count_lines foldl].
    rewrite count_line_yolo_line by done.
    destruct (IH (bump c st)) as [-> ->]; [apply counts_ok_bump; simpl; (done || lia)|done|].
    split; [done|]. cbn [length bump total_objects]. lia.
Qed.
End CountOutput.

(** X12. What the converter writes for an annotation file, [count_classes]
    reads back without error, on binary64: the text is cut into the lines
    that were written, each line counts as one object of the class it was
    emitted with, and the total grows by the number of lines. *)
Theorem converter_output_counted
    (size : Z * Z) (opened : result string) (lines : list string) (st : counts) :
  annotation_lines (F:=float) size opened = Ok lines →
  counts_ok st →
  ∃ classes : list Z,
    Forall (λ c, 0 ≤ c ≤ 9) classes ∧
    Forall2 (λ c l, ∃ box : float * float * float * float, l = yolo_line c box)
      classes lines ∧
    readlines (String.concat "" lines) = lines ∧
    count_lines (readlines (String.concat "" lines)) st
    = (foldl (λ st c, bump c st) st classes, None) ∧
    total_objects (foldl (λ st c, bump c st) st classes)
    = total_objects st + Z.of_nat (length lines).
Proof.
  intros Hlines Hst.
  destruct (annotation_lines_classes size opened lines Hlines) as (classes & Hc & Hl).
  assert (∀ x : float, has_char is_lf (format6 x) = false) as Hfmt.
  { intros x. apply (b64_format6_chars is_lf x), number_char_not_lf. }
  destruct (count_lines_emitted Hfmt classes lines st Hc Hl Hst) as (Hread & Hcount & Htot).
  exists classes. rewrite Hread. auto.
Qed.

Lemma converter_output_counted_witness :
  let text := "100,100,50,50,1,3,0,0" +:+ newline +:+ "200,200,100,100,1,1,0,0" in
  let lines := ["2 0.125000 0.125000 0.050000 0.050000" +:+ newline;
                "0 0.250000 0.250000 0.100000 0.100000" +:+ newline] in
  let st := {| class_counts := zero_counts; total_objects := 0 |} in
  (annotation_lines (F:=float) (1000, 1000) (Ok text) = Ok lines ∧ counts_ok st) ∧
  ∃ classes : list Z,
    Forall (λ c, 0 ≤ c ≤ 9) classes ∧
    Forall2 (λ c l, ∃ box : float * float * float * float, l = yolo_line c box)
      classes lines ∧
    readlines (String.concat "" lines) = lines ∧
    count_lines (readlines (String.concat "" lines)) st
    = (foldl (λ st c, bump c st) st classes, None) ∧
    total_objects (foldl (λ st c, bump c st) st classes)
    = total_objects st + Z.of_nat (length lines).
Proof.
  intros text lines st.
  assert (Hlines : annotation_lines (F:=float) (1000, 1000) (Ok text) = Ok lines)
    by (vm_compute; reflexivity).
  split; [split; [exact Hlines|apply counts_ok_zero]|].
  exact (converter_output_counted (1000, 1000) (Ok text) lines st Hlines counts_ok_zero).
Defined.

(** ** [analyze_box_sizes] *)

Lemma sum_insert {A} (g : option A → Z) (m : gmap Z A) (k : Z) (v : A) (ks : list Z) :
  NoDup ks →
  foldr Z.add 0 ((λ i, g (<[k:=v]> m !! i)) <$> ks)
  = foldr Z.add 0 ((λ i, g (m !! i)) <$> ks)
    + (if decide (k ∈ ks) then g (Some v) - g (m !! k) else 0).
Proof.
  induction 1 as [|i ks Hi Hnd IH]; csimpl; [done|].
  rewrite IH. destruct (decide (k = i)) as [->|Hne].
  - rewrite lookup_insert_eq.
    destruct (decide (i ∈ ks)) as [?|_]; [done|].
    destruct (decide (i ∈ i :: ks)) as [_|Hn]; [lia|].
    exfalso. apply Hn, elem_of_cons. by left.
  - rewrite lookup_insert_ne by done.
    destruct (decide (k ∈ ks)) as [Hin|Hin].
    + destruct (decide (k ∈ i :: ks)) as [_|Hn]; [lia|].
      exfalso. apply Hn, elem_of_cons. by right.
    + destruct (decide (k ∈ i :: ks)) as [[?|?]%elem_of_cons|_]; [done..|lia].
Qed.

Section BoxSizesFacts.
Context {F : Type}.
Variable py_float : string → result F.
Implicit Types (st : sizes F) (ct : counts).

Lemma sizes_ok_empty : sizes_ok {| box_sizes := []; class_sizes := no_sizes (F:=F) |}.
Proof.
  split; [|split].
  - intros i. simpl. unfold no_sizes.
    rewrite <- elem_of_dom, dom_list_to_map_L, elem_of_list_to_set.
    rewrite <- list_fmap_compose, list_elem_of_fmap. simpl. split.
    + intros (j & -> & Hj%elem_of_seqZ). lia.
    + intros Hi. exists i. split; [done|]. apply elem_of_seqZ. lia.
  - intros i l Hl. simpl in Hl. unfold no_sizes in Hl.
    apply elem_of_list_to_map_2, list_elem_of_fmap in Hl as (j & [= -> ->] & _). done.
  - unfold sum_sizes.
    assert (∀ ks : list Z, foldr Z.add 0
      ((λ i, Z.of_nat (length (default [] (no_sizes (F:=F) !! i)))) <$> ks) = 0) as Hzero.
    { induction ks as [|i ks IH]; csimpl; [done|]. rewrite IH.
      destruct (no_sizes (F:=F) !! i) as [l|] eqn:Hl; [|done].
      unfold no_sizes in Hl.
      apply elem_of_list_to_map_2, list_elem_of_fmap in Hl as (j & [= -> ->] & _). done. }
    by rewrite Hzero.
Qed.

(** One line, in the two loops: it changes neither state; or it adds a pair
    and an object of the same class; or it raises in the sizes loop, whose
    state it leaves as it is, whatever it does in the counting loop. *)
Lemma size_line_cases (line : string) st ct :
  sizes_ok st → counts_ok ct →
  (size_line py_float line st = (st, None) ∧ count_line line ct = inr ct)
  ∨ (∃ cls p l,
       0 ≤ cls < Z.of_nat (length CLASS_NAMES) ∧ class_sizes st !! cls = Some l ∧
       size_line py_float line st
       = ({| box_sizes := box_sizes st ++ [p];
             class_sizes := <[cls := l ++ [p]]> (class_sizes st) |}, None) ∧
       count_line line ct = inr (bump cls ct))
  ∨ (∃ e, size_line py_float line st = (st, Some (Builtin e))).
Proof.
  intros (Hdom & _ & _) (Hcdom & _ & _). unfold size_line, count_line.
  destruct (String.eqb (strip line) ""); [by left|].
  destruct (index (split_ws (strip line)) 0) as [field|e]; cbn [mbind result_bind];
    [|right; right; eauto].
  destruct (py_int field) as [cls|e]; [|right; right; eauto].
  destruct ((0 <=? cls) && (cls <? Z.of_nat (length CLASS_NAMES))) eqn:Hcls; [|by left].
  apply andb_true_iff in Hcls as [?%Z.leb_le ?%Z.ltb_lt].
  destruct (index (split_ws (strip line)) 3 ≫= py_float) as [width|e]; [|right; right; eauto].
  destruct (index (split_ws (strip line)) 4 ≫= py_float) as [height|e]; [|right; right; eauto].
  destruct (proj2 (Hdom cls)) as [l Hl]; [lia|].
  destruct (proj2 (Hcdom cls)) as [n Hn]; [lia|].
  right; left. exists cls, (width, height), l.
  rewrite Hl, Hn. unfold bump. rewrite Hn. split; [lia|done].
Qed.

Lemma sizes_ok_add (cls : Z) (p : F * F) (l : list (F * F)) st :
  0 ≤ cls < Z.of_nat (length CLASS_NAMES) → class_sizes st !! cls = Some l →
  sizes_ok st →
  sizes_ok {| box_sizes := box_sizes st ++ [p];
              class_sizes := <[cls := l ++ [p]]> (class_sizes st) |}.
Proof.
  intros Hcls Hl (Hdom & Hsub & Hsum). split; [|split]; cbn [box_sizes class_sizes].
  - intros i. destruct (decide (cls = i)) as [<-|Hne].
    + rewrite lookup_insert_eq. split; [intros _; exact Hcls|eauto].
    + rewrite lookup_insert_ne by done. apply Hdom.
  - intros i l'. destruct (decide (cls = i)) as [<-|Hne].
    + rewrite lookup_insert_eq. intros [= <-].
      apply sublist_app; [by eapply Hsub|done].
    + rewrite lookup_insert_ne by done. intros Hl'.
      apply sublist_inserts_r. by eapply Hsub.
  - unfold sum_sizes.
    rewrite (sum_insert (λ o, Z.of_nat (length (default [] o)))) by apply NoDup_seqZ.
    destruct (decide (cls ∈ seqZ 0 (Z.of_nat (length CLASS_NAMES)))) as [_|Hn].
    + rewrite Hl. unfold sum_sizes in Hsum.
      change (default [] (Some (l ++ [p]))) with (l ++ [p]).
      change (default [] (Some l)) with l.
      rewrite !length_app. cbn [length]. lia.
    + exfalso. apply Hn, elem_of_seqZ. lia.
Qed.

Lemma size_lines_count_lines (lines : list string) st ct :
  sizes_ok st → counts_ok ct →
  let rs := size_lines py_float lines st in
  let rc := count_lines lines ct in
  sizes_ok rs.1 ∧ counts_ok rc.1 ∧
  Z.of_nat (length (box_sizes rs.1)) - Z.of_nat (length (box_sizes st))
    ≤ total_objects rc.1 - total_objects ct ∧
  (rs.2 = None →
   rc.2 = None ∧
   Z.of_nat (length (box_sizes rs.1)) - Z.of_nat (length (box_sizes st))
     = total_objects rc.1 - total_objects ct) ∧
  (∀ e, rs.2 = Some e → ∃ e', e = Builtin e').
Proof.
  revert st ct. induction lines as [|line lines IH]; intros st ct Hst Hct; cbn [size_lines count_lines].
  { simpl. split; [done|]. split; [done|]. split; [lia|]. split; [intros _; split; [done|lia]|].
    discriminate. }
  destruct (size_line_cases line st ct Hst Hct)
    as [[-> ->]|[(cls & p & l & Hcls & Hl & -> & ->)|(e & ->)]].
  - by apply IH.
  - destruct (IH {| box_sizes := box_sizes st ++ [p];
                    class_sizes := <[cls := l ++ [p]]> (class_sizes st) |} (bump cls ct))
      as (Hs & Hc & Hle & Heq & Herr);
      [by apply sizes_ok_add|by apply counts_ok_bump|].
    cbn [box_sizes bump total_objects] in Hle, Heq. rewrite length_app in Hle, Heq.
    cbn [length] in Hle, Heq.
    split; [done|]. split; [done|]. split; [lia|]. split; [|done].
    intros Hnone. destruct (Heq Hnone) as [? ?]. split; [done|lia].
  - cbn [fst snd].
    destruct (count_lines_ok (line :: lines) ct Hct) as (Hc & Hle & _).
    cbn [count_lines] in Hc, Hle.
    split; [done|]. split; [done|]. split; [lia|]. split; [discriminate|].
    intros ? [= <-]. eauto.
Qed.

Lemma size_files_count_files (files : list (string * result string)) st ct
    (outs outc : list count_message) :
  sizes_ok st → counts_ok ct →
  Forall (λ m, ∃ file e, m = CountError file (Builtin e)) outs →
  let rs := size_files py_float files st outs in
  let rc := count_files files ct outc in
  sizes_ok rs.1 ∧
  Forall (λ m, ∃ file e, m = CountError file (Builtin e)) rs.2 ∧
  Z.of_nat (length (box_sizes rs.1)) - Z.of_nat (length (box_sizes st))
    ≤ total_objects rc.1 - total_objects ct ∧
  (rs.2 = [] →
   rc.2 = outc ∧
   Z.of_nat (length (box_sizes rs.1)) - Z.of_nat (length (box_sizes st))
     = total_objects rc.1 - total_objects ct) ∧
  (length outs ≤ length rs.2)%nat.
Proof.
  revert st ct outs outc. induction files as [|f files IH]; intros st ct outs outc Hst Hct Houts;
    cbn [size_files count_files].
  { simpl. split; [done|]. split; [done|]. split; [lia|]. split; [|lia].
    intros _. split; [done|lia]. }
  assert (∀ m, Forall (λ m, ∃ file e, m = CountError file (Builtin e))
                 (outs ++ [CountError f.1 (Builtin m)])) as Houts'.
  { intros m. apply Forall_app. split; [done|]. constructor; [eauto|constructor]. }
  destruct f.2 as [text|e].
  - destruct (size_lines_count_lines (readlines text) st ct Hst Hct)
      as (Hs & Hc & Hle & Heq & Herr).
    destruct (size_lines py_float (readlines text) st) as [st' [e|]];
      destruct (count_lines (readlines text) ct) as [ct' oc]; cbn [fst snd] in *.
    + destruct (Herr e eq_refl) as [e' ->].
      destruct oc as [ec|].
      * destruct (IH st' ct' (outs ++ [CountError f.1 (Builtin e')])
                    (outc ++ [CountError f.1 ec]) Hs Hc (Houts' e'))
          as (? & ? & Hle' & _ & Hlen).
        split; [done|]. split; [done|]. split; [lia|]. rewrite length_app in Hlen.
        cbn [length] in Hlen. split; [|lia].
        intros Hnil. rewrite Hnil in Hlen. simpl in Hlen. lia.
      * destruct (IH st' ct' (outs ++ [CountError f.1 (Builtin e')]) outc Hs Hc (Houts' e'))
          as (? & ? & Hle' & _ & Hlen).
        split; [done|]. split; [done|]. split; [lia|]. rewrite length_app in Hlen.
        cbn [length] in Hlen. split; [|lia].
        intros Hnil. rewrite Hnil in Hlen. simpl in Hlen. lia.
    + destruct (Heq eq_refl) as [-> Heq'].
      destruct (IH st' ct' outs outc Hs Hc Houts) as (? & ? & Hle' & Heq'' & Hlen).
      split; [done|]. split; [done|]. split; [lia|]. split; [|done].
      intros Hnil. destruct (Heq'' Hnil) as [? ?]. split; [done|lia].
  - destruct (IH st ct (outs ++ [CountError f.1 (Builtin e)])
                (outc ++ [CountError f.1 (Builtin e)]) Hst Hct (Houts' e))
      as (? & ? & Hle' & _ & Hlen).
    split; [done|]. split; [done|]. split; [lia|]. rewrite length_app in Hlen.
    cbn [length] in Hlen. split; [|lia].
    intros Hnil. rewrite Hnil in Hlen. simpl in Hlen. lia.
Qed.
End BoxSizesFacts.

(** X13. Whatever [float] accepts and whatever the label files hold:
    [analyze_box_sizes] returns a dictionary with exactly the keys 0 to 9
    whose lists are sublists of [box_sizes] and hold together as many pairs
    as it; it never fails on its dictionary; it never collects more boxes
    than [count_classes] counts objects in the same files, and collects as
    many when it prints no error, in which case [count_classes] prints none
    either. *)
Theorem box_sizes_at_most_total {F : Type} (py_float : string → result F)
    (files : list (string * result string)) :
  let rs := analyze_box_sizes py_float files in
  let rc := count_classes files in
  (∀ i, is_Some (class_sizes rs.1 !! i) ↔ 0 ≤ i < 10) ∧
  (∀ i l, class_sizes rs.1 !! i = Some l → l `sublist_of` box_sizes rs.1) ∧
  Z.of_nat (length (box_sizes rs.1)) = sum_sizes (class_sizes rs.1) ∧
  Forall (λ m, ∃ file e, m = CountError file (Builtin e)) rs.2 ∧
  Z.of_nat (length (box_sizes rs.1)) ≤ total_objects rc.1 ∧
  (rs.2 = [] → rc.2 = [] ∧ Z.of_nat (length (box_sizes rs.1)) = total_objects rc.1).
Proof.
  intros rs rc.
  destruct (size_files_count_files py_float files
              {| box_sizes := []; class_sizes := no_sizes |}
              {| class_counts := zero_counts; total_objects := 0 |} [] []
              sizes_ok_empty counts_ok_zero (Forall_nil_2 _))
    as ((Hdom & Hsub & Hsum) & Hout & Hle & Heq & _).
  unfold rs, rc, analyze_box_sizes, count_classes.
  cbn [box_sizes total_objects length] in Hle, Heq.
  split; [done|]. split; [done|]. split; [done|]. split; [done|]. split; [lia|].
  intros Hnil. destruct (Heq Hnil) as [? ?]. split; [done|lia].
Qed.

(** ** The numbers of an emitted line, on binary64 *)

Lemma round_half_even_unit (a d : Z) :
  0 ≤ a ≤ d → 0 < d → 0 ≤ round_half_even (a * 1000000) d ≤ 1000000.
Proof.
  intros Ha Hd. unfold round_half_even.
  assert (0 ≤ a * 1000000 / d) by (apply Z.div_pos; lia).
  destruct (decide (a = d)) as [->|Hne].
  - replace (d * 1000000) with (1000000 * d) by lia.
    rewrite Z.div_mul, Z.mod_mul by lia.
    replace (d <? 2 * 0) with false by (symmetry; apply Z.ltb_ge; lia).
    replace (d =? 2 * 0) with false by (symmetry; apply Z.eqb_neq; lia).
    simpl. lia.
  - assert (a * 1000000 / d < 1000000) by (apply Z.div_lt_upper_bound; nia).
    destruct ((d <? 2 * ((a * 1000000) mod d))
              || (d =? 2 * ((a * 1000000) mod d)) && Z.odd (a * 1000000 / d)); lia.
Qed.

Lemma format6_ratio_unit (neg : bool) (a d : Z) :
  0 ≤ a ≤ d → 0 < d → (neg = true → a = 0) →
  unit_decimal (format6_ratio neg a d).
Proof.
  intros Ha Hd Hneg. exists neg, (round_half_even (a * 1000000) d).
  split; [by apply round_half_even_unit|]. split; [|reflexivity].
  intros Hn. rewrite (Hneg Hn). unfold round_half_even.
  rewrite Z.mul_0_l, Z.div_0_l, Z.mod_0_l by lia.
  replace (d <? 2 * 0) with false by (symmetry; apply Z.ltb_ge; lia).
  replace (d =? 2 * 0) with false by (symmetry; apply Z.eqb_neq; lia).
  reflexivity.
Qed.

(** A binary64 value that passes [0 <= x <= 1] is a zero, or a positive
    finite value [m * 2^e] with [e < 0] and [m <= 2^(-e)]. *)
Lemma b64_in_unit_value (x : float) :
  in_unit (F:=float) x = true →
  match Prim2SF x with
  | S754_zero _ => True
  | S754_finite false m e => e < 0 ∧ Z.pos m ≤ 2 ^ (- e)
  | _ => False
  end.
Proof.
  unfold in_unit. cbn [fle f0 f1 b64_float]. rewrite !leb_spec.
  replace (Prim2SF 0%float) with (S754_zero false) by (vm_compute; reflexivity).
  replace (Prim2SF 1%float) with (S754_finite false 4503599627370496 (-52))
    by (vm_compute; reflexivity).
  pose proof (Prim2SF_valid x) as Hvalid.
  destruct (Prim2SF x) as [s|s| |s m e]; try done.
  - destruct s; intros Hle; simpl in Hle; discriminate Hle.
  - destruct s; [intros Hle; simpl in Hle; discriminate Hle|].
    intros Hle. apply andb_true_iff in Hle as [_ Hle].
    unfold SFleb, SFcompare in Hle.
    simpl in Hvalid. unfold bounded, canonical_mantissa, fexp in Hvalid.
    apply andb_true_iff in Hvalid as [Hcan _]. apply Z.eqb_eq in Hcan.
    pose proof (digits2_pos_bounds m) as [_ Hm].
    destruct (Z.compare_spec e (-52)) as [->|He|He]; [| |discriminate Hle].
    + clear Hm Hcan. split; [done|].
      change (2 ^ (- -52)) with (Z.pos 4503599627370496).
      pose proof (Pos.compare_spec m 4503599627370496) as Hs.
      unfold Pos.compare in Hs.
      destruct Hs as [Heq|Hlt|Hgt]; [| |discriminate Hle].
      * rewrite Heq. apply Z.le_refl.
      * apply Z.lt_le_incl, Pos2Z.pos_lt_pos, Hlt.
    + split; [lia|].
      assert (Z.pos (digits2_pos m) ≤ 53) by (unfold SpecFloat.emin, prec, emax in Hcan; lia).
      assert (2 ^ Z.pos (digits2_pos m) ≤ 2 ^ (- e))
        by (apply Z.pow_le_mono_r; lia).
      lia.
Qed.

Lemma b64_in_unit_format (x : float) :
  in_unit (F:=float) x = true → unit_decimal (format6 x).
Proof.
  intros Hx. apply b64_in_unit_value in Hx. cbn [format6 b64_float]. unfold b64_format6.
  destruct (Prim2SF x) as [s|s| |s m e]; try done.
  - apply format6_ratio_unit; [lia|lia|done].
  - destruct s; [done|]. destruct Hx as [He Hm].
    replace (0 <=? e) with false by (symmetry; apply Z.leb_gt; lia).
    apply format6_ratio_unit; [lia| |done].
    apply Z.pow_pos_nonneg; lia.
Qed.

(** X14. On binary64, every line the converter emits is a class id between 0
    and 9 followed by four numbers between 0 and 1 printed with six decimals
    ([0.dddddd] or [1.000000]; a zero may carry a minus sign), separated by
    single spaces and ended by a line feed. *)
Theorem emitted_line_shape (size : Z * Z) (row : list string) (l : string) :
  convert_row (F:=float) size row = Ok (Some l) →
  ∃ (cls : Z) (cx cy nw nh : string),
    0 ≤ cls ≤ 9 ∧
    unit_decimal cx ∧ unit_decimal cy ∧ unit_decimal nw ∧ unit_decimal nh ∧
    l = str_int cls +:+ " " +:+ cx +:+ " " +:+ cy +:+ " " +:+ nw +:+ " " +:+ nh +:+ newline.
Proof.
  intros Hl.
  apply convert_row_Some in Hl
    as (category & score & c & x1 & y1 & w & h & cx & cy & nw & nh & Hl).
  destruct Hl as (_ & _ & _ & _ & _ & _ & Hcls & _ & _ & Hcx & Hcy & Hnw & Hnh & ->).
  exists (c - 1), (format6 cx), (format6 cy), (format6 nw), (format6 nh).
  split; [done|]. repeat (split; [by apply b64_in_unit_format|]).
  unfold yolo_line, join_space. cbn [String.concat]. by rewrite !string_app_assoc.
Qed.

Lemma emitted_line_shape_witness :
  let row := ["100"; "100"; "50"; "50"; "1"; "3"; "0"; "0"] in
  let l := "2 0.125000 0.125000 0.050000 0.050000" +:+ newline in
  convert_row (F:=float) (1000, 1000) row = Ok (Some l) ∧
  ∃ (cls : Z) (cx cy nw nh : string),
    0 ≤ cls ≤ 9 ∧
    unit_decimal cx ∧ unit_decimal cy ∧ unit_decimal nw ∧ unit_decimal nh ∧
    l = str_int cls +:+ " " +:+ cx +:+ " " +:+ cy +:+ " " +:+ nw +:+ " " +:+ nh +:+ newline.
Proof.
  intros row l.
  assert (Hl : convert_row (F:=float) (1000, 1000) row = Ok (Some l))
    by (vm_compute; reflexivity).
  split; [exact Hl|].
  exact (emitted_line_shape (1000, 1000) row l Hl).
Defined.
